(** * Data wrangling of the ESS11 voting-behaviour notebook

    A shallow embedding of the data-wrangling part of
    [code/votingbehavior.py] (lines 28-229): column selection and renaming,
    the grouping of voted parties into coalitions, the translation of the
    missing-data codes to NaN, the missingness indicators and the test of
    their independence of the coalition, and the exclusion of incomplete
    observations; then of the table the models are trained on (lines
    260-298) and of the grid of the plots (lines 412-449).

    The tables hold integers, texts and NaN.  The statistics the script
    prints (means, the chi-square statistic, the summary table) are floating
    point numbers that only reach the output: of the lines that compute them
    the model keeps the objects they read and the exceptions they raise.

    The script is a sequence of assignments to module-level variables that
    hold pandas objects.  Some statements build a new DataFrame and rebind a
    name to it, others write a column into an existing DataFrame in place, so
    the script is modelled in a state-and-exception monad over a store of
    DataFrame objects. *)

From stdpp Require Import gmap strings list sorting.

Open Scope Z_scope.


(** ** Tables *)

(** A cell of the survey table: a numeric code, a text (the region codes of
    the survey are text) or the missing marker.  The survey codes are
    integers; pandas stores a column with gaps as floats and compares [2.0]
    and [2] as equal, so a code is identified with its integer value.  Python's
    [None], when written into a numeric column, is stored as NaN. *)
Inductive cell : Type :=
  | Num (z : Z)
  | Str (s : string)
  | NaN.

Global Instance cell_eq_dec : EqDecision cell.
Proof. solve_decision. Defined.

Global Instance cell_inhabited : Inhabited cell := populate NaN.

(** A row keeps the index label read_csv gave it; its cells are aligned with
    the column list of the frame. *)
Record Row : Type := mkRow { label : nat; cells : list cell }.

Record DataFrame : Type := mkFrame { columns : list string; rows : list Row }.

(** A column taken out of a frame, aligned with the rows of that frame. *)
Definition Series : Type := list cell.

Global Instance Row_eq_dec : EqDecision Row.
Proof. solve_decision. Defined.

Global Instance DataFrame_eq_dec : EqDecision DataFrame.
Proof. solve_decision. Defined.

(** The frames read_csv produces: unique column names, one cell per column. *)
Definition wf_frame (d : DataFrame) : Prop :=
  NoDup (columns d) ∧ Forall (λ r, length (cells r) = length (columns d)) (rows d).

(** Position of a column name in a column list. *)
Fixpoint index_of (c : string) (cols : list string) : option nat :=
  match cols with
  | [] => None
  | c' :: cols' => if decide (c' = c) then Some 0%nat else S <$> index_of c cols'
  end.

(** The value a row holds in column [c]. *)
Definition cell_at (cols : list string) (r : Row) (c : string) : option cell :=
  i ← index_of c cols; cells r !! i.

(** [v in values] and [isin] on one cell: NaN and text equal no integer
    code. *)
Definition cell_in (v : cell) (values : list Z) : bool :=
  match v with Num z => bool_decide (z ∈ values) | _ => false end.

(** The value pandas reads at position [i] of a row. *)
Definition nth_cell (i : nat) (r : Row) : cell := default NaN (cells r !! i).

(** A number a float64 holds exactly, and a table of such numbers. *)
Definition float_exact (v : cell) : Prop :=
  match v with Num z => Z.abs z ≤ 2 ^ 53 | _ => True end.

Global Instance float_exact_dec v : Decision (float_exact v).
Proof. destruct v; unfold float_exact; apply _. Defined.

Definition exact_table (d : DataFrame) : Prop :=
  Forall (λ r, Forall float_exact (cells r)) (rows d).

(** ** Exceptions *)

Inductive exn : Type :=
  | KeyError (keys : list string)   (* a column label that is not in the frame *)
  | NameError (x : string)          (* a variable read before it is assigned *)
  | Dangling (l : nat)              (* a reference to no object: unreachable *)
  | ValueError                      (* an argument a library call refuses *)
  | AttributeError                  (* a method the object does not have *)
  | IndexError.                     (* a position outside an array *)

Inductive result (A : Type) : Type :=
  | Ok (a : A)
  | Raise (e : exn).
Arguments Ok {A} a.
Arguments Raise {A} e.

(** ** The pandas operations the script calls *)

Module pd.

(** [df[c]]: the column as a Series, KeyError when there is no such column. *)
Definition getitem (c : string) (d : DataFrame) : result Series :=
  match index_of c (columns d) with
  | None => Raise (KeyError [c])
  | Some i => Ok (nth_cell i <$> rows d)
  end.

(** [df[[c1, ..., cn]]]: a new frame with these columns in this order, the
    rows in their order; KeyError names the labels that are not columns. *)
Definition take (cs : list string) (d : DataFrame) : DataFrame :=
  mkFrame cs
    ((λ r, mkRow (label r) ((λ c, default NaN (cell_at (columns d) r c)) <$> cs))
       <$> rows d).

Definition getitem_list (cs : list string) (d : DataFrame) : result DataFrame :=
  match filter (λ c, c ∉ columns d) cs with
  | [] => Ok (take cs d)
  | missing => Raise (KeyError missing)
  end.

(** Rows of [l] at which the boolean mask holds. *)
Fixpoint select {A} (mask : list bool) (l : list A) : list A :=
  match mask, l with
  | b :: mask', x :: l' => if b then x :: select mask' l' else select mask' l'
  | _, _ => []
  end.

(** [df[mask]]: a new frame with the rows the boolean Series selects. *)
Definition getitem_mask (mask : list bool) (d : DataFrame) : DataFrame :=
  mkFrame (columns d) (select mask (rows d)).

(** [df.rename(columns=m)]: a new frame, labels not in [m] are kept. *)
Definition rename (m : gmap string string) (d : DataFrame) : DataFrame :=
  mkFrame ((λ c, default c (m !! c)) <$> columns d) (rows d).

(** [s.isin(values)] *)
Definition isin (values : list Z) (s : Series) : list bool :=
  (λ v, cell_in v values) <$> s.

(** [~mask] *)
Definition invert (mask : list bool) : list bool := negb <$> mask.

(** [s.apply(f)] for an [f] that returns a number or [None]. *)
Definition apply (f : cell → option Z) (s : Series) : Series :=
  (λ v, match f v with Some z => Num z | None => NaN end) <$> s.

(** [s.replace(to_replace, np.nan)].  A column in which a value became NaN
    is a column of float64 in pandas: the cells kept here as they are stand
    for the same numbers as floats, which is exact for the integers up to
    2^53 in absolute value ([float_exact] below). *)
Definition replace (to_replace : list Z) (s : Series) : Series :=
  (λ v, if cell_in v to_replace then NaN else v) <$> s.

(** Writing [v] at position [i] of a row, a new last cell when [i] is the
    row's length. *)
Definition set_cell (i : nat) (v : cell) (r : Row) : Row :=
  mkRow (label r)
    (if decide (i < length (cells r))%nat then <[i := v]> (cells r)
     else cells r ++ [v]).

(** The frame after [df[c] = s]: the column is overwritten where it is, or
    added as the last one.  The Series always comes from a column of the
    same frame here, so the index alignment of pandas is positional. *)
Definition set_column (c : string) (s : Series) (d : DataFrame) : DataFrame :=
  match index_of c (columns d) with
  | Some i => mkFrame (columns d) (zip_with (set_cell i) s (rows d))
  | None =>
      mkFrame (columns d ++ [c])
        (zip_with (set_cell (length (columns d))) s (rows d))
  end.

Definition isna (v : cell) : bool :=
  match v with NaN => true | _ => false end.

(** [df.dropna(subset=[c])] for one label. *)
Definition dropna (c : string) (d : DataFrame) : result DataFrame :=
  match getitem c d with
  | Ok s => Ok (getitem_mask (invert (isna <$> s)) d)
  | Raise e => Raise e
  end.

(** [df.copy()]: the value of the new object. *)
Definition copy (d : DataFrame) : DataFrame := d.

End pd.

(** ** The store of the script *)

(** Objects live in a heap and variables hold references, so that two names
    of one object see each other's in-place writes.  Of what the script
    prints, [stdout] keeps the lines of the exclusion loop: the column and
    the number of observations left. *)
Record store : Type := mkStore {
  heap : list DataFrame;
  env : gmap string nat;
  stdout : list (string * nat)
}.

Definition M (A : Type) : Type := store → result (A * store).

Global Instance M_ret : MRet M := λ A a s, Ok (a, s).
Global Instance M_bind : MBind M := λ A B f m s,
  match m s with
  | Ok (a, s') => f a s'
  | Raise e => Raise e
  end.

(** A pandas call that may raise. *)
Definition lift {A} (r : result A) : M A := λ s,
  match r with Ok a => Ok (a, s) | Raise e => Raise e end.

(** The reference a variable holds. *)
Definition var (x : string) : M nat := λ s,
  match env s !! x with
  | Some l => Ok (l, s)
  | None => Raise (NameError x)
  end.

Definition deref (l : nat) : M DataFrame := λ s,
  match heap s !! l with
  | Some d => Ok (d, s)
  | None => Raise (Dangling l)
  end.

(** A new object. *)
Definition new (d : DataFrame) : M nat := λ s,
  Ok (length (heap s), mkStore (heap s ++ [d]) (env s) (stdout s)).

(** [x = <reference>] *)
Definition assign (x : string) (l : nat) : M unit := λ s,
  Ok ((), mkStore (heap s) (<[x := l]> (env s)) (stdout s)).

(** In-place update of the object at [l]. *)
Definition update (l : nat) (d : DataFrame) : M unit := λ s,
  Ok ((), mkStore (<[l := d]> (heap s)) (env s) (stdout s)).

Definition print (line : string * nat) : M unit := λ s,
  Ok ((), mkStore (heap s) (env s) (stdout s ++ [line])).

(** The frame a variable evaluates to. *)
Definition read (x : string) : M DataFrame := l ← var x; deref l.

(** [x = e] where [e] builds a new frame. *)
Definition bind_new (x : string) (d : DataFrame) : M unit := l ← new d; assign x l.

(** [x[c] = s] *)
Definition setitem (x c : string) (s : Series) : M unit :=
  l ← var x; d ← deref l; update l (pd.set_column c s d).

(** [for item in items: body] *)
Fixpoint for_each {A} (items : list A) (body : A → M unit) : M unit :=
  match items with
  | [] => mret ()
  | item :: items' => body item;; for_each items' body
  end.

(** The frame a variable names in a store. *)
Definition frame_of (s : store) (x : string) : option DataFrame :=
  l ← env s !! x; heap s !! l.

(** The store after [df = pd.read_csv('ESS11.csv')]. *)
Definition init (raw : DataFrame) : store := mkStore [raw] {["df" := 0%nat]} [].

(** ** The script *)

Definition columns_to_keep : list string :=
  ["agea"; "gndr"; "eisced"; "hinctnta"; "region"; "emplrel";
   "mbtru"; "polintr"; "lrscale"; "stfdem"; "trstep";
   "rlgdgr"; "imwbcnt"; "nwspol"; "freehms"; "eqpaybg"; "prtvteit"].

Definition column_mapping : gmap string string :=
  list_to_map
    [("agea", "Age");
     ("gndr", "Gender");
     ("eisced", "EducationLevel");
     ("hinctnta", "HouseholdIncome");
     ("region", "Region");
     ("emplrel", "EmploymentStatus");
     ("mbtru", "TradeUnionMember");
     ("polintr", "PoliticalInterest");
     ("lrscale", "LeftRightScale");
     ("stfdem", "SatisfactionDemocracy");
     ("trstep", "TrustEP");
     ("rlgdgr", "Religion");
     ("imwbcnt", "AttitudesTowardImmigration");
     ("freehms", "AttitudeTowardLGBT");
     ("nwspol", "MediaConsumption");
     ("eqpaybg", "ZeroPayGapOpinion");
     ("prtvteit", "VotedParty")].

(** [range(a, b)] *)
Definition range (a b : Z) : list Z := seqZ a (b - a).

(** [set(range(1, 10)) - {9}] *)
Definition party_codes : gset Z := list_to_set (range 1 10) ∖ {[9]}.

Definition assign_target (VotedParty : cell) : option Z :=
  if cell_in VotedParty [2; 7; 8; 10] then Some 1        (* CSX *)
  else if cell_in VotedParty [1; 4; 5] then Some 4       (* CDX *)
  else if cell_in VotedParty [3] then Some 2             (* M5S *)
  else if cell_in VotedParty [6] then Some 3             (* TerzoPolo *)
  else None.

(** The dict of exclusion rules, as the list [.items()] iterates over: the
    order of insertion. *)
Definition exclusion_rules : list (string * list Z) :=
  [("VotedParty", [66; 77; 88; 99]);
   ("ZeroPayGapOpinion", [7; 8; 9]);
   ("MediaConsumption", [7777; 8888; 9999]);
   ("AttitudeTowardLGBT", [7; 8; 9]);
   ("EducationLevel", [0; 55; 77; 88; 99]);
   ("Age", [999]);
   ("Religion", [77; 88; 99]);
   ("TrustEP", [77; 88; 99]);
   ("AttitudesTowardImmigration", [77; 88; 99]);
   ("Gender", [9]);
   ("HouseholdIncome", [77; 88; 99]);
   ("EmploymentStatus", [7; 8; 9]);
   ("TradeUnionMember", [7; 8; 9]);
   ("PoliticalInterest", [7; 8; 9]);
   ("LeftRightScale", [77; 88; 99]);
   ("SatisfactionDemocracy", [77; 88; 99]);
   ("Region", [99999])].

(** [label_names['VotedCoalition']] *)
Definition coalition_names : gmap Z string :=
  list_to_map [(1, "CSX"); (2, "M5S"); (3, "TerzoPolo"); (4, "CDX")].

(** Lines 69 and 97: selection of the columns and their new names. *)
Definition project_and_rename : M unit :=
  d ← read "df";
  d' ← lift (pd.getitem_list columns_to_keep d);
  bind_new "df_selected" d';;
  d ← read "df_selected";
  bind_new "df_selected" (pd.rename column_mapping d).

(** Lines 126-145: the classifiable parties and their coalition. *)
Definition coalition_collapse : M unit :=
  d ← read "df_selected";
  s ← lift (pd.getitem "VotedParty" d);
  bind_new "df_selected" (pd.getitem_mask (pd.isin (elements party_codes) s) d);;
  d ← read "df_selected";
  s ← lift (pd.getitem "VotedParty" d);
  setitem "df_selected" "VotedCoalition" (pd.apply assign_target s);;
  d ← read "df_selected";
  d' ← lift (pd.dropna "VotedCoalition" d);
  bind_new "df_selected" d'.

(** Line 185, the body of the loop: the missing codes of one variable become
    NaN, in place. *)
Definition replace_missing (rule : string * list Z) : M unit :=
  let '(column, missing_values) := rule in
  d ← read "df_missing";
  s ← lift (pd.getitem column d);
  setitem "df_missing" column (pd.replace missing_values s).

(** Lines 183-185, for any dict of rules: the missing codes become NaN in a
    copy. *)
Definition sentinel_translation_with (rules : list (string * list Z)) : M unit :=
  d ← read "df_selected";
  bind_new "df_missing" (pd.copy d);;
  for_each rules replace_missing.

Definition sentinel_translation : M unit :=
  sentinel_translation_with exclusion_rules.

(** Lines 225-227, the body of the loop: the observations with a missing code
    of one variable are excluded, and the number left is printed. *)
Definition exclude (rule : string * list Z) : M unit :=
  let '(column, values_to_exclude) := rule in
  d ← read "df_selected";
  s ← lift (pd.getitem column d);
  bind_new "df_selected"
    (pd.getitem_mask (pd.invert (pd.isin values_to_exclude s)) d);;
  d ← read "df_selected";
  print (column, length (rows d)).

(** Lines 224-229, for any dict of rules. *)
Definition completeness_filter_with (rules : list (string * list Z)) : M unit :=
  for_each rules exclude;;
  l ← var "df_selected";
  assign "df_filtered" l.

Definition completeness_filter : M unit :=
  completeness_filter_with exclusion_rules.

(** Lines 188-192: the missingness indicators. *)

(** [df.isna().astype(int)]: a new frame of 0 and 1. *)
Definition pd_isna_int (d : DataFrame) : DataFrame :=
  mkFrame (columns d)
    ((λ r, mkRow (label r) ((λ v, Num (if pd.isna v then 1 else 0)) <$> cells r))
       <$> rows d).

(** [x.columns = names]: the labels of the object are replaced in place.  The
    list always has the length of the old one here. *)
Definition set_columns (x : string) (names : list string) : M unit :=
  l ← var x; d ← deref l; update l (mkFrame names (rows d)).

Definition missing_indicators : M unit :=
  d ← read "df_missing";
  bind_new "missing_indicators" (pd_isna_int d);;
  d ← read "df_missing";
  set_columns "missing_indicators" ((λ col, col +:+ "_missing") <$> columns d);;
  d ← read "df_missing";
  s ← lift (pd.getitem "VotedCoalition" d);
  setitem "missing_indicators" "VotedCoalition" s.

(** Lines 195-204 print the mean of each indicator by coalition: floating
    point numbers, in tables no later line reads, which are not in the store.
    Of these lines the model keeps what can stop the script: [groupby] reads
    [missing_indicators] and raises a KeyError when its key is no column. *)
Definition missing_rates : M unit :=
  d ← read "missing_indicators";
  _ ← lift (pd.getitem "VotedCoalition" d);
  mret ().

(** The order in which pandas sorts the labels of a table of counts: numbers
    in increasing order, then texts. *)
Definition key_leb (v w : cell) : bool :=
  match v, w with
  | Num x, Num y => bool_decide (x ≤ y)
  | Num _, _ => true
  | Str s, Str t => String.leb s t
  | Str _, Num _ => false
  | Str _, NaN => true
  | NaN, NaN => true
  | NaN, _ => false
  end.

Definition key_le (v w : cell) : Prop := key_leb v w = true.

Global Instance key_le_dec v w : Decision (key_le v w).
Proof. unfold key_le. apply _. Defined.

(** [pd.crosstab(a, b)] for a boolean Series [a]: the number of positions at
    which each pair of values occurs, positions with a NaN left out; one row
    for each value of [a] and one column for each value of [b] that occurs,
    in increasing order. *)
Definition pd_crosstab (a : list bool) (b : Series) : list (list nat) :=
  let pairs := filter (λ p, pd.isna p.2 = false) (zip a b) in
  let index := filter (λ k, k ∈ pairs.*1) [false; true] in
  let cols := merge_sort key_le (remove_dups pairs.*2) in
  (λ i, (λ j, length (filter (λ p, p = (i, j)) pairs)) <$> cols) <$> index.

(** [chi2_contingency(observed)], as far as it can stop the script: scipy
    raises a ValueError for a table without a cell and for a table with an
    expected frequency of zero, that is with an empty row or column.  The
    statistic, the p-value and the expected frequencies it returns are
    floating point numbers that are only printed (lines 215-219); they are
    not part of the model. *)
Definition chi2_contingency (observed : list (list nat)) : result unit :=
  let size := sum_list (length <$> observed) in
  let row_sums := sum_list <$> observed in
  let col_sums :=
    (λ j, sum_list ((λ row, row !!! j) <$> observed))
      <$> seq 0 (length (default [] (head observed))) in
  if decide (size = 0%nat) then Raise ValueError
  else if decide (sum_list row_sums ≠ 0%nat ∧
                  Exists (λ r, Exists (λ c, (r * c = 0)%nat) col_sums) row_sums)
       then Raise ValueError
  else Ok ().

(** Lines 210-213: the test of the missingness of [HouseholdIncome]. *)
Definition mar_test : M unit :=
  d ← read "df_missing";
  income ← lift (pd.getitem "HouseholdIncome" d);
  d ← read "df_missing";
  coalition ← lift (pd.getitem "VotedCoalition" d);
  lift (chi2_contingency (pd_crosstab (pd.isna <$> income) coalition)).

(** The data wrangling, from [df] to [df_filtered] (lines 64-229).  The
    [print] of a table or of its head writes what the model does not keep and
    cannot fail; it is left out. *)
Definition wrangle : M unit :=
  project_and_rename;;
  coalition_collapse;;
  sentinel_translation;;
  missing_indicators;;
  missing_rates;;
  mar_test;;
  completeness_filter.

(** The outcome of a run: the final store, or the exception. *)
Definition exec (m : M unit) (s : store) : result store :=
  match m s with
  | Ok (_, s') => Ok s'
  | Raise e => Raise e
  end.


(** ** What the stages compute, row by row *)

(** The row holds a missing code of the rule in the rule's column. *)
Definition sentinel_in (cols : list string) (r : Row) (rule : string * list Z) : bool :=
  match cell_at cols r rule.1 with
  | Some v => cell_in v rule.2
  | None => false
  end.

(** The row holds no missing code of any rule. *)
Definition complete (cols : list string) (rules : list (string * list Z)) (r : Row) : bool :=
  forallb (λ rule, negb (sentinel_in cols r rule)) rules.

(** The lines the exclusion loop prints. *)
Fixpoint filter_report (cols : list string) (rules : list (string * list Z))
    (rs : list Row) : list (string * nat) :=
  match rules with
  | [] => []
  | rule :: rules' =>
      let rs' := filter (λ r, sentinel_in cols r rule = false) rs in
      (rule.1, length rs') :: filter_report cols rules' rs'
  end.

(** The cell [df[c].apply(assign_target)] holds for a party cell. *)
Definition coalition_cell (party : cell) : cell :=
  match assign_target party with Some z => Num z | None => NaN end.

(** A row after the coalition stage: party at position [i], coalition written
    at position [j]. *)
Definition with_coalition (i j : nat) (r : Row) : Row :=
  pd.set_cell j (coalition_cell (nth_cell i r)) r.

(** A row after the replacement loop of the translation. *)
Definition translate_row (cols : list string) (rules : list (string * list Z))
    (r : Row) : Row :=
  foldl (λ r rule,
           match index_of rule.1 cols with
           | Some i =>
               pd.set_cell i (if cell_in (nth_cell i r) rule.2 then NaN else nth_cell i r) r
           | None => r
           end) r rules.

(** The new names, in the order of [columns_to_keep]. *)
Definition renamed_columns : list string :=
  ["Age"; "Gender"; "EducationLevel"; "HouseholdIncome"; "Region";
   "EmploymentStatus"; "TradeUnionMember"; "PoliticalInterest";
   "LeftRightScale"; "SatisfactionDemocracy"; "TrustEP"; "Religion";
   "AttitudesTowardImmigration"; "MediaConsumption"; "AttitudeTowardLGBT";
   "ZeroPayGapOpinion"; "VotedParty"].

(** Rectangular rows of a given width. *)
Definition width (n : nat) (rs : list Row) : Prop :=
  Forall (λ r, length (cells r) = n) rs.

(** The store after [x = e] for a new frame [d]. *)
Definition rebind (x : string) (d : DataFrame) (s : store) : store :=
  mkStore (heap s ++ [d]) (<[x := length (heap s)]> (env s)) (stdout s).

(** A store reached from [s] by binding new objects to the names [xs]: the
    objects of [s] are where they were and as they were. *)
Definition extends (xs : list string) (s s' : store) : Prop :=
  heap s `prefix_of` heap s' ∧ ∀ y, y ∉ xs → env s' !! y = env s !! y.

(** Where the coalition stage writes its column: over an existing
    [VotedCoalition], or as a new last column. *)
Definition coalition_position (cols : list string) : nat :=
  default (length cols) (index_of "VotedCoalition" cols).

Definition coalition_columns (cols : list string) : list string :=
  match index_of "VotedCoalition" cols with
  | Some _ => cols
  | None => cols ++ ["VotedCoalition"]
  end.

(** The party at position [i] of the row is one the script classifies. *)
Definition classifiable (i : nat) (r : Row) : Prop :=
  cell_in (nth_cell i r) (elements party_codes) = true.

Global Instance classifiable_dec i r : Decision (classifiable i r).
Proof. unfold classifiable. apply _. Defined.

(** The frame the coalition stage leaves in [df_selected]. *)
Definition collapsed (i : nat) (d : DataFrame) : DataFrame :=
  mkFrame (coalition_columns (columns d))
    (with_coalition i (coalition_position (columns d))
       <$> filter (classifiable i) (rows d)).

(** The frame lines 69 and 97 leave in [df_selected]. *)
Definition selected (raw : DataFrame) : DataFrame :=
  mkFrame renamed_columns (rows (pd.take columns_to_keep raw)).

(** The frame the coalition stage leaves in [df_selected], from the raw
    table: the party is the last of the selected columns. *)
Definition post_collapse (raw : DataFrame) : DataFrame := collapsed 16 (selected raw).

(** The rows without a missing code of any rule. *)
Definition filtered (rules : list (string * list Z)) (d : DataFrame) : DataFrame :=
  mkFrame (columns d) (filter (λ r, complete (columns d) rules r = true) (rows d)).

(** The frame with the missing codes of the rules turned to NaN. *)
Definition translated (rules : list (string * list Z)) (d : DataFrame) : DataFrame :=
  mkFrame (columns d) (translate_row (columns d) rules <$> rows d).

(** The columns of [df_selected] from the coalition stage on. *)
Definition final_columns : list string := renamed_columns ++ ["VotedCoalition"].

(** The store after [y = x] when [x] holds the reference [l]. *)
Definition alias (y : string) (l : nat) (s : store) : store :=
  mkStore (heap s) (<[y := l]> (env s)) (stdout s).

(** The table a variable names after a run, if the run ends normally. *)
Definition table_after (m : M unit) (s : store) (x : string) : option DataFrame :=
  match exec m s with
  | Ok s' => frame_of s' x
  | Raise _ => None
  end.

(** The row carries one of the four coalitions of [label_names]. *)
Definition resolved (cols : list string) (r : Row) : Prop :=
  ∃ k name,
    cell_at cols r "VotedCoalition" = Some (Num k) ∧
    coalition_names !! k = Some name ∧
    name ∈ ["CSX"; "M5S"; "TerzoPolo"; "CDX"].

(** The voted-party code of a row of the raw table, as read by pandas. *)
Definition party_of (raw : DataFrame) (r : Row) : cell :=
  default NaN (cell_at (columns raw) r "prtvteit").

(** Number of rows of the raw table whose voted-party code is in [codes]. *)
Definition count_party (codes : list Z) (raw : DataFrame) : nat :=
  length (filter (λ r, cell_in (party_of raw r) codes = true) (rows raw)).

(** ** Example tables *)

(** A respondent: country, then the seventeen variables with the given
    household income and voted party. *)
Definition respondent (l : nat) (income party : cell) : Row :=
  mkRow l [Str "IT"; Num 40; Num 1; Num 3; income; Str "ITC4"; Num 1;
           Num 3; Num 2; Num 5; Num 6; Num 4; Num 5; Num 7; Num 60; Num 1;
           Num 5; party].

Definition raw_columns : list string := "cntry" :: columns_to_keep.

Definition raw_example : DataFrame :=
  mkFrame raw_columns
    [respondent 0 (Num 5) (Num 3);
     respondent 1 (Num 5) (Num 66);
     respondent 2 (Num 77) (Num 1);
     respondent 3 (Num 5) (Num 10);
     respondent 4 (Num 5) NaN;
     respondent 5 (Num 8) (Num 6);
     respondent 6 (Num 2) (Num 9)].

(** Respondents [l], [l+1], ..., [l+n-1], all with the same party. *)
Definition respondents (l n : nat) (party : cell) : list Row :=
  (λ k, respondent k (Num 5) party) <$> seq l n.

(** One respondent, who voted for the party with code 10. *)
Definition party10_table : DataFrame :=
  mkFrame raw_columns [respondent 0 (Num 5) (Num 10)].

(** Respondents without a classifiable party. *)
Definition no_voter_table : DataFrame :=
  mkFrame raw_columns
    [respondent 0 (Num 5) (Num 66); respondent 1 (Num 5) (Num 77);
     respondent 2 (Num 5) NaN].

(** One respondent with a classifiable party and a missing income. *)
Definition all_excluded_table : DataFrame :=
  mkFrame raw_columns [respondent 0 (Num 77) (Num 3)].

(** Two rules, in the two orders. *)
Definition two_rules : list (string * list Z) :=
  [("HouseholdIncome", [77; 88; 99]); ("Gender", [9])].

Definition two_rules_swapped : list (string * list Z) :=
  [("Gender", [9]); ("HouseholdIncome", [77; 88; 99])].

(** A small table with a missing income and a missing gender, and a store
    in which [df_selected] is that table. *)
Definition small_table : DataFrame :=
  mkFrame ["Gender"; "HouseholdIncome"]
    [mkRow 0 [Num 1; Num 77]; mkRow 1 [Num 9; Num 4]; mkRow 2 [Num 2; Num 6]].

Definition small_store : store :=
  mkStore [small_table] {["df_selected" := 0%nat]} [].

(** A thousand respondents: fifty with a missing code, ten with party 9, and
    940 others, one of whom voted for the party with code 14. *)
Definition scenario_with_other_party : DataFrame :=
  mkFrame raw_columns
    (respondents 0 50 (Num 66) ++ respondents 50 10 (Num 9) ++
     respondents 60 939 (Num 3) ++ respondents 999 1 (Num 14)).

(** A thousand respondents: fifty with a missing code, ten with party 9, and
    940 with a party from 1 to 8. *)
Definition scenario_table : DataFrame :=
  mkFrame raw_columns
    (respondents 0 20 (Num 66) ++ respondents 20 30 (Num 99) ++
     respondents 50 10 (Num 9) ++ respondents 60 500 (Num 2) ++
     respondents 560 440 (Num 5)).

(** The clean table the script makes of [raw_example]. *)
Definition clean_example : DataFrame :=
  mkFrame final_columns
    [mkRow 0 [Num 40; Num 1; Num 3; Num 5; Str "ITC4"; Num 1; Num 3; Num 2;
              Num 5; Num 6; Num 4; Num 5; Num 7; Num 60; Num 1; Num 5;
              Num 3; Num 2];
     mkRow 5 [Num 40; Num 1; Num 3; Num 8; Str "ITC4"; Num 1; Num 3; Num 2;
              Num 5; Num 6; Num 4; Num 5; Num 7; Num 60; Num 1; Num 5;
              Num 6; Num 3]].

(** ** Further definitions for the properties of the whole script *)

(** The row [df[columns_to_keep]] makes of a raw row. *)
Definition selected_row (raw : DataFrame) (r : Row) : Row :=
  mkRow (label r)
    ((λ c, default NaN (cell_at (columns raw) r c)) <$> columns_to_keep).

(** The coalition code of a classifiable party code. *)
Definition coalition_of (z : Z) : Z :=
  if decide (z = 2 ∨ z = 7 ∨ z = 8) then 1
  else if decide (z = 1 ∨ z = 4 ∨ z = 5) then 4
  else if decide (z = 3) then 2
  else 3.

(** The counts of a printed report do not increase. *)
Fixpoint non_increasing (ns : list nat) : Prop :=
  match ns with
  | n :: (m :: _) as ns' => (m ≤ n)%nat ∧ non_increasing ns'
  | _ => True
  end.

(** Two raw rows with the same label and the same cells in the selected
    columns, whatever the other columns and the order of the columns. *)
Definition same_selected (raw raw' : DataFrame) (r r' : Row) : Prop :=
  label r = label r' ∧
  Forall (λ c, cell_at (columns raw) r c = cell_at (columns raw') r' c)
    columns_to_keep.

Global Instance same_selected_dec raw raw' r r' :
  Decision (same_selected raw raw' r r').
Proof. unfold same_selected. apply _. Defined.

(** The example without the country column and with the party first. *)
Definition raw_example_reordered : DataFrame :=
  mkFrame ("prtvteit" :: take 16 columns_to_keep)
    ((λ r, mkRow (label r) (nth_cell 17 r :: take 16 (tail (cells r))))
       <$> rows raw_example).

(** ** The table of the models (lines 290-298, 593-594, 705-709) *)

(** [df.drop(columns=[c])] and [df.drop(c, axis=1)]: a new frame without the
    column, KeyError when there is no such column.  Column labels are unique
    in the frames of the script. *)
Definition pd_drop (c : string) (d : DataFrame) : result DataFrame :=
  match index_of c (columns d) with
  | None => Raise (KeyError [c])
  | Some i =>
      Ok (mkFrame (delete i (columns d))
            ((λ r, mkRow (label r) (delete i (cells r))) <$> rows d))
  end.

(** Line 298, the body of the loop.  The encoder of scikit-learn is a
    parameter: [fit_transform] is what [label_encoder.fit_transform] returns
    for a column. *)
Definition encode_column (fit_transform : Series → Series) (col : string) : M unit :=
  d ← read "df_final";
  s ← lift (pd.getitem col d);
  setitem "df_final" col (fit_transform s).

(** Lines 290-298.  The dtypes of pandas are not part of the tables here, so
    the selection of the columns of dtype object or category is a parameter:
    [select_object d] is [d.select_dtypes(include=['object',
    'category']).columns]. *)
Definition prepare_final (select_object : DataFrame → list string)
    (fit_transform : Series → Series) : M unit :=
  d ← read "df_filtered";
  bind_new "df_final" (pd.copy d);;
  d ← read "df_final";
  d' ← lift (pd_drop "VotedParty" d);
  bind_new "df_final" d';;
  d ← read "df_final";
  for_each (select_object d) (encode_column fit_transform).

(** The frame one pass of the loop of line 298 leaves in [df_final]. *)
Definition encode (fit_transform : Series → Series) (d : DataFrame) (col : string) : DataFrame :=
  match pd.getitem col d with
  | Ok s => pd.set_column col (fit_transform s) d
  | Raise _ => d
  end.

(** Lines 260-267: the summary statistics, floating point numbers in a table
    no later line reads.  Of these lines the model keeps what can stop the
    script: [describe] refuses a frame without columns, its result has the
    rows [unique], [top] and [freq] only when some column is not numeric, and
    [drop] raises a KeyError for the labels it does not find.  The columns
    that are not numeric are those [select_object] gives, as in
    [prepare_final]: the frames of the script hold numbers and texts only.
    [to_markdown] needs the package tabulate, which is taken to be
    installed. *)
Definition summary_statistics (select_object : DataFrame → list string) : M unit :=
  d ← read "df_filtered";
  match columns d, select_object d with
  | [], _ => lift (Raise ValueError)
  | _, [] => lift (Raise (KeyError ["unique"; "top"; "freq"]))
  | _, _ => mret ()
  end.

(** Lines 64-298: the wrangling, the summary statistics and the table of the
    models, in the order of the script. *)
Definition notebook (select_object : DataFrame → list string)
    (fit_transform : Series → Series) : M unit :=
  wrangle;;
  summary_statistics select_object;;
  prepare_final select_object fit_transform.

(** Lines 593-594 and 708-709: [X = d.drop('VotedCoalition', axis=1)] and
    [y = d['VotedCoalition']]. *)
Definition features_target (d : DataFrame) : result (DataFrame * Series) :=
  match pd_drop "VotedCoalition" d with
  | Ok X =>
      match pd.getitem "VotedCoalition" d with
      | Ok y => Ok (X, y)
      | Raise e => Raise e
      end
  | Raise e => Raise e
  end.

(** Line 705: [df_final2 = df_final.drop('LeftRightScale', axis=1)]. *)
Definition without_left_right (d : DataFrame) : result DataFrame :=
  pd_drop "LeftRightScale" d.

(** The names of the features. *)
Definition feature_columns : list string :=
  ["Age"; "Gender"; "EducationLevel"; "HouseholdIncome"; "Region";
   "EmploymentStatus"; "TradeUnionMember"; "PoliticalInterest";
   "LeftRightScale"; "SatisfactionDemocracy"; "TrustEP"; "Religion";
   "AttitudesTowardImmigration"; "MediaConsumption"; "AttitudeTowardLGBT";
   "ZeroPayGapOpinion"].

(** A selection and an encoder to run the model on: the columns that hold a
    text, and the position of a text among the texts of the column. *)
Definition is_text (v : cell) : bool :=
  match v with Str _ => true | _ => false end.

Definition select_text (d : DataFrame) : list string :=
  filter (λ c, match pd.getitem c d with
               | Ok s => existsb is_text s
               | Raise _ => false
               end = true) (columns d).

Definition rank_texts (s : Series) : Series :=
  (λ v, match v with
        | Str t =>
            Num (Z.of_nat
                   (length (filter (λ u, bool_decide (strict String.le u t))
                              (remove_dups (omap (λ w, match w with
                                                       | Str u => Some u
                                                       | _ => None
                                                       end) s)))))
        | _ => v
        end) <$> s.

(** ** The grid of the plots (lines 412-449) *)

(** [-(-num_vars // cols)] *)
Definition grid_rows (num_vars cols : Z) : Z := - ((- num_vars) `div` cols).

(** The first components of [enumerate(l, start)]. *)
Definition enumerate_indices {A} (start : Z) (l : list A) : list Z :=
  seqZ start (Z.of_nat (length l)).

(** [plt.subplots(rows, cols)] and [axes.flatten()] (lines 417-418): the axes
    of the grid, row by row, named here by their position.  matplotlib
    refuses a grid without a row or a column; for a grid of one cell it
    returns the Axes itself, which has no [flatten]. *)
Definition subplots_flatten (rows cols : Z) : result (list Z) :=
  if decide (rows ≤ 0 ∨ cols ≤ 0) then Raise ValueError
  else if decide (rows * cols = 1) then Raise AttributeError
  else Ok (range 0 (rows * cols)).

(** [axes[i]]: a negative position counts from the end. *)
Definition axis_at (axes : list Z) (i : Z) : result Z :=
  let n := Z.of_nat (length axes) in
  let k := if decide (i < 0) then n + i else i in
  if decide (0 ≤ k < n) then
    match axes !! Z.to_nat k with Some ax => Ok ax | None => Raise IndexError end
  else Raise IndexError.

(** The axes a loop takes, in order, up to the first position that is not in
    the array. *)
Fixpoint take_axes (axes : list Z) (positions : list Z) : result (list Z) :=
  match positions with
  | [] => Ok []
  | i :: positions' =>
      match axis_at axes i with
      | Ok ax =>
          match take_axes axes positions' with
          | Ok l => Ok (ax :: l)
          | Raise e => Raise e
          end
      | Raise e => Raise e
      end
  end.

(** The axes the three loops of lines 421, 435 and 448 take out of [axes], in
    the order they take them. *)
Definition visited_axes (barplot_vars histplot_vars : list string) (cols : Z)
    : result (list Z) :=
  let num_vars := Z.of_nat (length barplot_vars) + Z.of_nat (length histplot_vars) in
  let rows := grid_rows num_vars cols in
  match subplots_flatten rows cols with
  | Ok axes =>
      take_axes axes
        (enumerate_indices 0 barplot_vars
           ++ enumerate_indices (Z.of_nat (length barplot_vars)) histplot_vars
           ++ range num_vars (Z.of_nat (length axes)))
  | Raise e => Raise e
  end.

Definition barplot_vars : list string :=
  ["LeftRightScale"; "SatisfactionDemocracy"; "TrustEP";
   "AttitudesTowardImmigration"; "EducationLevel"; "HouseholdIncome";
   "Region"; "EmploymentStatus"; "TradeUnionMember"; "PoliticalInterest";
   "ZeroPayGapOpinion"; "AttitudeTowardLGBT"; "Religion"].

Definition histplot_vars : list string := ["MediaConsumption"; "Age"].

(** * Properties of the pandas operations *)

Section lists.
Context {A : Type}.

Lemma select_fmap (f : A → bool) (l : list A) :
  pd.select (f <$> l) l = filter (λ x, f x = true) l.
Proof.
  induction l as [|x l IH]; [done|].
  cbn [fmap list_fmap pd.select]. rewrite filter_cons.
  destruct (f x) eqn:E; rewrite IH.
  - by rewrite decide_True.
  - by rewrite decide_False.
Qed.

Lemma select_invert_fmap (f : A → bool) (l : list A) :
  pd.select (pd.invert (f <$> l)) l = filter (λ x, f x = false) l.
Proof.
  unfold pd.invert. rewrite <- list_fmap_compose, select_fmap.
  apply list_filter_iff. intros x. cbn. by destruct (f x).
Qed.

Lemma filter_true (P : A → Prop) `{∀ x, Decision (P x)} (l : list A) :
  Forall P l → filter P l = l.
Proof.
  induction 1 as [|x l Hx _ IH]; [done|].
  by rewrite filter_cons, decide_True, IH.
Qed.

Lemma zip_with_fmap_diag {B C} (f : B → A → C) (g : A → B) (l : list A) :
  zip_with f (g <$> l) l = (λ x, f (g x) x) <$> l.
Proof. induction l; [done|]. cbn. by f_equal. Qed.

End lists.

Lemma index_of_Some c cols i :
  index_of c cols = Some i → cols !! i = Some c.
Proof.
  revert i. induction cols as [|c' cols IH]; intros i; [done|].
  cbn. case_decide; [naive_solver|].
  destruct (index_of c cols); [|done]. cbn. intros [= <-]. by apply IH.
Qed.

Lemma index_of_lt c cols i :
  index_of c cols = Some i → (i < length cols)%nat.
Proof. intros H%index_of_Some. by eapply lookup_lt_Some. Qed.

Lemma index_of_None c cols : index_of c cols = None ↔ c ∉ cols.
Proof.
  induction cols as [|c' cols IH]; cbn.
  - split; [intros _; apply not_elem_of_nil|done].
  - rewrite not_elem_of_cons. case_decide as Hc.
    + split; [done|]. intros [Hne _]. by subst.
    + destruct (index_of c cols); cbn.
      * split; [done|]. intros [_ Hn]. by apply IH in Hn.
      * split; [|done]. intros _. split; [congruence|]. by apply IH.
Qed.

Lemma index_of_is_Some c cols : is_Some (index_of c cols) ↔ c ∈ cols.
Proof.
  rewrite <- not_eq_None_Some, index_of_None.
  split; [apply dec_stable|tauto].
Qed.

Lemma index_of_app_new c cols :
  c ∉ cols → index_of c (cols ++ [c]) = Some (length cols).
Proof.
  induction cols as [|c' cols IH]; cbn; intros Hn.
  - by rewrite decide_True.
  - rewrite decide_False by set_solver. rewrite IH by set_solver. done.
Qed.

Lemma index_of_inj c1 c2 cols i :
  index_of c1 cols = Some i → index_of c2 cols = Some i → c1 = c2.
Proof. intros H1%index_of_Some H2%index_of_Some. congruence. Qed.

Lemma cell_at_index cols r c i :
  index_of c cols = Some i → cell_at cols r c = cells r !! i.
Proof. unfold cell_at. by intros ->. Qed.

Lemma cell_at_nth_cell cols r c i :
  index_of c cols = Some i → (i < length (cells r))%nat →
  cell_at cols r c = Some (nth_cell i r).
Proof.
  intros Hi Hlt. rewrite (cell_at_index _ _ _ _ Hi). unfold nth_cell.
  destruct (lookup_lt_is_Some_2 (cells r) i Hlt) as [v ->]. done.
Qed.

Lemma sentinel_in_index cols r c values i :
  index_of c cols = Some i →
  sentinel_in cols r (c, values) = cell_in (nth_cell i r) values.
Proof.
  intros Hi. unfold sentinel_in, nth_cell. cbn.
  rewrite (cell_at_index _ _ _ _ Hi). by destruct (cells r !! i).
Qed.

Lemma cells_set_cell_eq i v r :
  (i ≤ length (cells r))%nat → cells (pd.set_cell i v r) !! i = Some v.
Proof.
  intros Hle. unfold pd.set_cell. cbn. case_decide.
  - by apply list_lookup_insert_eq.
  - assert (i = length (cells r)) as -> by lia. apply list_lookup_middle. done.
Qed.

Lemma cells_set_cell_ne i k v r :
  (i ≤ length (cells r))%nat → i ≠ k →
  cells (pd.set_cell i v r) !! k = cells r !! k.
Proof.
  intros Hle Hne. unfold pd.set_cell. cbn. case_decide.
  - by apply list_lookup_insert_ne.
  - assert (i = length (cells r)) as -> by lia.
    destruct (decide (k < length (cells r))%nat).
    + by apply lookup_app_l.
    + rewrite !lookup_ge_None_2; [done|lia|rewrite length_app; cbn; lia].
Qed.

Lemma nth_cell_set_cell_eq i v r :
  (i ≤ length (cells r))%nat → nth_cell i (pd.set_cell i v r) = v.
Proof. intros H. unfold nth_cell. by rewrite cells_set_cell_eq. Qed.

Lemma nth_cell_set_cell_ne i k v r :
  (i ≤ length (cells r))%nat → i ≠ k →
  nth_cell k (pd.set_cell i v r) = nth_cell k r.
Proof. intros H Hne. unfold nth_cell. by rewrite cells_set_cell_ne. Qed.

Lemma length_set_cell_lt i v r :
  (i < length (cells r))%nat →
  length (cells (pd.set_cell i v r)) = length (cells r).
Proof.
  intros H. unfold pd.set_cell. cbn. rewrite decide_True by done.
  apply length_insert.
Qed.

Lemma length_set_cell_end v r :
  length (cells (pd.set_cell (length (cells r)) v r)) = S (length (cells r)).
Proof.
  unfold pd.set_cell. cbn. rewrite decide_False by lia.
  rewrite length_app. cbn. lia.
Qed.


Lemma getitem_Some c d i :
  index_of c (columns d) = Some i → pd.getitem c d = Ok (nth_cell i <$> rows d).
Proof. unfold pd.getitem. by intros ->. Qed.

Lemma getitem_None c d :
  c ∉ columns d → pd.getitem c d = Raise (KeyError [c]).
Proof. intros H%index_of_None. unfold pd.getitem. by rewrite H. Qed.

Lemma missing_nil cs (cols : list string) :
  filter (λ c, c ∉ cols) cs = [] ↔ cs ⊆ cols.
Proof.
  induction cs as [|c cs IH].
  - split; [intros _ c Hc; by apply elem_of_nil in Hc|done].
  - rewrite filter_cons. case_decide as Hc.
    + split; [done|]. intros Hsub. destruct Hc. apply Hsub. left.
    + rewrite IH. split.
      * intros Hsub c' [->|Hc']%elem_of_cons; [done|by apply Hsub].
      * intros Hsub c' Hc'. apply Hsub. by right.
Qed.

Lemma getitem_list_ok cs d :
  cs ⊆ columns d → pd.getitem_list cs d = Ok (pd.take cs d).
Proof. intros Hsub%missing_nil. unfold pd.getitem_list. by rewrite Hsub. Qed.

Lemma getitem_list_fail cs d :
  ¬ cs ⊆ columns d →
  pd.getitem_list cs d = Raise (KeyError (filter (λ c, c ∉ columns d) cs)).
Proof.
  intros Hsub. unfold pd.getitem_list.
  destruct (filter (λ c, c ∉ columns d) cs) eqn:E; [|done].
  by apply missing_nil in E.
Qed.

(** * Running the script *)

Lemma bind_ok {A B} (m : M A) (k : A → M B) s a s' :
  m s = Ok (a, s') → (m ≫= k) s = k a s'.
Proof. unfold mbind, M_bind. by intros ->. Qed.

Lemma bind_raise {A B} (m : M A) (k : A → M B) s e :
  m s = Raise e → (m ≫= k) s = Raise e.
Proof. unfold mbind, M_bind. by intros ->. Qed.

Lemma read_ok x d s : frame_of s x = Some d → read x s = Ok (d, s).
Proof.
  unfold frame_of, read, var, deref, mbind, M_bind.
  destruct (env s !! x) as [l|]; [|done]. cbn. by intros ->.
Qed.

Lemma read_raise x s : frame_of s x = None → ∃ e, read x s = Raise e.
Proof.
  unfold frame_of, read, var, deref, mbind, M_bind.
  destruct (env s !! x) as [l|]; [|by eexists]. cbn. intros ->. by eexists.
Qed.

Lemma bind_new_ok x d s : bind_new x d s = Ok ((), rebind x d s).
Proof. done. Qed.

Lemma frame_of_rebind_eq x d s : frame_of (rebind x d s) x = Some d.
Proof.
  unfold frame_of, rebind. cbn. rewrite lookup_insert_eq. cbn.
  by apply list_lookup_middle.
Qed.

Lemma env_rebind_eq x d s : env (rebind x d s) !! x = Some (length (heap s)).
Proof. unfold rebind. cbn. by rewrite lookup_insert_eq. Qed.

Lemma extends_refl xs s : extends xs s s.
Proof. by split. Qed.

Lemma extends_trans xs s1 s2 s3 :
  extends xs s1 s2 → extends xs s2 s3 → extends xs s1 s3.
Proof.
  intros [Hp1 He1] [Hp2 He2]. split; [by etrans|].
  intros y Hy. by rewrite He2, He1.
Qed.

Lemma extends_weaken xs ys s s' : xs ⊆ ys → extends xs s s' → extends ys s s'.
Proof. intros Hsub [Hp He]. split; [done|]. intros y Hy. apply He. set_solver. Qed.

Lemma extends_rebind x d s xs : x ∈ xs → extends xs s (rebind x d s).
Proof.
  intros Hx. split; [by apply prefix_app_r|].
  intros y Hy. unfold rebind. cbn. apply lookup_insert_ne. set_solver.
Qed.

Lemma extends_heap xs s s' l d :
  extends xs s s' → heap s !! l = Some d → heap s' !! l = Some d.
Proof. intros [Hp _] Hl. by eapply prefix_lookup_Some. Qed.

Lemma extends_frame xs s s' y d :
  extends xs s s' → y ∉ xs → frame_of s y = Some d → frame_of s' y = Some d.
Proof.
  intros Hext Hy. unfold frame_of. rewrite (proj2 Hext y Hy).
  destruct (env s !! y) as [l|]; [|done]. cbn. by apply extends_heap with xs.
Qed.

(** ** The exclusion loop *)

Lemma exclude_ok s d c values i :
  frame_of s "df_selected" = Some d →
  index_of c (columns d) = Some i →
  ∃ s',
    exclude (c, values) s = Ok ((), s') ∧
    extends ["df_selected"] s s' ∧
    frame_of s' "df_selected" =
      Some (mkFrame (columns d)
              (filter (λ r, sentinel_in (columns d) r (c, values) = false) (rows d))) ∧
    stdout s' =
      stdout s ++
        [(c, length (filter (λ r, sentinel_in (columns d) r (c, values) = false) (rows d)))].
Proof.
  intros Hd Hi.
  set (d' := mkFrame (columns d)
               (filter (λ r, sentinel_in (columns d) r (c, values) = false) (rows d))).
  assert (pd.getitem_mask (pd.invert (pd.isin values (nth_cell i <$> rows d))) d = d')
    as Hmask.
  { unfold pd.getitem_mask, pd.isin, d'. f_equal.
    rewrite <- list_fmap_compose, select_invert_fmap.
    apply list_filter_iff. intros r. cbn.
    by rewrite (sentinel_in_index _ _ _ _ _ Hi). }
  exists (mkStore (heap (rebind "df_selected" d' s)) (env (rebind "df_selected" d' s))
            (stdout s ++ [(c, length (rows d'))])).
  split; [|split; [|split]].
  - unfold exclude.
    rewrite (bind_ok _ _ _ _ _ (read_ok _ _ _ Hd)).
    rewrite (getitem_Some _ _ _ Hi). cbn [lift].
    unfold mbind at 1, M_bind at 1. cbn [lift].
    rewrite Hmask.
    rewrite (bind_ok _ _ _ _ _ (bind_new_ok _ _ _)).
    rewrite (bind_ok _ _ _ _ _ (read_ok _ _ _ (frame_of_rebind_eq _ _ _))).
    done.
  - split; [by apply prefix_app_r|]. intros y Hy. cbn.
    apply lookup_insert_ne. set_solver.
  - apply (frame_of_rebind_eq "df_selected" d' s).
  - done.
Qed.

Lemma exclude_raise_column s d c values :
  frame_of s "df_selected" = Some d → c ∉ columns d →
  exclude (c, values) s = Raise (KeyError [c]).
Proof.
  intros Hd Hc. unfold exclude.
  rewrite (bind_ok _ _ _ _ _ (read_ok _ _ _ Hd)).
  by rewrite (getitem_None _ _ Hc).
Qed.

Lemma exclude_raise_unbound s rule :
  frame_of s "df_selected" = None → ∃ e, exclude rule s = Raise e.
Proof.
  intros [e He]%read_raise. exists e. destruct rule as [c values].
  unfold exclude. by rewrite (bind_raise _ _ _ _ He).
Qed.

Lemma filter_complete_cons cols rule rules (rs : list Row) :
  filter (λ r, complete cols rules r = true)
    (filter (λ r, sentinel_in cols r rule = false) rs) =
  filter (λ r, complete cols (rule :: rules) r = true) rs.
Proof.
  rewrite list_filter_filter. apply list_filter_iff. intros r. cbn.
  rewrite andb_true_iff, negb_true_iff. tauto.
Qed.

Lemma for_each_exclude_ok rules : ∀ s d,
  frame_of s "df_selected" = Some d →
  Forall (λ rule, rule.1 ∈ columns d) rules →
  ∃ s',
    for_each rules exclude s = Ok ((), s') ∧
    extends ["df_selected"] s s' ∧
    frame_of s' "df_selected" =
      Some (mkFrame (columns d)
              (filter (λ r, complete (columns d) rules r = true) (rows d))) ∧
    stdout s' = stdout s ++ filter_report (columns d) rules (rows d).
Proof.
  induction rules as [|[c values] rules IH]; intros s d Hd Hcols.
  - exists s. split; [done|]. split; [apply extends_refl|]. split.
    + rewrite Hd. f_equal. destruct d as [cols rs]. cbn. f_equal.
      symmetry. by apply filter_true, Forall_true.
    + cbn. by rewrite app_nil_r.
  - apply Forall_cons in Hcols as [Hc Hcols]. cbn in Hc.
    apply index_of_is_Some in Hc as [i Hi].
    destruct (exclude_ok s d c values i Hd Hi) as (s1 & Hrun & Hext & Hd1 & Hout).
    destruct (IH s1 _ Hd1 Hcols) as (s' & Hrun' & Hext' & Hd' & Hout').
    exists s'. split; [|split; [|split]].
    + cbn [for_each]. by rewrite (bind_ok _ _ _ _ _ Hrun).
    + by eapply extends_trans.
    + rewrite Hd'. cbn [columns rows]. by rewrite filter_complete_cons.
    + rewrite Hout', Hout. cbn [columns rows filter_report fst].
      by rewrite <- app_assoc.
Qed.

Lemma for_each_exclude_raise rules : ∀ s d,
  frame_of s "df_selected" = Some d →
  ¬ Forall (λ rule, rule.1 ∈ columns d) rules →
  ∃ e, for_each rules exclude s = Raise e.
Proof.
  induction rules as [|[c values] rules IH]; intros s d Hd Hcols.
  - by destruct Hcols.
  - destruct (decide (c ∈ columns d)) as [Hc|Hc].
    + apply index_of_is_Some in Hc as Hi. destruct Hi as [i Hi].
      destruct (exclude_ok s d c values i Hd Hi) as (s1 & Hrun & _ & Hd1 & _).
      destruct (IH s1 _ Hd1) as [e He].
      { cbn. intros Hall. apply Hcols. by constructor. }
      exists e. cbn [for_each]. by rewrite (bind_ok _ _ _ _ _ Hrun).
    + eexists. cbn [for_each].
      by rewrite (bind_raise _ _ _ _ (exclude_raise_column _ _ _ _ Hd Hc)).
Qed.

Lemma for_each_exclude_unbound rules s :
  frame_of s "df_selected" = None → rules ≠ [] →
  ∃ e, for_each rules exclude s = Raise e.
Proof.
  intros Hd Hne. destruct rules as [|rule rules]; [done|].
  destruct (exclude_raise_unbound s rule Hd) as [e He].
  exists e. cbn [for_each]. by rewrite (bind_raise _ _ _ _ He).
Qed.

Lemma complete_Permutation cols rules rules' r :
  rules ≡ₚ rules' → complete cols rules r = complete cols rules' r.
Proof.
  unfold complete. induction 1 as [|rule l l' _ IH|x y l|l1 l2 l3 _ IH1 _ IH2]; cbn.
  - done.
  - by rewrite IH.
  - by rewrite !andb_assoc, (andb_comm (negb (sentinel_in cols r y))).
  - by rewrite IH1.
Qed.

Lemma frame_of_Some s x d :
  frame_of s x = Some d ↔ ∃ l, env s !! x = Some l ∧ heap s !! l = Some d.
Proof.
  unfold frame_of. destruct (env s !! x) as [l|]; cbn.
  - split; [by exists l|]. by intros (? & [= <-] & ?).
  - split; [done|]. by intros (? & ? & ?).
Qed.

Lemma frame_of_alias_eq y l s : frame_of (alias y l s) y = heap s !! l.
Proof. unfold frame_of, alias. cbn. by rewrite lookup_insert_eq. Qed.

Lemma frame_of_alias_ne x y l s :
  x ≠ y → frame_of (alias y l s) x = frame_of s x.
Proof. intros Hne. unfold frame_of, alias. cbn. by rewrite lookup_insert_ne. Qed.

Lemma extends_alias y l s xs : y ∈ xs → extends xs s (alias y l s).
Proof.
  intros Hy. split; [done|]. intros x Hx. cbn.
  apply lookup_insert_ne. set_solver.
Qed.

Lemma completeness_filter_with_ok rules s d :
  frame_of s "df_selected" = Some d →
  Forall (λ rule, rule.1 ∈ columns d) rules →
  ∃ s',
    completeness_filter_with rules s = Ok ((), s') ∧
    extends ["df_selected"; "df_filtered"] s s' ∧
    frame_of s' "df_filtered" =
      Some (mkFrame (columns d)
              (filter (λ r, complete (columns d) rules r = true) (rows d))) ∧
    frame_of s' "df_selected" = frame_of s' "df_filtered" ∧
    stdout s' = stdout s ++ filter_report (columns d) rules (rows d).
Proof.
  intros Hd Hcols.
  destruct (for_each_exclude_ok rules s d Hd Hcols) as (s1 & Hrun & Hext & Hd1 & Hout).
  apply frame_of_Some in Hd1 as Hl. destruct Hl as (l & Hl & Hheap).
  exists (alias "df_filtered" l s1). split; [|split; [|split; [|split]]].
  - unfold completeness_filter_with.
    rewrite (bind_ok _ _ _ _ _ Hrun).
    unfold mbind, M_bind, var. by rewrite Hl.
  - eapply extends_trans.
    + eapply extends_weaken; [|exact Hext].
      apply list_subseteq_skip, list_subseteq_nil.
    + apply extends_alias. set_solver.
  - by rewrite frame_of_alias_eq.
  - rewrite frame_of_alias_eq, frame_of_alias_ne by done. by rewrite Hd1.
  - done.
Qed.

Lemma completeness_filter_with_raise rules s d :
  frame_of s "df_selected" = Some d →
  ¬ Forall (λ rule, rule.1 ∈ columns d) rules →
  ∃ e, completeness_filter_with rules s = Raise e.
Proof.
  intros Hd Hcols.
  destruct (for_each_exclude_raise rules s d Hd Hcols) as [e He].
  exists e. unfold completeness_filter_with. by rewrite (bind_raise _ _ _ _ He).
Qed.

Lemma completeness_filter_with_unbound rules s :
  frame_of s "df_selected" = None → rules ≠ [] →
  ∃ e, completeness_filter_with rules s = Raise e.
Proof.
  intros Hd Hne.
  destruct (for_each_exclude_unbound rules s Hd Hne) as [e He].
  exists e. unfold completeness_filter_with. by rewrite (bind_raise _ _ _ _ He).
Qed.

Lemma table_after_ok m s s' x :
  m s = Ok ((), s') → table_after m s x = frame_of s' x.
Proof. unfold table_after, exec. by intros ->. Qed.

Lemma table_after_raise m s e x :
  m s = Raise e → table_after m s x = None.
Proof. unfold table_after, exec. by intros ->. Qed.

Lemma Forall_columns_Permutation (cols : list string)
    (rules rules' : list (string * list Z)) :
  rules ≡ₚ rules' →
  Forall (λ rule, rule.1 ∈ cols) rules → Forall (λ rule, rule.1 ∈ cols) rules'.
Proof. intros Hp H. by rewrite <- Hp. Qed.

Lemma filter_order_invariant rules rules' s :
  rules ≡ₚ rules' →
  table_after (completeness_filter_with rules) s "df_filtered" =
  table_after (completeness_filter_with rules') s "df_filtered".
Proof.
  intros Hp.
  destruct (decide (rules = [])) as [->|Hne].
  { by apply Permutation_nil_l in Hp as ->. }
  assert (rules' ≠ []) as Hne'.
  { intros ->. by apply Permutation_nil_r in Hp. }
  destruct (frame_of s "df_selected") as [d|] eqn:Hd.
  - destruct (decide (Forall (λ rule, rule.1 ∈ columns d) rules)) as [Hcols|Hcols].
    + destruct (completeness_filter_with_ok rules s d Hd Hcols)
        as (s1 & Hrun & _ & Hf & _).
      destruct (completeness_filter_with_ok rules' s d Hd
                  (Forall_columns_Permutation _ _ _ Hp Hcols))
        as (s2 & Hrun' & _ & Hf' & _).
      rewrite (table_after_ok _ _ _ _ Hrun), (table_after_ok _ _ _ _ Hrun').
      rewrite Hf, Hf'. do 2 f_equal. apply list_filter_iff. intros r.
      by rewrite (complete_Permutation _ _ _ r Hp).
    + destruct (completeness_filter_with_raise rules s d Hd Hcols) as [e He].
      destruct (completeness_filter_with_raise rules' s d Hd) as [e' He'].
      { intros H. apply Hcols. symmetry in Hp.
        by apply (Forall_columns_Permutation _ _ _ Hp). }
      by rewrite (table_after_raise _ _ _ _ He), (table_after_raise _ _ _ _ He').
  - destruct (completeness_filter_with_unbound rules s Hd Hne) as [e He].
    destruct (completeness_filter_with_unbound rules' s Hd Hne') as [e' He'].
    by rewrite (table_after_raise _ _ _ _ He), (table_after_raise _ _ _ _ He').
Qed.

(** ** The translation of the missing codes *)

Lemma replace_missing_ok s lm m c values i :
  env s !! "df_missing" = Some lm →
  heap s !! lm = Some m →
  index_of c (columns m) = Some i →
  replace_missing (c, values) s =
    Ok ((), mkStore
              (<[lm := mkFrame (columns m) (translate_row (columns m) [(c, values)] <$> rows m)]>
                 (heap s))
              (env s) (stdout s)).
Proof.
  intros Hl Hm Hi.
  assert (frame_of s "df_missing" = Some m) as Hf.
  { apply frame_of_Some. by exists lm. }
  unfold replace_missing.
  rewrite (bind_ok _ _ _ _ _ (read_ok _ _ _ Hf)).
  rewrite (getitem_Some _ _ _ Hi).
  unfold mbind at 1, M_bind at 1. cbn [lift].
  unfold setitem, mbind, M_bind, var, deref, update. rewrite Hl, Hm.
  unfold pd.set_column, pd.replace. rewrite Hi.
  rewrite <- list_fmap_compose, zip_with_fmap_diag.
  do 5 f_equal. apply list_fmap_ext. intros _ r _. cbn. by rewrite Hi.
Qed.

Lemma translate_row_cons cols rule rules r :
  translate_row cols (rule :: rules) r =
  translate_row cols rules (translate_row cols [rule] r).
Proof. done. Qed.

Lemma for_each_replace_missing_ok rules : ∀ s lm m,
  env s !! "df_missing" = Some lm →
  heap s !! lm = Some m →
  Forall (λ rule, rule.1 ∈ columns m) rules →
  for_each rules replace_missing s =
    Ok ((), mkStore
              (<[lm := mkFrame (columns m) (translate_row (columns m) rules <$> rows m)]>
                 (heap s))
              (env s) (stdout s)).
Proof.
  induction rules as [|[c values] rules IH]; intros s lm m Hl Hm Hcols.
  - cbn. unfold mret, M_ret. do 2 f_equal. destruct s as [h e o]. cbn in *.
    f_equal. rewrite list_fmap_id. destruct m. by rewrite list_insert_id.
  - apply Forall_cons in Hcols as [Hc Hcols]. cbn in Hc.
    apply index_of_is_Some in Hc as [i Hi].
    cbn [for_each].
    rewrite (bind_ok _ _ _ _ _ (replace_missing_ok s lm m c values i Hl Hm Hi)).
    set (m1 := mkFrame (columns m)
                 (translate_row (columns m) [(c, values)] <$> rows m)).
    rewrite (IH (mkStore (<[lm := m1]> (heap s)) (env s) (stdout s)) lm m1);
      cbn [heap env stdout]; [|done| |done].
    + rewrite list_insert_insert_eq. unfold m1. cbn [columns rows].
      by rewrite <- list_fmap_compose.
    + apply list_lookup_insert_eq. by eapply lookup_lt_Some.
Qed.

Lemma sentinel_translation_with_ok rules s d :
  frame_of s "df_selected" = Some d →
  Forall (λ rule, rule.1 ∈ columns d) rules →
  sentinel_translation_with rules s =
    Ok ((), rebind "df_missing"
              (mkFrame (columns d) (translate_row (columns d) rules <$> rows d)) s).
Proof.
  intros Hd Hcols. unfold sentinel_translation_with.
  rewrite (bind_ok _ _ _ _ _ (read_ok _ _ _ Hd)).
  rewrite (bind_ok _ _ _ _ _ (bind_new_ok _ _ _)).
  rewrite (for_each_replace_missing_ok rules _ (length (heap s)) d).
  - unfold rebind. cbn [heap env stdout]. do 3 f_equal.
    rewrite insert_app_r_alt by done. by rewrite Nat.sub_diag.
  - apply env_rebind_eq.
  - cbn. by apply list_lookup_middle.
  - done.
Qed.

Lemma sentinel_translation_with_raise rules s d :
  frame_of s "df_selected" = Some d →
  ¬ Forall (λ rule, rule.1 ∈ columns d) rules →
  ∃ e, sentinel_translation_with rules s = Raise e.
Proof.
  intros Hd Hcols. unfold sentinel_translation_with.
  rewrite (bind_ok _ _ _ _ _ (read_ok _ _ _ Hd)).
  rewrite (bind_ok _ _ _ _ _ (bind_new_ok _ _ _)).
  assert (∀ s1 lm m, env s1 !! "df_missing" = Some lm → heap s1 !! lm = Some m →
            ¬ Forall (λ rule, rule.1 ∈ columns m) rules →
            ∃ e, for_each rules replace_missing s1 = Raise e) as Hloop.
  { clear. induction rules as [|[c values] rules IH]; intros s1 lm m Hl Hm Hcols.
    - by destruct Hcols.
    - cbn [for_each]. destruct (decide (c ∈ columns m)) as [Hc|Hc].
      + apply index_of_is_Some in Hc as [i Hi].
        rewrite (bind_ok _ _ _ _ _ (replace_missing_ok s1 lm m c values i Hl Hm Hi)).
        eapply (IH _ lm); cbn [heap env].
        * done.
        * apply list_lookup_insert_eq. by eapply lookup_lt_Some.
        * cbn. intros Hall. apply Hcols. constructor; [|done].
          apply index_of_is_Some. by exists i.
      + exists (KeyError [c]). apply bind_raise. unfold replace_missing.
        assert (frame_of s1 "df_missing" = Some m) as Hf.
        { apply frame_of_Some. by exists lm. }
        rewrite (bind_ok _ _ _ _ _ (read_ok _ _ _ Hf)).
        by rewrite (getitem_None _ _ Hc). }
  apply (Hloop _ (length (heap s)) d).
  - apply env_rebind_eq.
  - cbn. by apply list_lookup_middle.
  - done.
Qed.

Lemma translate_row_label cols rules : ∀ r,
  label (translate_row cols rules r) = label r.
Proof.
  induction rules as [|rule rules IH]; intros r; [done|].
  rewrite translate_row_cons, IH. cbn. by destruct (index_of rule.1 cols).
Qed.

Lemma translate_row_length cols rules : ∀ r,
  length (cells r) = length cols →
  length (cells (translate_row cols rules r)) = length cols.
Proof.
  induction rules as [|rule rules IH]; intros r Hlen; [done|].
  rewrite translate_row_cons. apply IH. cbn.
  destruct (index_of rule.1 cols) as [i|] eqn:Hi; [|done].
  rewrite length_set_cell_lt; [done|]. rewrite Hlen. by eapply index_of_lt.
Qed.

Lemma existsb_sentinel_NaN (c : string) (rules : list (string * list Z)) :
  existsb (λ rule, bool_decide (rule.1 = c) && cell_in NaN rule.2) rules = false.
Proof. induction rules as [|rule rules IH]; [done|]. cbn. by rewrite andb_false_r. Qed.

Lemma translate_row_cell cols rules : ∀ r c i,
  length (cells r) = length cols →
  index_of c cols = Some i →
  nth_cell i (translate_row cols rules r) =
    if existsb (λ rule, bool_decide (rule.1 = c) && cell_in (nth_cell i r) rule.2) rules
    then NaN else nth_cell i r.
Proof.
  induction rules as [|rule rules IH]; intros r c i Hlen Hi; [done|].
  rewrite translate_row_cons.
  rewrite (IH _ c i); [| |done]; last first.
  { by apply (translate_row_length cols [rule]). }
  cbn [existsb translate_row foldl].
  destruct (index_of rule.1 cols) as [k|] eqn:Hk.
  - assert (k < length (cells r))%nat as Hlt.
    { rewrite Hlen. by eapply index_of_lt. }
    destruct (decide (k = i)) as [->|Hne].
    + rewrite (index_of_inj _ _ _ _ Hk Hi), bool_decide_true by done.
      rewrite nth_cell_set_cell_eq by lia. cbn [andb].
      destruct (cell_in (nth_cell i r) rule.2); cbn [orb]; [|done].
      by rewrite existsb_sentinel_NaN.
    + rewrite nth_cell_set_cell_ne by (done || lia).
      rewrite bool_decide_false; [done|].
      intros Heq. apply Hne. rewrite Heq in Hk. congruence.
  - rewrite bool_decide_false; [done|].
    intros Heq. rewrite Heq in Hk. congruence.
Qed.

(** ** The coalitions *)

Lemma party_codes_spec z : z ∈ elements party_codes ↔ 1 ≤ z ≤ 8.
Proof.
  unfold party_codes, range.
  rewrite elem_of_elements, elem_of_difference, elem_of_list_to_set,
    elem_of_seqZ, elem_of_singleton.
  lia.
Qed.

Lemma classifiable_spec i r :
  classifiable i r ↔ ∃ z, nth_cell i r = Num z ∧ 1 ≤ z ≤ 8.
Proof.
  unfold classifiable, cell_in. destruct (nth_cell i r) as [z|t|].
  - rewrite bool_decide_eq_true, party_codes_spec. split.
    + intros Hz. by exists z.
    + by intros (z' & [= <-] & Hz).
  - split; [done|]. by intros (? & ? & ?).
  - split; [done|]. by intros (? & ? & ?).
Qed.

Lemma assign_target_policy z :
  assign_target (Num z) =
    if decide (z = 2 ∨ z = 7 ∨ z = 8 ∨ z = 10) then Some 1
    else if decide (z = 1 ∨ z = 4 ∨ z = 5) then Some 4
    else if decide (z = 3) then Some 2
    else if decide (z = 6) then Some 3
    else None.
Proof.
  unfold assign_target, cell_in.
  repeat (case_decide;
          [ rewrite bool_decide_true;
              [done | rewrite !elem_of_cons, elem_of_nil; tauto]
          | rewrite bool_decide_false
              by (rewrite !elem_of_cons, elem_of_nil; tauto) ]).
  done.
Qed.

Lemma coalition_cell_classifiable i r :
  classifiable i r →
  ∃ k, coalition_cell (nth_cell i r) = Num k ∧ 1 ≤ k ≤ 4.
Proof.
  intros (z & Hz & Hrange)%classifiable_spec. unfold coalition_cell.
  rewrite Hz, assign_target_policy.
  repeat (case_decide; [eexists; split; [done|lia]|]). lia.
Qed.

Lemma index_of_coalition_columns cols :
  index_of "VotedCoalition" (coalition_columns cols) = Some (coalition_position cols).
Proof.
  unfold coalition_columns, coalition_position.
  destruct (index_of "VotedCoalition" cols) as [j|] eqn:Hj; [done|].
  cbn. apply index_of_app_new. by apply index_of_None.
Qed.

Lemma coalition_position_le cols : (coalition_position cols ≤ length cols)%nat.
Proof.
  unfold coalition_position.
  destruct (index_of "VotedCoalition" cols) as [j|] eqn:Hj; cbn; [|done].
  apply index_of_lt in Hj. lia.
Qed.

Lemma set_coalition_column cols rs i :
  pd.set_column "VotedCoalition" (pd.apply assign_target (nth_cell i <$> rs))
    (mkFrame cols rs) =
  mkFrame (coalition_columns cols) (with_coalition i (coalition_position cols) <$> rs).
Proof.
  unfold pd.set_column, pd.apply, coalition_columns, coalition_position.
  cbn [columns rows]. rewrite <- list_fmap_compose.
  by destruct (index_of "VotedCoalition" cols); cbn; rewrite zip_with_fmap_diag.
Qed.

Lemma coalition_collapse_ok s d i :
  frame_of s "df_selected" = Some d →
  index_of "VotedParty" (columns d) = Some i →
  width (length (columns d)) (rows d) →
  ∃ s',
    coalition_collapse s = Ok ((), s') ∧
    extends ["df_selected"] s s' ∧
    stdout s' = stdout s ∧
    frame_of s' "df_selected" = Some (collapsed i d).
Proof.
  intros Hd Hi Hw.
  set (d1 := mkFrame (columns d) (filter (classifiable i) (rows d))).
  set (j := coalition_position (columns d)).
  assert (pd.getitem_mask (pd.isin (elements party_codes) (nth_cell i <$> rows d)) d = d1)
    as Hmask.
  { unfold pd.getitem_mask, pd.isin, d1. f_equal.
    by rewrite <- list_fmap_compose, select_fmap. }
  assert (pd.dropna "VotedCoalition" (collapsed i d) = Ok (collapsed i d)) as Hdrop.
  { unfold pd.dropna.
    rewrite (getitem_Some "VotedCoalition" (collapsed i d) _
               (index_of_coalition_columns (columns d))).
    unfold pd.getitem_mask, collapsed. cbn [columns rows]. do 2 f_equal.
    rewrite <- list_fmap_compose, select_invert_fmap.
    apply filter_true, Forall_fmap, Forall_forall. intros r Hr. cbn.
    apply list_elem_of_filter in Hr as [Hr Hin].
    destruct (coalition_cell_classifiable i r Hr) as (k & Hk & _).
    unfold with_coalition. rewrite nth_cell_set_cell_eq, Hk; [done|].
    unfold width in Hw. rewrite Forall_forall in Hw.
    rewrite (Hw r Hin). apply coalition_position_le. }
  exists (rebind "df_selected" (collapsed i d)
            (rebind "df_selected" (collapsed i d) s)).
  split; [|split; [|split]].
  - unfold coalition_collapse.
    rewrite (bind_ok _ _ _ _ _ (read_ok _ _ _ Hd)).
    rewrite (getitem_Some _ _ _ Hi).
    unfold mbind at 1, M_bind at 1. cbn [lift]. rewrite Hmask.
    rewrite (bind_ok _ _ _ _ _ (bind_new_ok _ _ _)).
    rewrite (bind_ok _ _ _ _ _ (read_ok _ _ _ (frame_of_rebind_eq _ _ _))).
    rewrite (getitem_Some "VotedParty" d1 i Hi).
    unfold mbind at 1, M_bind at 1. cbn [lift].
    unfold d1 at 2. cbn [rows]. 
    assert (setitem "df_selected" "VotedCoalition"
              (pd.apply assign_target (nth_cell i <$> filter (classifiable i) (rows d)))
              (rebind "df_selected" d1 s) =
            Ok ((), rebind "df_selected" (collapsed i d) s)) as Hset.
    { unfold setitem, mbind, M_bind, var, deref, update.
      rewrite env_rebind_eq. cbn [heap rebind env stdout].
      rewrite list_lookup_middle by done.
      unfold d1. rewrite set_coalition_column.
      unfold rebind. cbn [heap env stdout].
      rewrite insert_app_r_alt by done. by rewrite Nat.sub_diag. }
    rewrite (bind_ok _ _ _ _ _ Hset).
    rewrite (bind_ok _ _ _ _ _ (read_ok _ _ _ (frame_of_rebind_eq _ _ _))).
    rewrite Hdrop. done.
  - eapply extends_trans; apply extends_rebind; by left.
  - done.
  - apply frame_of_rebind_eq.
Qed.

(** ** Selection and renaming *)

Lemma rename_take raw :
  pd.rename column_mapping (pd.take columns_to_keep raw) = selected raw.
Proof. unfold pd.rename, selected. f_equal. Qed.

Lemma project_and_rename_ok s raw :
  frame_of s "df" = Some raw →
  columns_to_keep ⊆ columns raw →
  ∃ s',
    project_and_rename s = Ok ((), s') ∧
    extends ["df_selected"] s s' ∧
    stdout s' = stdout s ∧
    frame_of s' "df_selected" = Some (selected raw).
Proof.
  intros Hraw Hsub.
  exists (rebind "df_selected" (selected raw)
            (rebind "df_selected" (pd.take columns_to_keep raw) s)).
  split; [|split; [|split]].
  - unfold project_and_rename.
    rewrite (bind_ok _ _ _ _ _ (read_ok _ _ _ Hraw)).
    rewrite (getitem_list_ok _ _ Hsub).
    unfold mbind at 1, M_bind at 1. cbn [lift].
    rewrite (bind_ok _ _ _ _ _ (bind_new_ok _ _ _)).
    rewrite (bind_ok _ _ _ _ _ (read_ok _ _ _ (frame_of_rebind_eq _ _ _))).
    by rewrite rename_take.
  - eapply extends_trans; apply extends_rebind; by left.
  - done.
  - apply frame_of_rebind_eq.
Qed.

Lemma project_and_rename_raise s raw :
  frame_of s "df" = Some raw →
  ¬ columns_to_keep ⊆ columns raw →
  project_and_rename s =
    Raise (KeyError (filter (λ c, c ∉ columns raw) columns_to_keep)).
Proof.
  intros Hraw Hsub. unfold project_and_rename.
  rewrite (bind_ok _ _ _ _ _ (read_ok _ _ _ Hraw)).
  by rewrite (getitem_list_fail _ _ Hsub).
Qed.

Lemma selected_width raw :
  width (length (columns (selected raw))) (rows (selected raw)).
Proof.
  unfold width, selected, pd.take. cbn [columns rows].
  apply Forall_fmap, Forall_true. intros r. done.
Qed.

Lemma post_collapse_columns raw : columns (post_collapse raw) = final_columns.
Proof. done. Qed.

Lemma exclusion_rules_columns :
  Forall (λ rule, rule.1 ∈ final_columns) exclusion_rules.
Proof. apply (bool_decide_unpack _). by vm_compute. Qed.

(** ** The stages in sequence *)

Lemma exec_ok m s s' : m s = Ok ((), s') → exec m s = Ok s'.
Proof. unfold exec. by intros ->. Qed.

Lemma exec_raise m s e : m s = Raise e → exec m s = Raise e.
Proof. unfold exec. by intros ->. Qed.


Lemma exec_seq (m k : M unit) s s1 :
  m s = Ok ((), s1) → exec (m;; k) s = exec k s1.
Proof. intros H. unfold exec. by rewrite (bind_ok _ _ _ _ _ H). Qed.

Lemma exec_seq_raise (m k : M unit) s e :
  m s = Raise e → exec (m;; k) s = Raise e.
Proof. intros H. unfold exec. by rewrite (bind_raise _ _ _ _ H). Qed.


Lemma missing_and_filter_ok s d :
  frame_of s "df_selected" = Some d →
  Forall (λ rule, rule.1 ∈ columns d) exclusion_rules →
  ∃ s',
    exec (sentinel_translation;; completeness_filter) s = Ok s' ∧
    extends ["df_missing"; "df_selected"; "df_filtered"] s s' ∧
    frame_of s' "df_filtered" = Some (filtered exclusion_rules d) ∧
    frame_of s' "df_selected" = Some (filtered exclusion_rules d) ∧
    frame_of s' "df_missing" = Some (translated exclusion_rules d) ∧
    stdout s' = stdout s ++ filter_report (columns d) exclusion_rules (rows d).
Proof.
  intros Hd Hcols.
  pose proof (sentinel_translation_with_ok exclusion_rules s d Hd Hcols) as Hrun1.
  set (s1 := rebind "df_missing" (translated exclusion_rules d) s) in *.
  assert (extends ["df_missing"] s s1) as Hext1 by (apply extends_rebind; by left).
  assert (frame_of s1 "df_selected" = Some d) as Hd1.
  { apply (extends_frame _ _ _ _ _ Hext1); [|done].
    by intros [=]%list_elem_of_singleton. }
  destruct (completeness_filter_with_ok exclusion_rules s1 d Hd1 Hcols)
    as (s' & Hrun2 & Hext2 & Hf & Hsel & Hout).
  exists s'. split; [|split; [|split; [|split; [|split]]]].
  - unfold sentinel_translation. rewrite (exec_seq _ _ _ _ Hrun1).
    by apply exec_ok.
  - eapply extends_trans.
    + eapply extends_weaken; [|exact Hext1].
      apply list_subseteq_skip, list_subseteq_nil.
    + eapply extends_weaken; [|exact Hext2]. by apply list_subseteq_cons.
  - done.
  - by rewrite Hsel.
  - apply (extends_frame _ _ _ _ _ Hext2).
    + rewrite !elem_of_cons, elem_of_nil. by intros [[=]|[[=]|[]]].
    + apply frame_of_rebind_eq.
  - done.
Qed.

Lemma frame_of_init raw : frame_of (init raw) "df" = Some raw.
Proof. done. Qed.

Lemma collapse_ok raw :
  columns_to_keep ⊆ columns raw →
  ∃ s1,
    exec (project_and_rename;; coalition_collapse) (init raw) = Ok s1 ∧
    frame_of s1 "df_selected" = Some (post_collapse raw) ∧
    frame_of s1 "df" = Some raw ∧
    stdout s1 = [] ∧
    ∀ k : M unit,
      exec (project_and_rename;; coalition_collapse;; k) (init raw) = exec k s1.
Proof.
  intros Hsub.
  destruct (project_and_rename_ok (init raw) raw (frame_of_init raw) Hsub)
    as (s0 & Hrun0 & Hext0 & Hout0 & Hsel0).
  destruct (coalition_collapse_ok s0 (selected raw) 16 Hsel0 eq_refl (selected_width raw))
    as (s1 & Hrun1 & Hext1 & Hout1 & Hsel1).
  exists s1. split; [|split; [|split; [|split]]].
  - rewrite (exec_seq _ _ _ _ Hrun0). by apply exec_ok.
  - done.
  - apply (extends_frame _ _ _ _ _ Hext1); [by intros [=]%list_elem_of_singleton|].
    apply (extends_frame _ _ _ _ _ Hext0); [by intros [=]%list_elem_of_singleton|].
    done.
  - by rewrite Hout1, Hout0.
  - intros k. rewrite (exec_seq _ _ _ _ Hrun0).
    by rewrite (exec_seq _ _ _ _ Hrun1).
Qed.

Lemma wrangle_raise raw :
  ¬ columns_to_keep ⊆ columns raw →
  exec wrangle (init raw) =
    Raise (KeyError (filter (λ c, c ∉ columns raw) columns_to_keep)).
Proof.
  intros Hsub. unfold wrangle. apply exec_seq_raise.
  by apply project_and_rename_raise.
Qed.

(** ** The rows after the coalition stage *)

Lemma post_collapse_rows raw r' :
  r' ∈ rows (post_collapse raw) ↔
  ∃ r, r ∈ rows (selected raw) ∧ classifiable 16 r ∧ r' = with_coalition 16 17 r.
Proof.
  unfold post_collapse, collapsed. cbn [rows columns].
  rewrite list_elem_of_fmap. split.
  - intros (r & -> & [Hc Hr]%list_elem_of_filter). by exists r.
  - intros (r & Hr & Hc & ->). exists r. split; [done|].
    by apply list_elem_of_filter.
Qed.

Lemma selected_row_length raw r :
  r ∈ rows (selected raw) → length (cells r) = 17%nat.
Proof.
  intros Hr. pose proof (selected_width raw) as Hw.
  unfold width in Hw. rewrite Forall_forall in Hw. by apply Hw.
Qed.

Lemma with_coalition_length r :
  length (cells r) = 17%nat → length (cells (with_coalition 16 17 r)) = 18%nat.
Proof.
  intros Hlen. unfold with_coalition. rewrite <- Hlen at 1.
  by rewrite length_set_cell_end, Hlen.
Qed.

Lemma post_collapse_width raw : width 18 (rows (post_collapse raw)).
Proof.
  unfold width. apply Forall_forall. intros r' (r & Hr & _ & ->)%post_collapse_rows.
  by apply with_coalition_length, selected_row_length with raw.
Qed.

Lemma with_coalition_party r :
  length (cells r) = 17%nat →
  nth_cell 16 (with_coalition 16 17 r) = nth_cell 16 r.
Proof.
  intros Hlen. unfold with_coalition. apply nth_cell_set_cell_ne; lia.
Qed.

Lemma with_coalition_coalition r :
  length (cells r) = 17%nat →
  nth_cell 17 (with_coalition 16 17 r) = coalition_cell (nth_cell 16 r).
Proof.
  intros Hlen. unfold with_coalition. apply nth_cell_set_cell_eq. lia.
Qed.

Lemma cell_at_final r c i :
  length (cells r) = 18%nat → index_of c final_columns = Some i →
  cell_at final_columns r c = Some (nth_cell i r).
Proof.
  intros Hlen Hi. apply cell_at_nth_cell; [done|].
  rewrite Hlen. by apply index_of_lt in Hi.
Qed.

Lemma post_collapse_party raw r' :
  r' ∈ rows (post_collapse raw) →
  ∃ z, cell_at final_columns r' "VotedParty" = Some (Num z) ∧ 1 ≤ z ≤ 8.
Proof.
  intros (r & Hr & Hc & ->)%post_collapse_rows.
  apply selected_row_length in Hr.
  apply classifiable_spec in Hc as (z & Hz & Hrange).
  exists z. split; [|done].
  rewrite (cell_at_final _ "VotedParty" 16); [|by apply with_coalition_length|done].
  by rewrite with_coalition_party, Hz.
Qed.

Lemma coalition_names_spec k :
  1 ≤ k ≤ 4 →
  ∃ name, coalition_names !! k = Some name ∧
          name ∈ ["CSX"; "M5S"; "TerzoPolo"; "CDX"].
Proof.
  intros Hk.
  assert (k = 1 ∨ k = 2 ∨ k = 3 ∨ k = 4) as [-> | [-> | [-> | ->]]] by lia;
    eexists; (split; [by vm_compute|]); rewrite !elem_of_cons; tauto.
Qed.

Lemma post_collapse_resolved raw r' :
  r' ∈ rows (post_collapse raw) → resolved final_columns r'.
Proof.
  intros (r & Hr & Hc & ->)%post_collapse_rows.
  apply selected_row_length in Hr.
  destruct (coalition_cell_classifiable 16 r Hc) as (k & Hk & Hrange).
  destruct (coalition_names_spec k Hrange) as (name & Hname & Hin).
  exists k, name. split; [|done].
  rewrite (cell_at_final _ "VotedCoalition" 17); [|by apply with_coalition_length|done].
  by rewrite with_coalition_coalition, Hk.
Qed.

Lemma filtered_rows rules d r :
  r ∈ rows (filtered rules d) ↔ r ∈ rows d ∧ complete (columns d) rules r = true.
Proof. unfold filtered. cbn [rows]. rewrite list_elem_of_filter. tauto. Qed.

Lemma complete_rule cols rules r rule :
  complete cols rules r = true → rule ∈ rules → sentinel_in cols r rule = false.
Proof.
  unfold complete. rewrite forallb_forall. intros Hall Hin.
  apply negb_true_iff, Hall. by apply list_elem_of_In.
Qed.

Lemma post_collapse_row_length raw r :
  r ∈ rows (post_collapse raw) → length (cells r) = 18%nat.
Proof.
  intros Hr. pose proof (post_collapse_width raw) as Hw.
  unfold width in Hw. rewrite Forall_forall in Hw. by apply Hw.
Qed.

Lemma cell_in_false v values :
  cell_in v values = false ↔ ∀ z, z ∈ values → v ≠ Num z.
Proof.
  destruct v as [z'|t|]; cbn.
  - rewrite bool_decide_eq_false. split.
    + intros Hn z Hz [= ->]. done.
    + intros H Hz. by apply (H z').
  - split; [by intros _ z _|done].
  - split; [by intros _ z _|done].
Qed.

(** ** The missingness indicators *)

Lemma append_length s t :
  String.length (s +:+ t) = (String.length s + String.length t)%nat.
Proof. induction s as [|a s IH]; [done|]. simpl. f_equal. exact IH. Qed.

Lemma append_inj_r t s1 s2 : s1 +:+ t = s2 +:+ t → s1 = s2.
Proof.
  revert s2. induction s1 as [|a s1 IH]; intros [|b s2] H.
  - done.
  - apply (f_equal String.length) in H. rewrite !append_length in H. simpl in H. lia.
  - apply (f_equal String.length) in H. rewrite !append_length in H. simpl in H. lia.
  - simpl in H. injection H as -> H. f_equal. by apply IH.
Qed.

Lemma index_of_suffix t c cols :
  index_of (c +:+ t) ((λ col, col +:+ t) <$> cols) = index_of c cols.
Proof.
  induction cols as [|c' cols IH]; [done|].
  cbn. rewrite IH. destruct (decide (c' = c)) as [->|Hne].
  - by rewrite decide_True.
  - rewrite decide_False; [done|]. intros H. by apply Hne, append_inj_r with t.
Qed.

Lemma index_of_app_l c (cols1 cols2 : list string) i :
  index_of c cols1 = Some i → index_of c (cols1 ++ cols2) = Some i.
Proof.
  revert i. induction cols1 as [|c' cols1 IH]; intros i; [done|].
  cbn. case_decide; [done|].
  destruct (index_of c cols1) as [k|]; [|done]. cbn. intros [= <-].
  by rewrite (IH k).
Qed.

Lemma not_a_missing_name c : c +:+ "_missing" ≠ "VotedCoalition".
Proof.
  intros H.
  destruct c as [|a1 [|a2 [|a3 [|a4 [|a5 [|a6 [|a7 c]]]]]]]; simpl in H;
    try discriminate H.
  apply (f_equal String.length) in H. simpl in H. rewrite append_length in H.
  simpl in H. lia.
Qed.

Lemma update_rebind x d d' s :
  update (length (heap s)) d' (rebind x d s) = Ok ((), rebind x d' s).
Proof.
  unfold update, rebind. cbn [heap env stdout]. do 3 f_equal.
  rewrite insert_app_r_alt by done. by rewrite Nat.sub_diag.
Qed.

Lemma var_rebind x d s :
  var x (rebind x d s) = Ok (length (heap s), rebind x d s).
Proof. unfold var. by rewrite env_rebind_eq. Qed.

Lemma deref_rebind x d s :
  deref (length (heap s)) (rebind x d s) = Ok (d, rebind x d s).
Proof.
  unfold deref. cbn [rebind heap]. by rewrite list_lookup_middle.
Qed.

Lemma set_columns_rebind x d names s :
  set_columns x names (rebind x d s) = Ok ((), rebind x (mkFrame names (rows d)) s).
Proof.
  unfold set_columns.
  rewrite (bind_ok _ _ _ _ _ (var_rebind _ _ _)).
  rewrite (bind_ok _ _ _ _ _ (deref_rebind _ _ _)).
  apply update_rebind.
Qed.

Lemma setitem_rebind x c ser d s :
  setitem x c ser (rebind x d s) = Ok ((), rebind x (pd.set_column c ser d) s).
Proof.
  unfold setitem.
  rewrite (bind_ok _ _ _ _ _ (var_rebind _ _ _)).
  rewrite (bind_ok _ _ _ _ _ (deref_rebind _ _ _)).
  apply update_rebind.
Qed.

Lemma missing_indicators_ok s m j :
  frame_of s "df_missing" = Some m →
  index_of "VotedCoalition" (columns m) = Some j →
  missing_indicators s =
    Ok ((), rebind "missing_indicators"
              (pd.set_column "VotedCoalition" (nth_cell j <$> rows m)
                 (mkFrame ((λ col, col +:+ "_missing") <$> columns m)
                    (rows (pd_isna_int m)))) s).
Proof.
  intros Hm Hj.
  assert (∀ d, frame_of (rebind "missing_indicators" d s) "df_missing" = Some m) as Hm1.
  { intros d.
    apply (extends_frame ["missing_indicators"] s); [|by intros [=]%list_elem_of_singleton|done].
    apply extends_rebind. by left. }
  unfold missing_indicators.
  rewrite (bind_ok _ _ _ _ _ (read_ok _ _ _ Hm)).
  rewrite (bind_ok _ _ _ _ _ (bind_new_ok _ _ _)).
  rewrite (bind_ok _ _ _ _ _ (read_ok _ _ _ (Hm1 _))).
  rewrite (bind_ok _ _ _ _ _ (set_columns_rebind _ _ _ _)).
  rewrite (bind_ok _ _ _ _ _ (read_ok _ _ _ (Hm1 _))).
  rewrite (getitem_Some _ _ _ Hj).
  unfold mbind at 1, M_bind at 1. cbn [lift].
  apply setitem_rebind.
Qed.

Lemma no_indicator_is_the_target (cols : list string) :
  index_of "VotedCoalition" ((λ col, col +:+ "_missing") <$> cols) = None.
Proof.
  apply index_of_None. intros (c & Hc & _)%list_elem_of_fmap.
  by apply (not_a_missing_name c).
Qed.

Lemma indicator_frame m j :
  pd.set_column "VotedCoalition" (nth_cell j <$> rows m)
    (mkFrame ((λ col, col +:+ "_missing") <$> columns m) (rows (pd_isna_int m))) =
  mkFrame (((λ col, col +:+ "_missing") <$> columns m) ++ ["VotedCoalition"])
    ((λ r, pd.set_cell (length (columns m)) (nth_cell j r)
             (mkRow (label r) ((λ v, Num (if pd.isna v then 1 else 0)) <$> cells r)))
       <$> rows m).
Proof.
  unfold pd.set_column, pd_isna_int. cbn [columns rows].
  rewrite no_indicator_is_the_target, length_fmap. f_equal.
  rewrite zip_with_fmap_l, zip_with_fmap_r. apply zip_with_diag.
Qed.

Lemma indicator_rows m j :
  index_of "VotedCoalition" (columns m) = Some j →
  width (length (columns m)) (rows m) →
  ∀ ind,
    ind = pd.set_column "VotedCoalition" (nth_cell j <$> rows m)
            (mkFrame ((λ col, col +:+ "_missing") <$> columns m) (rows (pd_isna_int m))) →
    columns ind = ((λ col, col +:+ "_missing") <$> columns m) ++ ["VotedCoalition"] ∧
    label <$> rows ind = label <$> rows m ∧
    ∀ i r, rows m !! i = Some r →
      ∃ r', rows ind !! i = Some r' ∧
        cell_at (columns ind) r' "VotedCoalition" = cell_at (columns m) r "VotedCoalition" ∧
        ∀ c v, cell_at (columns m) r c = Some v →
          cell_at (columns ind) r' (c +:+ "_missing") =
            Some (Num (if pd.isna v then 1 else 0)).
Proof.
  intros Hj Hw ind ->. rewrite indicator_frame.
  cbn [columns rows]. split; [done|]. split.
  { rewrite <- list_fmap_compose. by apply list_fmap_ext. }
  intros i r Hr.
  assert (length (cells r) = length (columns m)) as Hlen.
  { unfold width in Hw. rewrite Forall_lookup in Hw. by apply (Hw i). }
  eexists. split; [by rewrite list_lookup_fmap, Hr|].
  set (flags := mkRow (label r) ((λ v, Num (if pd.isna v then 1 else 0)) <$> cells r)).
  assert (length (cells flags) = length (columns m)) as Hflags.
  { unfold flags. cbn [cells]. by rewrite length_fmap. }
  split.
  - rewrite (cell_at_index _ _ _ (length (columns m))).
    + rewrite cells_set_cell_eq by lia.
      rewrite (cell_at_nth_cell _ _ _ j Hj); [done|].
      rewrite Hlen. by eapply index_of_lt.
    + rewrite <- (length_fmap (λ col, col +:+ "_missing")).
      apply index_of_app_new. apply index_of_None, no_indicator_is_the_target.
  - intros c v Hv. unfold cell_at in Hv.
    destruct (index_of c (columns m)) as [k|] eqn:Hk; [|done]. cbn in Hv.
    rewrite (cell_at_index _ _ _ k).
    + rewrite cells_set_cell_ne.
      * unfold flags. cbn [cells]. by rewrite list_lookup_fmap, Hv.
      * lia.
      * apply index_of_lt in Hk. lia.
    + apply index_of_app_l. by rewrite index_of_suffix.
Qed.

Lemma post_collapse_coalition raw r' :
  r' ∈ rows (post_collapse raw) →
  ∃ k, cell_at final_columns r' "VotedCoalition" = Some (Num k) ∧ 1 ≤ k ≤ 4.
Proof.
  intros (r & Hr & Hc & ->)%post_collapse_rows.
  apply selected_row_length in Hr.
  destruct (coalition_cell_classifiable 16 r Hc) as (k & Hk & Hrange).
  exists k. split; [|done].
  rewrite (cell_at_final _ "VotedCoalition" 17); [|by apply with_coalition_length|done].
  by rewrite with_coalition_coalition, Hk.
Qed.

Lemma party_is_no_sentinel z :
  1 ≤ z ≤ 8 →
  existsb (λ rule, bool_decide (rule.1 = "VotedParty") && cell_in (Num z) rule.2)
    exclusion_rules = false.
Proof.
  intros Hz.
  assert (z = 1 ∨ z = 2 ∨ z = 3 ∨ z = 4 ∨ z = 5 ∨ z = 6 ∨ z = 7 ∨ z = 8)
    as [-> | [-> | [-> | [-> | [-> | [-> | [-> | ->]]]]]]] by lia;
    by vm_compute.
Qed.

Lemma coalition_has_no_rule v :
  existsb (λ rule, bool_decide (rule.1 = "VotedCoalition") && cell_in v rule.2)
    exclusion_rules = false.
Proof. by vm_compute. Qed.

(** ** The test of line 213 *)

Lemma sum_list_elem (f : cell → nat) (l : list cell) x :
  x ∈ l → (f x ≤ sum_list (f <$> l))%nat.
Proof.
  induction l as [|y l IH]; [by intros ?%elem_of_nil|].
  intros [->|Hx]%elem_of_cons; cbn; [lia|]. specialize (IH Hx). lia.
Qed.

Lemma sum_list_elem_bool (f : bool → nat) (l : list bool) x :
  x ∈ l → (f x ≤ sum_list (f <$> l))%nat.
Proof.
  induction l as [|y l IH]; [by intros ?%elem_of_nil|].
  intros [->|Hx]%elem_of_cons; cbn; [lia|]. specialize (IH Hx). lia.
Qed.

Lemma count_pos {A} `{EqDecision A} (x : A) (l : list A) :
  x ∈ l → (0 < length (filter (λ p, p = x) l))%nat.
Proof.
  intros Hx. assert (x ∈ filter (λ p, p = x) l) as Hin by (by apply list_elem_of_filter).
  destruct (filter (λ p, p = x) l); [by apply elem_of_nil in Hin|cbn; lia].
Qed.

(** The test of line 213 stops the script exactly when no position has a
    coalition: the table of counts is then empty.  A table of counts that is
    not empty has no row and no column of zeros. *)
Lemma chi2_crosstab a b :
  chi2_contingency (pd_crosstab a b) =
    if decide (filter (λ p : bool * cell, pd.isna p.2 = false) (zip a b) = [])
    then Raise ValueError else Ok ().
Proof.
  unfold pd_crosstab.
  set (pairs := filter (λ p : bool * cell, pd.isna p.2 = false) (zip a b)).
  set (index := filter (λ k, k ∈ pairs.*1) [false; true]).
  set (cols := merge_sort key_le (remove_dups pairs.*2)).
  assert (∀ j, j ∈ cols ↔ j ∈ pairs.*2) as Hcols.
  { intros j. unfold cols. rewrite merge_sort_Permutation. apply elem_of_remove_dups. }
  assert (∀ i, i ∈ index ↔ i ∈ pairs.*1) as Hindex.
  { intros i. unfold index. rewrite list_elem_of_filter.
    split; [by intros [? _]|]. intros Hi. split; [done|].
    destruct i; rewrite !elem_of_cons; tauto. }
  set (table := (λ i, (λ j, length (filter (λ p, p = (i, j)) pairs)) <$> cols) <$> index).
  unfold chi2_contingency.
  destruct (decide (pairs = [])) as [Hnil|Hne].
  - assert (index = []) as Hi.
    { unfold index. by rewrite Hnil. }
    unfold table. rewrite Hi. cbn. done.
  - assert (∃ p, p ∈ pairs) as [[i0 j0] Hp].
    { clearbody pairs. destruct pairs as [|p ?]; [done|]. exists p. left. }
    assert (i0 ∈ index) as Hi0.
    { apply Hindex, list_elem_of_fmap. by exists (i0, j0). }
    assert (j0 ∈ cols) as Hj0.
    { apply Hcols, list_elem_of_fmap. by exists (i0, j0). }
    assert (length <$> table = (λ _, length cols) <$> index) as Hlens.
    { unfold table. rewrite <- list_fmap_compose. apply list_fmap_ext.
      intros _ i _. cbn. by rewrite length_fmap. }
    rewrite decide_False; last first.
    { rewrite Hlens, sum_list_fmap_const.
      destruct index as [|? ?]; [by apply elem_of_nil in Hi0|].
      destruct cols as [|? ?]; [by apply elem_of_nil in Hj0|]. cbn. lia. }
    rewrite decide_False; [done|]. intros [_ Hzero].
    apply Exists_exists in Hzero as (r & Hr & Hzero).
    apply Exists_exists in Hzero as (c & Hc & Hrc).
    assert (0 < r)%nat as Hrpos.
    { apply list_elem_of_fmap in Hr as (row & -> & Hrow).
      apply list_elem_of_fmap in Hrow as (i & -> & Hi).
      apply Hindex, list_elem_of_fmap in Hi as ([i' j] & Heq & Hin). cbn in Heq. subst i'.
      assert (j ∈ cols) as Hj.
      { apply Hcols, list_elem_of_fmap. by exists (i, j). }
      pose proof (sum_list_elem (λ j, length (filter (λ p, p = (i, j)) pairs)) cols j Hj) as Hle.
      pose proof (count_pos (i, j) pairs Hin) as Hpos. cbn beta in Hle. lia. }
    assert (0 < c)%nat as Hcpos.
    { apply list_elem_of_fmap in Hc as (jj & -> & Hjj).
      apply elem_of_seq in Hjj as [_ Hjj]. rewrite Nat.add_0_l in Hjj.
      assert (length (default [] (head table)) = length cols) as Hhead.
      { unfold table. destruct index as [|i index']; [by apply elem_of_nil in Hi0|].
        cbn. by rewrite length_fmap. }
      rewrite Hhead in Hjj.
      destruct (lookup_lt_is_Some_2 cols jj Hjj) as [j Hj].
      assert (j ∈ cols) as Hjin by (by eapply list_elem_of_lookup_2).
      apply Hcols, list_elem_of_fmap in Hjin as ([i j'] & Heq & Hin). cbn in Heq. subst j'.
      assert (i ∈ index) as Hi.
      { apply Hindex, list_elem_of_fmap. by exists (i, j). }
      assert ((λ row : list nat, row !!! jj) <$> table =
              (λ i, length (filter (λ p, p = (i, j)) pairs)) <$> index) as Hcol.
      { unfold table. rewrite <- list_fmap_compose. apply list_fmap_ext.
        intros _ i' _. cbn. apply list_lookup_total_correct.
        by rewrite list_lookup_fmap, Hj. }
      rewrite Hcol.
      pose proof (sum_list_elem_bool (λ i, length (filter (λ p, p = (i, j)) pairs)) index i Hi) as Hle.
      pose proof (count_pos (i, j) pairs Hin) as Hpos. cbn beta in Hle. lia. }
    nia.
Qed.

Lemma missing_rates_ok s ind :
  frame_of s "missing_indicators" = Some ind →
  "VotedCoalition" ∈ columns ind →
  missing_rates s = Ok ((), s).
Proof.
  intros Hind [j Hj]%index_of_is_Some. unfold missing_rates.
  rewrite (bind_ok _ _ _ _ _ (read_ok _ _ _ Hind)).
  by rewrite (getitem_Some _ _ _ Hj).
Qed.

Lemma mar_test_ok s m i j :
  frame_of s "df_missing" = Some m →
  index_of "HouseholdIncome" (columns m) = Some i →
  index_of "VotedCoalition" (columns m) = Some j →
  Forall (λ r, pd.isna (nth_cell j r) = false) (rows m) →
  mar_test s = if decide (rows m = []) then Raise ValueError else Ok ((), s).
Proof.
  intros Hm Hi Hj Hall. unfold mar_test.
  rewrite (bind_ok _ _ _ _ _ (read_ok _ _ _ Hm)).
  rewrite (getitem_Some _ _ _ Hi).
  unfold mbind at 1, M_bind at 1. cbn [lift].
  rewrite (bind_ok _ _ _ _ _ (read_ok _ _ _ Hm)).
  rewrite (getitem_Some _ _ _ Hj).
  unfold mbind at 1, M_bind at 1. cbn [lift].
  rewrite chi2_crosstab.
  destruct (rows m) as [|r rs] eqn:Hrows.
  - by rewrite !decide_True.
  - apply Forall_cons in Hall as [Hr _].
    rewrite decide_False, decide_False; [done|done|].
    cbn [fmap list_fmap zip zip_with]. rewrite filter_cons, decide_True; done.
Qed.

Lemma translated_coalition raw :
  Forall (λ r, pd.isna (nth_cell 17 r) = false)
    (rows (translated exclusion_rules (post_collapse raw))).
Proof.
  unfold translated. cbn [rows]. rewrite Forall_fmap. apply Forall_forall.
  intros r Hr. unfold compose.
  rewrite (translate_row_cell _ _ r "VotedCoalition" 17);
    [|by apply (post_collapse_row_length raw)|done].
  rewrite coalition_has_no_rule.
  destruct (post_collapse_coalition raw r Hr) as (k & Hk & _).
  rewrite (cell_at_final r "VotedCoalition" 17) in Hk;
    [|by apply (post_collapse_row_length raw)|done].
  injection Hk as ->. done.
Qed.

(** The store after line 192, from the raw table. *)
Lemma indicators_ok raw :
  columns_to_keep ⊆ columns raw →
  ∃ s3 ind,
    exec (project_and_rename;; coalition_collapse;; sentinel_translation;;
          missing_indicators) (init raw) = Ok s3 ∧
    (∀ k : M unit,
       exec (project_and_rename;; coalition_collapse;; sentinel_translation;;
             missing_indicators;; k) (init raw) = exec k s3) ∧
    frame_of s3 "df" = Some raw ∧
    frame_of s3 "df_selected" = Some (post_collapse raw) ∧
    frame_of s3 "df_missing" = Some (translated exclusion_rules (post_collapse raw)) ∧
    frame_of s3 "missing_indicators" = Some ind ∧
    ind = pd.set_column "VotedCoalition"
            (nth_cell 17 <$> rows (translated exclusion_rules (post_collapse raw)))
            (mkFrame ((λ col, col +:+ "_missing") <$> final_columns)
               (rows (pd_isna_int (translated exclusion_rules (post_collapse raw))))) ∧
    stdout s3 = [].
Proof.
  intros Hsub.
  destruct (collapse_ok raw Hsub) as (s1 & _ & Hsel1 & Hdf1 & Hout1 & Hrun1).
  pose proof (sentinel_translation_with_ok exclusion_rules s1 (post_collapse raw) Hsel1
                exclusion_rules_columns) as Hrun2.
  fold (translated exclusion_rules (post_collapse raw)) in Hrun2.
  set (m := translated exclusion_rules (post_collapse raw)) in *.
  set (s2 := rebind "df_missing" m s1) in *.
  assert (extends ["df_missing"] s1 s2) as Hext2 by (apply extends_rebind; by left).
  assert (index_of "VotedCoalition" (columns m) = Some 17%nat) as Hj by reflexivity.
  pose proof (missing_indicators_ok s2 m 17 (frame_of_rebind_eq _ _ _) Hj) as Hrun3.
  set (ind := pd.set_column _ _ _) in Hrun3.
  set (s3 := rebind "missing_indicators" ind s2) in *.
  assert (extends ["missing_indicators"] s2 s3) as Hext3
    by (apply extends_rebind; by left).
  exists s3, ind. split; [|split; [|split; [|split; [|split; [|split; [|split]]]]]].
  - rewrite Hrun1. unfold sentinel_translation.
    rewrite (exec_seq _ _ _ _ Hrun2). by apply exec_ok.
  - intros k. rewrite Hrun1. unfold sentinel_translation.
    rewrite (exec_seq _ _ _ _ Hrun2). by rewrite (exec_seq _ _ _ _ Hrun3).
  - apply (extends_frame _ _ _ _ _ Hext3); [by intros [=]%list_elem_of_singleton|].
    apply (extends_frame _ _ _ _ _ Hext2); [by intros [=]%list_elem_of_singleton|].
    done.
  - apply (extends_frame _ _ _ _ _ Hext3); [by intros [=]%list_elem_of_singleton|].
    apply (extends_frame _ _ _ _ _ Hext2); [by intros [=]%list_elem_of_singleton|].
    done.
  - apply (extends_frame _ _ _ _ _ Hext3); [by intros [=]%list_elem_of_singleton|].
    apply frame_of_rebind_eq.
  - apply frame_of_rebind_eq.
  - done.
  - done.
Qed.

(** Lines 195-229 on the store after line 192: the test of line 213 stops the
    script when the coalition stage left no row, and nothing else does. *)
Lemma test_and_filter raw s3 ind :
  frame_of s3 "df_selected" = Some (post_collapse raw) →
  frame_of s3 "df_missing" = Some (translated exclusion_rules (post_collapse raw)) →
  frame_of s3 "missing_indicators" = Some ind →
  "VotedCoalition" ∈ columns ind →
  (rows (post_collapse raw) = [] →
   exec (missing_rates;; mar_test;; completeness_filter) s3 = Raise ValueError) ∧
  (rows (post_collapse raw) ≠ [] →
   ∃ s,
     exec (missing_rates;; mar_test;; completeness_filter) s3 = Ok s ∧
     extends ["df_selected"; "df_filtered"] s3 s ∧
     frame_of s "df_filtered" = Some (filtered exclusion_rules (post_collapse raw)) ∧
     frame_of s "df_selected" = Some (filtered exclusion_rules (post_collapse raw)) ∧
     stdout s = stdout s3 ++
                filter_report final_columns exclusion_rules (rows (post_collapse raw))).
Proof.
  intros Hsel Hm Hind Hcol.
  pose proof (missing_rates_ok s3 ind Hind Hcol) as Hrates.
  pose proof (mar_test_ok s3 _ 3 17 Hm eq_refl eq_refl (translated_coalition raw)) as Htest.
  assert (rows (translated exclusion_rules (post_collapse raw)) = [] ↔
          rows (post_collapse raw) = []) as Hempty.
  { unfold translated. cbn [rows]. split; [apply fmap_nil_inv|by intros ->]. }
  split.
  - intros Hnil. rewrite (exec_seq _ _ _ _ Hrates).
    apply exec_seq_raise. rewrite Htest, decide_True; [done|by apply Hempty].
  - intros Hne. rewrite decide_False in Htest by (by rewrite Hempty).
    destruct (completeness_filter_with_ok exclusion_rules s3 _ Hsel exclusion_rules_columns)
      as (s & Hrun & Hext & Hf & Hsame & Hout).
    exists s. split; [|split; [done|split; [done|split; [by rewrite Hsame|done]]]].
    rewrite (exec_seq _ _ _ _ Hrates), (exec_seq _ _ _ _ Htest).
    by apply exec_ok.
Qed.

Lemma indicator_has_coalition (cols : list string) s d :
  "VotedCoalition" ∈
    columns (pd.set_column "VotedCoalition" s
               (mkFrame ((λ col, col +:+ "_missing") <$> cols) d)).
Proof.
  unfold pd.set_column. cbn [columns]. rewrite no_indicator_is_the_target.
  cbn [columns]. apply elem_of_app. right. left.
Qed.

(** ** The whole wrangling *)

Lemma wrangle_steps raw :
  columns_to_keep ⊆ columns raw →
  (rows (post_collapse raw) = [] → exec wrangle (init raw) = Raise ValueError) ∧
  (rows (post_collapse raw) ≠ [] →
   ∃ s,
     exec wrangle (init raw) = Ok s ∧
     frame_of s "df" = Some raw ∧
     frame_of s "df_filtered" = Some (filtered exclusion_rules (post_collapse raw)) ∧
     frame_of s "df_selected" = Some (filtered exclusion_rules (post_collapse raw)) ∧
     frame_of s "df_missing" = Some (translated exclusion_rules (post_collapse raw)) ∧
     stdout s = filter_report final_columns exclusion_rules (rows (post_collapse raw))).
Proof.
  intros Hsub.
  destruct (indicators_ok raw Hsub)
    as (s3 & ind & _ & Hrun & Hdf & Hsel & Hm & Hind & Heq & Hout).
  assert ("VotedCoalition" ∈ columns ind) as Hcol.
  { rewrite Heq. apply indicator_has_coalition. }
  destruct (test_and_filter raw s3 ind Hsel Hm Hind Hcol) as [Hnil Hne].
  unfold wrangle. rewrite Hrun. split; [done|].
  intros Hrows. destruct (Hne Hrows) as (s & Hrun' & Hext & Hf & Hsel' & Hout').
  exists s. split; [done|]. split; [|split; [done|split; [done|split]]].
  - apply (extends_frame _ _ _ _ _ Hext); [|done].
    rewrite !elem_of_cons, elem_of_nil. by intros [[=]|[[=]|[]]].
  - apply (extends_frame _ _ _ _ _ Hext); [|done].
    rewrite !elem_of_cons, elem_of_nil. by intros [[=]|[[=]|[]]].
  - by rewrite Hout', Hout.
Qed.

Lemma wrangle_ok raw :
  columns_to_keep ⊆ columns raw →
  rows (post_collapse raw) ≠ [] →
  ∃ s,
    exec wrangle (init raw) = Ok s ∧
    frame_of s "df" = Some raw ∧
    frame_of s "df_filtered" = Some (filtered exclusion_rules (post_collapse raw)) ∧
    frame_of s "df_selected" = Some (filtered exclusion_rules (post_collapse raw)) ∧
    frame_of s "df_missing" = Some (translated exclusion_rules (post_collapse raw)) ∧
    stdout s = filter_report final_columns exclusion_rules (rows (post_collapse raw)).
Proof. intros Hsub. by apply wrangle_steps. Qed.

Lemma wrangle_no_voter raw :
  columns_to_keep ⊆ columns raw →
  rows (post_collapse raw) = [] →
  exec wrangle (init raw) = Raise ValueError.
Proof. intros Hsub. by apply wrangle_steps. Qed.

Lemma wrangle_Ok_inv raw s :
  exec wrangle (init raw) = Ok s →
  columns_to_keep ⊆ columns raw ∧
  rows (post_collapse raw) ≠ [] ∧
  frame_of s "df_filtered" = Some (filtered exclusion_rules (post_collapse raw)).
Proof.
  intros Hrun.
  destruct (decide (filter (λ c, c ∉ columns raw) columns_to_keep = [])) as [Hsub|Hsub].
  - apply missing_nil in Hsub. split; [done|].
    destruct (decide (rows (post_collapse raw) = [])) as [Hnil|Hne].
    + by rewrite (wrangle_no_voter raw Hsub Hnil) in Hrun.
    + split; [done|].
      destruct (wrangle_ok raw Hsub Hne) as (s' & Hrun' & _ & Hout & _). congruence.
  - rewrite missing_nil in Hsub. rewrite (wrangle_raise raw Hsub) in Hrun. done.
Qed.

(** * The claims *)

(** C1 (completeness invariant).  When the raw table has the selected
    columns and a respondent with a classifiable party, so that the test of
    line 213 has data, the script ends normally and every row of
    [df_filtered] holds,
    in every column of [exclusion_rules], a value that is none of the missing
    codes declared for that column. *)
Theorem completeness_invariant raw :
  columns_to_keep ⊆ columns raw →
  rows (post_collapse raw) ≠ [] →
  ∃ s out,
    exec wrangle (init raw) = Ok s ∧
    frame_of s "df_filtered" = Some out ∧
    ∀ r c values,
      r ∈ rows out → (c, values) ∈ exclusion_rules →
      ∃ v, cell_at (columns out) r c = Some v ∧ ∀ z, z ∈ values → v ≠ Num z.
Proof.
  intros Hsub Hvoter.
  destruct (wrangle_ok raw Hsub Hvoter) as (s & Hrun & _ & Hout & _).
  exists s, (filtered exclusion_rules (post_collapse raw)).
  split; [done|]. split; [done|].
  intros r c values [Hr Hcomplete]%filtered_rows Hrule.
  rewrite post_collapse_columns in Hcomplete.
  pose proof (complete_rule _ _ _ _ Hcomplete Hrule) as Hclean.
  pose proof exclusion_rules_columns as Hcols.
  rewrite Forall_forall in Hcols. apply Hcols in Hrule as Hc. cbn in Hc.
  apply index_of_is_Some in Hc as [i Hi].
  apply post_collapse_row_length in Hr.
  exists (nth_cell i r). cbn [columns filtered]. rewrite post_collapse_columns.
  split; [by apply cell_at_final|].
  apply cell_in_false. by rewrite <- (sentinel_in_index final_columns r c values i).
Qed.

Lemma completeness_invariant_witness :
  columns_to_keep ⊆ columns raw_example ∧
  rows (post_collapse raw_example) ≠ [] ∧
  ∃ s out,
    exec wrangle (init raw_example) = Ok s ∧
    frame_of s "df_filtered" = Some out ∧
    ∀ r c values,
      r ∈ rows out → (c, values) ∈ exclusion_rules →
      ∃ v, cell_at (columns out) r c = Some v ∧ ∀ z, z ∈ values → v ≠ Num z.
Proof.
  assert (columns_to_keep ⊆ columns raw_example) as Hsub.
  { apply missing_nil. vm_compute. reflexivity. }
  assert (rows (post_collapse raw_example) ≠ []) as Hvoter.
  { apply (bool_decide_unpack _). vm_compute. exact I. }
  split; [exact Hsub|]. split; [exact Hvoter|].
  exact (completeness_invariant raw_example Hsub Hvoter).
Defined.

(** C2 (coalition resolved).  After the coalition stage, and in the clean
    output, the [VotedCoalition] of every row is one of the four coalition
    codes, named CSX, M5S, TerzoPolo or CDX by [label_names]; no row is left
    with a missing coalition.  The clean output exists when the coalition
    stage leaves a row: without one the test of line 213 stops the script. *)
Theorem coalition_resolved raw :
  columns_to_keep ⊆ columns raw →
  rows (post_collapse raw) ≠ [] →
  ∃ s1 d s out,
    exec (project_and_rename;; coalition_collapse) (init raw) = Ok s1 ∧
    frame_of s1 "df_selected" = Some d ∧
    exec wrangle (init raw) = Ok s ∧
    frame_of s "df_filtered" = Some out ∧
    (∀ r, r ∈ rows d → resolved (columns d) r) ∧
    (∀ r, r ∈ rows out → resolved (columns out) r).
Proof.
  intros Hsub Hvoter.
  destruct (collapse_ok raw Hsub) as (s1 & Hrun1 & Hsel1 & _).
  destruct (wrangle_ok raw Hsub Hvoter) as (s & Hrun & _ & Hout & _).
  exists s1, (post_collapse raw), s, (filtered exclusion_rules (post_collapse raw)).
  do 4 (split; [done|]). split.
  - intros r Hr. by apply post_collapse_resolved with raw.
  - intros r [Hr _]%filtered_rows. by apply post_collapse_resolved with raw.
Qed.

Lemma coalition_resolved_witness :
  columns_to_keep ⊆ columns raw_example ∧
  rows (post_collapse raw_example) ≠ [] ∧
  ∃ s1 d s out,
    exec (project_and_rename;; coalition_collapse) (init raw_example) = Ok s1 ∧
    frame_of s1 "df_selected" = Some d ∧
    exec wrangle (init raw_example) = Ok s ∧
    frame_of s "df_filtered" = Some out ∧
    (∀ r, r ∈ rows d → resolved (columns d) r) ∧
    (∀ r, r ∈ rows out → resolved (columns out) r).
Proof.
  assert (columns_to_keep ⊆ columns raw_example) as Hsub.
  { apply missing_nil. vm_compute. reflexivity. }
  assert (rows (post_collapse raw_example) ≠ []) as Hvoter.
  { apply (bool_decide_unpack _). vm_compute. exact I. }
  split; [exact Hsub|]. split; [exact Hvoter|].
  exact (coalition_resolved raw_example Hsub Hvoter).
Defined.

(** C3, at the input on which the script departs from the stated policy.
    [assign_target] maps party 10 to coalition 1 (CSX), but a respondent with
    party 10 does not reach it: the selection of line 126 keeps the codes of
    [set(range(1, 10)) - {9}], which are 1 to 8, and the row is dropped. *)
Theorem party_10_is_dropped :
  assign_target (Num 10) = Some 1 ∧
  coalition_names !! 1 = Some "CSX" ∧
  (10 ∉ elements party_codes) ∧
  table_after (project_and_rename;; coalition_collapse) (init party10_table)
    "df_selected" = Some (mkFrame final_columns []).
Proof.
  split; [done|]. split; [done|]. split.
  - rewrite party_codes_spec. lia.
  - by vm_compute.
Qed.

(** The policy of the coalition stage on every other code: a row is kept if
    and only if its party is one of 1 to 8, and it then carries the coalition
    [assign_target] gives. *)
Lemma collapse_policy raw r' :
  r' ∈ rows (post_collapse raw) ↔
  ∃ r z,
    r ∈ rows (selected raw) ∧ nth_cell 16 r = Num z ∧ 1 ≤ z ≤ 8 ∧
    r' = pd.set_cell 17
           (Num (if decide (z = 2 ∨ z = 7 ∨ z = 8) then 1
                 else if decide (z = 1 ∨ z = 4 ∨ z = 5) then 4
                 else if decide (z = 3) then 2 else 3)) r.
Proof.
  rewrite post_collapse_rows. split.
  - intros (r & Hr & (z & Hz & Hrange)%classifiable_spec & ->).
    exists r, z. do 3 (split; [done|]).
    unfold with_coalition, coalition_cell. rewrite Hz, assign_target_policy.
    repeat case_decide; (done || lia).
  - intros (r & z & Hr & Hz & Hrange & ->). exists r. split; [done|]. split.
    + apply classifiable_spec. by exists z.
    + unfold with_coalition, coalition_cell. rewrite Hz, assign_target_policy.
      repeat case_decide; (done || lia).
Qed.

(** C4 (order invariance).  For every store and every reordering of the
    rules, the exclusion loop leaves the same table in [df_filtered], or
    raises in both orders; it does end normally whenever [df_selected] has
    the columns of the rules. *)
Theorem filter_order_invariance rules rules' s :
  rules ≡ₚ rules' →
  table_after (completeness_filter_with rules) s "df_filtered" =
  table_after (completeness_filter_with rules') s "df_filtered" ∧
  (∀ d, frame_of s "df_selected" = Some d →
        Forall (λ rule, rule.1 ∈ columns d) rules →
        is_Some (table_after (completeness_filter_with rules) s "df_filtered")).
Proof.
  intros Hp. split.
  - by apply filter_order_invariant.
  - intros d Hd Hcols.
    destruct (completeness_filter_with_ok rules s d Hd Hcols)
      as (s1 & Hrun & _ & Hf & _).
    rewrite (table_after_ok _ _ _ _ Hrun), Hf. by eexists.
Qed.

Lemma filter_order_invariance_witness :
  two_rules ≡ₚ two_rules_swapped ∧
  table_after (completeness_filter_with two_rules) small_store "df_filtered" =
  table_after (completeness_filter_with two_rules_swapped) small_store "df_filtered" ∧
  table_after (completeness_filter_with two_rules) small_store "df_filtered" =
    Some (mkFrame ["Gender"; "HouseholdIncome"] [mkRow 2 [Num 2; Num 6]]).
Proof.
  assert (two_rules ≡ₚ two_rules_swapped) as Hp by apply perm_swap.
  split; [exact Hp|]. split.
  - exact (proj1 (filter_order_invariance two_rules two_rules_swapped small_store Hp)).
  - vm_compute. reflexivity.
Defined.

(** The lines printed do depend on the order. *)
Example filter_report_depends_on_order :
  stdout <$> (match exec (completeness_filter_with two_rules) small_store with
              | Ok s => Some s | Raise _ => None end) =
    Some [("HouseholdIncome", 2%nat); ("Gender", 1%nat)] ∧
  stdout <$> (match exec (completeness_filter_with two_rules_swapped) small_store with
              | Ok s => Some s | Raise _ => None end) =
    Some [("Gender", 2%nat); ("HouseholdIncome", 1%nat)].
Proof. split; by vm_compute. Qed.

Lemma filter_report_cons cols rule rules rs :
  filter_report cols (rule :: rules) rs =
    (rule.1, length (filter (λ r, sentinel_in cols r rule = false) rs))
      :: filter_report cols rules (filter (λ r, sentinel_in cols r rule = false) rs).
Proof. done. Qed.

Lemma filter_report_bound cols rules : ∀ rs c n,
  (c, n) ∈ filter_report cols rules rs →
  (length (filter (λ r, complete cols rules r = true) rs) ≤ n)%nat.
Proof.
  induction rules as [|rule rules IH]; intros rs c n Hin.
  - by apply elem_of_nil in Hin.
  - rewrite filter_report_cons in Hin. rewrite <- filter_complete_cons.
    apply elem_of_cons in Hin as [[= -> ->]|Hin].
    + apply length_filter.
    + by apply (IH _ c).
Qed.

(** C5, as the script has it.  The script has no check for an empty table.
    When the raw table has the selected columns and the coalition stage
    leaves a row, the run ends normally and leaves a table in [df_filtered];
    if a step of the exclusion loop leaves no row, that table has no row.
    When the coalition stage leaves no row the run stops before the exclusion
    loop, on no check of the table: the test of line 213 refuses a table of
    counts without data and raises a ValueError. *)
Theorem empty_table_is_emitted raw :
  columns_to_keep ⊆ columns raw →
  ∃ s1 d,
    exec (project_and_rename;; coalition_collapse) (init raw) = Ok s1 ∧
    frame_of s1 "df_selected" = Some d ∧
    (rows d = [] → exec wrangle (init raw) = Raise ValueError) ∧
    (rows d ≠ [] →
     ∃ s out,
       exec wrangle (init raw) = Ok s ∧
       frame_of s "df_filtered" = Some out ∧
       ((∃ c, (c, 0%nat) ∈ stdout s) → rows out = [])).
Proof.
  intros Hsub.
  destruct (collapse_ok raw Hsub) as (s1 & Hrun1 & Hsel1 & _).
  exists s1, (post_collapse raw). do 2 (split; [done|]). split.
  - by apply wrangle_no_voter.
  - intros Hvoter.
    destruct (wrangle_ok raw Hsub Hvoter) as (s & Hrun & _ & Hout & _ & _ & Hprint).
    exists s, (filtered exclusion_rules (post_collapse raw)).
    do 2 (split; [done|]).
    unfold filtered. cbn [rows]. rewrite post_collapse_columns.
    intros [c Hc]. rewrite Hprint in Hc. apply filter_report_bound in Hc.
    apply length_zero_iff_nil. lia.
Qed.

Lemma empty_table_is_emitted_witness :
  columns_to_keep ⊆ columns all_excluded_table ∧
  ∃ s1 d,
    exec (project_and_rename;; coalition_collapse) (init all_excluded_table) = Ok s1 ∧
    frame_of s1 "df_selected" = Some d ∧
    (rows d = [] → exec wrangle (init all_excluded_table) = Raise ValueError) ∧
    (rows d ≠ [] →
     ∃ s out,
       exec wrangle (init all_excluded_table) = Ok s ∧
       frame_of s "df_filtered" = Some out ∧
       ((∃ c, (c, 0%nat) ∈ stdout s) → rows out = [])).
Proof.
  assert (columns_to_keep ⊆ columns all_excluded_table) as Hsub.
  { apply missing_nil. vm_compute. reflexivity. }
  split; [exact Hsub|]. exact (empty_table_is_emitted all_excluded_table Hsub).
Defined.

(** C5 as stated fails: the one respondent of this table has a classifiable
    party and a missing income.  The coalition stage keeps the row, the
    exclusion loop leaves none, and the run raises nothing: it leaves the
    empty table in [df_filtered]. *)
Lemma empty_result_is_not_raised :
  length <$> (rows <$> table_after (project_and_rename;; coalition_collapse)
                         (init all_excluded_table) "df_selected") = Some 1%nat ∧
  (∀ e, exec wrangle (init all_excluded_table) ≠ Raise e) ∧
  table_after wrangle (init all_excluded_table) "df_filtered" =
    Some (mkFrame final_columns []).
Proof.
  split; [by vm_compute|]. split; [|by vm_compute].
  intros e He. vm_compute in He. discriminate He.
Qed.

(** On a table without a classifiable party the run does stop, at line 213. *)
Example no_voter_stops_at_the_test :
  table_after (project_and_rename;; coalition_collapse) (init no_voter_table)
    "df_selected" = Some (mkFrame final_columns []) ∧
  exec wrangle (init no_voter_table) = Raise ValueError.
Proof. split; by vm_compute. Qed.

(** C10 (the first exclusion step).  Every row the coalition stage leaves has
    a party code from 1 to 8, so the first step of the exclusion loop, on the
    missing codes of [VotedParty], removes no row: the first line printed
    gives the number of rows after the coalition stage.  The loop is reached
    when the coalition stage leaves a row. *)
Theorem first_exclusion_removes_nothing raw :
  columns_to_keep ⊆ columns raw →
  rows (post_collapse raw) ≠ [] →
  ∃ s1 d s rest,
    exec (project_and_rename;; coalition_collapse) (init raw) = Ok s1 ∧
    frame_of s1 "df_selected" = Some d ∧
    (∀ r, r ∈ rows d →
          ∃ z, cell_at (columns d) r "VotedParty" = Some (Num z) ∧ 1 ≤ z ≤ 8) ∧
    exec wrangle (init raw) = Ok s ∧
    stdout s = ("VotedParty", length (rows d)) :: rest.
Proof.
  intros Hsub Hvoter.
  destruct (collapse_ok raw Hsub) as (s1 & Hrun1 & Hsel1 & _).
  destruct (wrangle_ok raw Hsub Hvoter) as (s & Hrun & _ & _ & _ & _ & Hprint).
  exists s1, (post_collapse raw), s. eexists.
  do 2 (split; [done|]). split; [|split; [done|]].
  - intros r Hr. by apply (post_collapse_party raw).
  - rewrite Hprint. unfold exclusion_rules at 1. rewrite filter_report_cons.
    cbn [fst]. rewrite filter_true; [reflexivity|].
    apply Forall_forall. intros r Hr.
    pose proof (post_collapse_row_length raw r Hr) as Hlen.
    destruct (post_collapse_party raw r Hr) as (z & Hz & Hrange).
    unfold sentinel_in. cbn [fst snd]. rewrite Hz. cbn.
    apply bool_decide_eq_false. rewrite !elem_of_cons, elem_of_nil. lia.
Qed.

Lemma first_exclusion_removes_nothing_witness :
  columns_to_keep ⊆ columns raw_example ∧
  rows (post_collapse raw_example) ≠ [] ∧
  ∃ s1 d s rest,
    exec (project_and_rename;; coalition_collapse) (init raw_example) = Ok s1 ∧
    frame_of s1 "df_selected" = Some d ∧
    (∀ r, r ∈ rows d →
          ∃ z, cell_at (columns d) r "VotedParty" = Some (Num z) ∧ 1 ≤ z ≤ 8) ∧
    exec wrangle (init raw_example) = Ok s ∧
    stdout s = ("VotedParty", length (rows d)) :: rest.
Proof.
  assert (columns_to_keep ⊆ columns raw_example) as Hsub.
  { apply missing_nil. vm_compute. reflexivity. }
  assert (rows (post_collapse raw_example) ≠ []) as Hvoter.
  { apply (bool_decide_unpack _). vm_compute. exact I. }
  split; [exact Hsub|]. split; [exact Hvoter|].
  exact (first_exclusion_removes_nothing raw_example Hsub Hvoter).
Defined.

(** ** Selection and renaming, cell by cell *)

Lemma not_subseteq_missing (cs cols : list string) :
  ¬ cs ⊆ cols ↔ ∃ c, c ∈ cs ∧ c ∉ cols.
Proof.
  split.
  - intros Hsub. rewrite <- missing_nil in Hsub.
    destruct (filter (λ c, c ∉ cols) cs) as [|c l] eqn:E; [done|].
    assert (c ∈ filter (λ c, c ∉ cols) cs) as Hc by (rewrite E; left).
    apply list_elem_of_filter in Hc as [Hn Hc]. by exists c.
  - intros (c & Hc & Hn) Hsub. by apply Hn, Hsub.
Qed.

Lemma renamed_index c :
  c ∈ columns_to_keep →
  index_of (default c (column_mapping !! c)) renamed_columns =
  index_of c columns_to_keep.
Proof.
  intros Hc. unfold columns_to_keep in Hc.
  repeat (apply elem_of_cons in Hc as [->|Hc]; [by vm_compute|]).
  by apply elem_of_nil in Hc.
Qed.

Lemma wf_cell_at raw r c :
  wf_frame raw → r ∈ rows raw → c ∈ columns raw →
  ∃ v, cell_at (columns raw) r c = Some v.
Proof.
  intros [_ Hw] Hr [i Hi]%index_of_is_Some.
  rewrite Forall_forall in Hw. exists (nth_cell i r).
  apply cell_at_nth_cell; [done|]. rewrite (Hw r Hr). by eapply index_of_lt.
Qed.

Lemma take_cell raw r c :
  c ∈ columns_to_keep →
  cell_at renamed_columns
    (mkRow (label r)
       ((λ c, default NaN (cell_at (columns raw) r c)) <$> columns_to_keep))
    (default c (column_mapping !! c)) =
  Some (default NaN (cell_at (columns raw) r c)).
Proof.
  intros Hc. apply index_of_is_Some in Hc as Hk. destruct Hk as [k Hk].
  rewrite (cell_at_index _ _ _ k) by (by rewrite renamed_index).
  cbn [cells]. rewrite list_lookup_fmap. by rewrite (index_of_Some _ _ _ Hk).
Qed.

(** C6 (selection and renaming).  On a table as read_csv gives it, lines 69
    and 97 leave in [df_selected] a new table with exactly the selected
    columns under their new names, the rows in their order and with their
    cells, and leave [df] as it was; they raise a KeyError, and bind nothing,
    if and only if a selected column is not in the raw table. *)
Theorem projection_and_rename s raw :
  frame_of s "df" = Some raw →
  wf_frame raw →
  (columns_to_keep ⊆ columns raw →
   ∃ s' out,
     exec project_and_rename s = Ok s' ∧
     frame_of s' "df_selected" = Some out ∧
     frame_of s' "df" = Some raw ∧
     columns out = (λ c, default c (column_mapping !! c)) <$> columns_to_keep ∧
     length (rows out) = length (rows raw) ∧
     ∀ i r, rows raw !! i = Some r →
       ∃ r', rows out !! i = Some r' ∧
             label r' = label r ∧
             length (cells r') = length columns_to_keep ∧
             ∀ c, c ∈ columns_to_keep →
               cell_at (columns out) r' (default c (column_mapping !! c)) =
               cell_at (columns raw) r c) ∧
  ((∃ c, c ∈ columns_to_keep ∧ c ∉ columns raw) ↔
   ∃ e, exec project_and_rename s = Raise e) ∧
  ((∃ c, c ∈ columns_to_keep ∧ c ∉ columns raw) →
   exec project_and_rename s =
     Raise (KeyError (filter (λ c, c ∉ columns raw) columns_to_keep))).
Proof.
  intros Hraw Hwf. split; [|split].
  - intros Hsub.
    destruct (project_and_rename_ok s raw Hraw Hsub) as (s' & Hrun & Hext & _ & Hsel).
    exists s', (selected raw).
    split; [by apply exec_ok|]. split; [done|]. split.
    { apply (extends_frame _ _ _ _ _ Hext); [|done].
      by intros [=]%list_elem_of_singleton. }
    split; [done|]. split.
    { unfold selected, pd.take. cbn [rows]. by rewrite length_fmap. }
    intros i r Hr. eexists. split.
    { unfold selected, pd.take. cbn [rows]. rewrite list_lookup_fmap, Hr. done. }
    split; [done|]. split; [done|].
    intros c Hc. cbn [columns selected]. rewrite take_cell by done.
    destruct (wf_cell_at raw r c Hwf) as [v Hv].
    + by eapply list_elem_of_lookup_2.
    + by apply Hsub.
    + by rewrite Hv.
  - rewrite <- not_subseteq_missing. split.
    + intros Hsub. eexists. apply exec_raise. by apply project_and_rename_raise.
    + intros [e He] Hsub.
      destruct (project_and_rename_ok s raw Hraw Hsub) as (s' & Hrun & _).
      apply exec_ok in Hrun. congruence.
  - intros Hsub%not_subseteq_missing.
    apply exec_raise. by apply project_and_rename_raise.
Qed.

Lemma projection_and_rename_witness :
  frame_of (init raw_example) "df" = Some raw_example ∧
  wf_frame raw_example ∧
  columns_to_keep ⊆ columns raw_example ∧
  ∃ s' out,
    exec project_and_rename (init raw_example) = Ok s' ∧
    frame_of s' "df_selected" = Some out ∧
    frame_of s' "df" = Some raw_example ∧
    columns out = (λ c, default c (column_mapping !! c)) <$> columns_to_keep ∧
    length (rows out) = length (rows raw_example) ∧
    ∀ i r, rows raw_example !! i = Some r →
      ∃ r', rows out !! i = Some r' ∧
            label r' = label r ∧
            length (cells r') = length columns_to_keep ∧
            ∀ c, c ∈ columns_to_keep →
              cell_at (columns out) r' (default c (column_mapping !! c)) =
              cell_at (columns raw_example) r c.
Proof.
  assert (frame_of (init raw_example) "df" = Some raw_example) as Hraw
    by reflexivity.
  assert (wf_frame raw_example) as Hwf.
  { split; apply (bool_decide_unpack _); vm_compute; exact I. }
  assert (columns_to_keep ⊆ columns raw_example) as Hsub.
  { apply missing_nil. vm_compute. reflexivity. }
  split; [exact Hraw|]. split; [exact Hwf|]. split; [exact Hsub|].
  exact (proj1 (projection_and_rename (init raw_example) raw_example Hraw Hwf) Hsub).
Defined.

(** The error case of C6 at a table without the survey columns. *)
Example projection_raises_KeyError :
  exec project_and_rename (init (mkFrame ["agea"; "gndr"] [mkRow 0 [Num 40; Num 1]])) =
    Raise (KeyError ["eisced"; "hinctnta"; "region"; "emplrel"; "mbtru";
                     "polintr"; "lrscale"; "stfdem"; "trstep"; "rlgdgr";
                     "imwbcnt"; "nwspol"; "freehms"; "eqpaybg"; "prtvteit"]).
Proof. by vm_compute. Qed.

(** ** The translated table, cell by cell *)

Lemma listed_sentinel (rules : list (string * list Z)) c v :
  existsb (λ rule, bool_decide (rule.1 = c) && cell_in v rule.2) rules = true ↔
  ∃ values, (c, values) ∈ rules ∧ cell_in v values = true.
Proof.
  induction rules as [|[c' values'] rules IH]; cbn.
  - split; [done|]. intros (values & Hin & _). by apply elem_of_nil in Hin.
  - rewrite orb_true_iff, andb_true_iff, bool_decide_eq_true, IH. split.
    + intros [[-> Hv]|(values & Hin & Hv)].
      * exists values'. split; [left|done].
      * exists values. split; [by right|done].
    + intros (values & [[= -> ->]|Hin]%elem_of_cons & Hv).
      * by left.
      * right. by exists values.
Qed.

Lemma translated_cell cols rules r c v :
  length (cells r) = length cols →
  cell_at cols r c = Some v →
  cell_at cols (translate_row cols rules r) c =
    Some (if existsb (λ rule, bool_decide (rule.1 = c) && cell_in v rule.2) rules
          then NaN else v).
Proof.
  intros Hlen Hv. unfold cell_at in Hv.
  destruct (index_of c cols) as [i|] eqn:Hi; [|done]. cbn in Hv.
  assert (nth_cell i r = v) as Hnth by (unfold nth_cell; by rewrite Hv).
  rewrite (cell_at_nth_cell _ _ _ i Hi).
  - by rewrite (translate_row_cell _ _ _ c i Hlen Hi), Hnth.
  - rewrite translate_row_length by done. by eapply index_of_lt.
Qed.

(** C7 (the translation is pure).  For any rules whose columns the table has,
    lines 183-185 end normally, change no object of the store they start from
    and rebind no name but [df_missing]; [df_selected] is the table it was.
    The new table [df_missing] has the same columns and rows, with NaN in every
    cell that held a missing code of its column, and every other cell, in a
    listed column or not, as it was.  The numbers of the table are taken to
    be numbers a float64 holds exactly, integers up to 2^53 in absolute
    value: pandas stores the column of a replaced code as float64, and a
    larger integer would be rounded there. *)
Theorem translation_is_pure rules s d :
  frame_of s "df_selected" = Some d →
  width (length (columns d)) (rows d) →
  exact_table d →
  Forall (λ rule, rule.1 ∈ columns d) rules →
  ∃ s' m,
    exec (sentinel_translation_with rules) s = Ok s' ∧
    (∀ l e, heap s !! l = Some e → heap s' !! l = Some e) ∧
    (∀ x, x ≠ "df_missing" → env s' !! x = env s !! x) ∧
    frame_of s' "df_selected" = Some d ∧
    frame_of s' "df_missing" = Some m ∧
    columns m = columns d ∧
    length (rows m) = length (rows d) ∧
    ∀ i r, rows d !! i = Some r →
      ∃ r', rows m !! i = Some r' ∧
            label r' = label r ∧
            ∀ c v, cell_at (columns d) r c = Some v →
              ((∃ values, (c, values) ∈ rules ∧ cell_in v values = true) →
               cell_at (columns m) r' c = Some NaN) ∧
              ((∀ values, (c, values) ∉ rules) →
               cell_at (columns m) r' c = Some v) ∧
              ((∀ values, (c, values) ∈ rules → cell_in v values = false) →
               cell_at (columns m) r' c = Some v).
Proof.
  intros Hd Hw _ Hcols.
  pose proof (sentinel_translation_with_ok rules s d Hd Hcols) as Hrun.
  exists (rebind "df_missing" (translated rules d) s), (translated rules d).
  split; [by apply exec_ok|]. split; [|split; [|split; [|split; [|split; [|split]]]]].
  - intros l e Hl. cbn. by apply lookup_app_l_Some.
  - intros x Hx. cbn. by apply lookup_insert_ne.
  - apply (extends_frame ["df_missing"] s); [|by intros [=]%list_elem_of_singleton|done].
    apply extends_rebind. left.
  - apply frame_of_rebind_eq.
  - done.
  - unfold translated. cbn [rows]. by rewrite length_fmap.
  - intros i r Hr. exists (translate_row (columns d) rules r).
    split; [|split].
    + unfold translated. cbn [rows]. by rewrite list_lookup_fmap, Hr.
    + apply translate_row_label.
    + intros c v Hv. cbn [columns translated].
      assert (length (cells r) = length (columns d)) as Hlen.
      { unfold width in Hw. rewrite Forall_lookup in Hw. by apply (Hw i). }
      rewrite (translated_cell _ rules _ _ v Hlen Hv).
      destruct (existsb _ rules) eqn:E.
      * apply listed_sentinel in E as (values & Hin & Hv').
        split; [done|]. split.
        -- intros Hnot. by destruct (Hnot values).
        -- intros Hclean. rewrite (Hclean values Hin) in Hv'. done.
      * split; [|done]. intros Hex%listed_sentinel. congruence.
Qed.

Lemma translation_is_pure_witness :
  frame_of small_store "df_selected" = Some small_table ∧
  width (length (columns small_table)) (rows small_table) ∧
  exact_table small_table ∧
  Forall (λ rule, rule.1 ∈ columns small_table) two_rules ∧
  ∃ s' m,
    exec (sentinel_translation_with two_rules) small_store = Ok s' ∧
    (∀ l e, heap small_store !! l = Some e → heap s' !! l = Some e) ∧
    (∀ x, x ≠ "df_missing" → env s' !! x = env small_store !! x) ∧
    frame_of s' "df_selected" = Some small_table ∧
    frame_of s' "df_missing" = Some m ∧
    columns m = columns small_table ∧
    length (rows m) = length (rows small_table) ∧
    ∀ i r, rows small_table !! i = Some r →
      ∃ r', rows m !! i = Some r' ∧
            label r' = label r ∧
            ∀ c v, cell_at (columns small_table) r c = Some v →
              ((∃ values, (c, values) ∈ two_rules ∧ cell_in v values = true) →
               cell_at (columns m) r' c = Some NaN) ∧
              ((∀ values, (c, values) ∉ two_rules) →
               cell_at (columns m) r' c = Some v) ∧
              ((∀ values, (c, values) ∈ two_rules → cell_in v values = false) →
               cell_at (columns m) r' c = Some v).
Proof.
  assert (frame_of small_store "df_selected" = Some small_table) as Hd
    by reflexivity.
  assert (width (length (columns small_table)) (rows small_table)) as Hw.
  { apply (bool_decide_unpack _). vm_compute. exact I. }
  assert (Forall (λ rule, rule.1 ∈ columns small_table) two_rules) as Hcols.
  { apply (bool_decide_unpack _). vm_compute. exact I. }
  assert (exact_table small_table) as Hexact.
  { apply (bool_decide_unpack _). vm_compute. exact I. }
  split; [exact Hd|]. split; [exact Hw|]. split; [exact Hexact|].
  split; [exact Hcols|].
  exact (translation_is_pure two_rules small_store small_table Hd Hw Hexact Hcols).
Defined.

(** The translation at the example: the two missing codes become NaN in
    [df_missing], and [df_selected] still holds them. *)
Example translation_example :
  table_after (sentinel_translation_with two_rules) small_store "df_missing" =
    Some (mkFrame ["Gender"; "HouseholdIncome"]
            [mkRow 0 [Num 1; NaN]; mkRow 1 [NaN; Num 4]; mkRow 2 [Num 2; Num 6]]) ∧
  table_after (sentinel_translation_with two_rules) small_store "df_selected" =
    Some small_table.
Proof. split; by vm_compute. Qed.

(** ** Counting the rows of the coalition stage *)

Lemma filter_fmap {A B} (f : A → B) (P : B → Prop) `{∀ y, Decision (P y)}
    (l : list A) :
  filter P (f <$> l) = f <$> filter (λ x, P (f x)) l.
Proof.
  induction l as [|x l IH]; [done|].
  rewrite fmap_cons, !filter_cons, IH. by case_decide.
Qed.

Lemma cell_in_party_codes v :
  cell_in v (elements party_codes) = cell_in v [1; 2; 3; 4; 5; 6; 7; 8].
Proof.
  destruct v as [z| |]; [|done..]. cbn. apply bool_decide_ext.
  rewrite party_codes_spec, !elem_of_cons, elem_of_nil. lia.
Qed.

Lemma selected_party raw r :
  nth_cell 16
    (mkRow (label r)
       ((λ c, default NaN (cell_at (columns raw) r c)) <$> columns_to_keep)) =
  party_of raw r.
Proof. done. Qed.

Lemma post_collapse_length raw :
  length (rows (post_collapse raw)) = count_party [1; 2; 3; 4; 5; 6; 7; 8] raw.
Proof.
  unfold post_collapse, collapsed, selected, pd.take, count_party.
  cbn [rows columns]. rewrite length_fmap, filter_fmap, length_fmap.
  f_equal. apply list_filter_iff. intros r. unfold classifiable.
  rewrite cell_in_party_codes. cbv beta. by rewrite selected_party.
Qed.

Lemma party_classes_exclusive v :
  (cell_in v [66; 77; 88; 99] = true →
   cell_in v [9] = false ∧ cell_in v [1; 2; 3; 4; 5; 6; 7; 8] = false) ∧
  (cell_in v [9] = true → cell_in v [1; 2; 3; 4; 5; 6; 7; 8] = false).
Proof.
  destruct v as [z| |]; [|done..]. cbn.
  rewrite !bool_decide_eq_true, !bool_decide_eq_false.
  rewrite !elem_of_cons, !elem_of_nil. lia.
Qed.

Lemma party_classes_count raw (rs : list Row) :
  (∀ r, r ∈ rs →
        cell_in (party_of raw r) [66; 77; 88; 99] = true ∨
        cell_in (party_of raw r) [9] = true ∨
        cell_in (party_of raw r) [1; 2; 3; 4; 5; 6; 7; 8] = true) →
  length rs =
    (length (filter (λ r, cell_in (party_of raw r) [66; 77; 88; 99]%Z = true) rs) +
     length (filter (λ r, cell_in (party_of raw r) [9]%Z = true) rs) +
     length (filter (λ r, cell_in (party_of raw r) [1; 2; 3; 4; 5; 6; 7; 8]%Z = true) rs))%nat.
Proof.
  induction rs as [|r rs IH]; intros Hall; [done|].
  rewrite !filter_cons.
  assert (∀ r', r' ∈ rs →
            cell_in (party_of raw r') [66; 77; 88; 99] = true ∨
            cell_in (party_of raw r') [9] = true ∨
            cell_in (party_of raw r') [1; 2; 3; 4; 5; 6; 7; 8] = true) as Hrs.
  { intros r' Hr'. apply Hall. by right. }
  specialize (IH Hrs).
  destruct (party_classes_exclusive (party_of raw r)) as [H1 H2].
  destruct (Hall r) as [Ha|[Hb|Hc]]; [left|..].
  - destruct (H1 Ha) as [Hb Hc].
    rewrite decide_True, !decide_False by congruence. cbn. lia.
  - specialize (H2 Hb).
    assert (cell_in (party_of raw r) [66; 77; 88; 99] ≠ true) as Ha.
    { intros Ha. destruct (H1 Ha). congruence. }
    rewrite decide_False, decide_True, decide_False by congruence. cbn. lia.
  - assert (cell_in (party_of raw r) [66; 77; 88; 99] ≠ true) as Ha.
    { intros Ha. destruct (H1 Ha). congruence. }
    assert (cell_in (party_of raw r) [9] ≠ true) as Hb.
    { intros Hb. specialize (H2 Hb). congruence. }
    rewrite !decide_False, decide_True by congruence. cbn. lia.
Qed.

(** C8, with what it leaves unsaid.  For a raw table of 1000 rows of which 50
    have a party in 66, 77, 88, 99 and 10 have party 9, and whose other rows
    have a party from 1 to 8, the coalition stage leaves 940 rows. *)
Theorem scenario_row_count raw :
  columns_to_keep ⊆ columns raw →
  length (rows raw) = 1000%nat →
  count_party [66; 77; 88; 99] raw = 50%nat →
  count_party [9] raw = 10%nat →
  (∀ r, r ∈ rows raw →
        cell_in (party_of raw r) [66; 77; 88; 99] = true ∨
        cell_in (party_of raw r) [9] = true ∨
        cell_in (party_of raw r) [1; 2; 3; 4; 5; 6; 7; 8] = true) →
  ∃ s1 d,
    exec (project_and_rename;; coalition_collapse) (init raw) = Ok s1 ∧
    frame_of s1 "df_selected" = Some d ∧
    length (rows d) = 940%nat.
Proof.
  intros Hsub Hlen H50 H10 Hall.
  destruct (collapse_ok raw Hsub) as (s1 & Hrun1 & Hsel1 & _).
  exists s1, (post_collapse raw). do 2 (split; [done|]).
  rewrite post_collapse_length.
  pose proof (party_classes_count raw (rows raw) Hall) as Hcount.
  unfold count_party in *. lia.
Qed.

Lemma scenario_row_count_witness :
  columns_to_keep ⊆ columns scenario_table ∧
  length (rows scenario_table) = 1000%nat ∧
  count_party [66; 77; 88; 99] scenario_table = 50%nat ∧
  count_party [9] scenario_table = 10%nat ∧
  ∃ s1 d,
    exec (project_and_rename;; coalition_collapse) (init scenario_table) = Ok s1 ∧
    frame_of s1 "df_selected" = Some d ∧
    length (rows d) = 940%nat.
Proof.
  assert (columns_to_keep ⊆ columns scenario_table) as Hsub.
  { apply missing_nil. vm_compute. reflexivity. }
  assert (length (rows scenario_table) = 1000%nat) as Hlen
    by (vm_compute; reflexivity).
  assert (count_party [66; 77; 88; 99] scenario_table = 50%nat) as H50
    by (vm_compute; reflexivity).
  assert (count_party [9] scenario_table = 10%nat) as H10
    by (vm_compute; reflexivity).
  split; [exact Hsub|]. split; [exact Hlen|]. split; [exact H50|].
  split; [exact H10|].
  apply (scenario_row_count scenario_table Hsub Hlen H50 H10).
  apply Forall_forall. apply (bool_decide_unpack _). vm_compute. exact I.
Defined.

(** C8 as stated fails: the table has 1000 rows, 50 with a missing code and
    10 with party 9, and the coalition stage leaves 939 rows, since it also
    drops the respondent with party 14. *)
Lemma scenario_count_is_not_940 :
  columns_to_keep ⊆ columns scenario_with_other_party ∧
  length (rows scenario_with_other_party) = 1000%nat ∧
  count_party [66; 77; 88; 99] scenario_with_other_party = 50%nat ∧
  count_party [9] scenario_with_other_party = 10%nat ∧
  (λ d, length (rows d)) <$>
    table_after (project_and_rename;; coalition_collapse)
      (init scenario_with_other_party) "df_selected" = Some 939%nat.
Proof.
  split; [apply missing_nil; by vm_compute|].
  repeat split; by vm_compute.
Qed.

(** ** The script on its own output *)

Lemma set_cell_same j v r :
  cells r !! j = Some v → pd.set_cell j v r = r.
Proof.
  intros Hj. unfold pd.set_cell.
  rewrite decide_True by (by eapply lookup_lt_Some).
  rewrite list_insert_id by done. by destruct r.
Qed.

Lemma with_coalition_idem r :
  length (cells r) = 17%nat →
  with_coalition 16 17 (with_coalition 16 17 r) = with_coalition 16 17 r.
Proof.
  intros Hlen. unfold with_coalition at 1. apply set_cell_same.
  rewrite with_coalition_party by done. unfold with_coalition.
  apply cells_set_cell_eq. lia.
Qed.

Lemma fmap_fixed {A} (f : A → A) (l : list A) :
  (∀ x, x ∈ l → f x = x) → f <$> l = l.
Proof.
  induction l as [|x l IH]; intros Hf; [done|].
  rewrite fmap_cons, Hf, IH; [done| |left]. intros y Hy. apply Hf. by right.
Qed.

Lemma collapsed_clean raw :
  collapsed 16 (filtered exclusion_rules (post_collapse raw)) =
  filtered exclusion_rules (post_collapse raw).
Proof.
  unfold collapsed.
  assert (with_coalition 16 (coalition_position (columns (filtered exclusion_rules (post_collapse raw))))
            <$> filter (classifiable 16) (rows (filtered exclusion_rules (post_collapse raw))) =
          rows (filtered exclusion_rules (post_collapse raw))) as ->.
  { change (coalition_position _) with 17%nat. rewrite filter_true.
    - apply fmap_fixed.
      intros r' [(r & Hr & _ & ->)%post_collapse_rows _]%filtered_rows.
      by apply with_coalition_idem, selected_row_length with raw.
    - apply Forall_forall.
      intros r' [(r & Hr & Hc & ->)%post_collapse_rows _]%filtered_rows.
      unfold classifiable.
      by rewrite with_coalition_party by (by apply selected_row_length with raw). }
  done.
Qed.

Lemma filtered_idem rules d : filtered rules (filtered rules d) = filtered rules d.
Proof.
  unfold filtered. cbn [columns rows]. f_equal. apply filter_true, Forall_forall.
  by intros r [Hr _]%list_elem_of_filter.
Qed.


(** C9, as the script has it.  On the clean table of a run, the stages after
    the selection and renaming (coalitions, translation of the missing codes,
    exclusion loop) end normally and leave that same table in [df_filtered].
    The whole script does not run on it: the clean table has the new column
    names, and line 69 raises a KeyError for the seventeen source names. *)
Theorem rerun_on_clean_table raw s out s0 :
  exec wrangle (init raw) = Ok s →
  frame_of s "df_filtered" = Some out →
  frame_of s0 "df_selected" = Some out →
  (∃ s', exec (coalition_collapse;; sentinel_translation;; completeness_filter) s0 = Ok s' ∧
         frame_of s' "df_filtered" = Some out) ∧
  exec wrangle (init out) = Raise (KeyError columns_to_keep).
Proof.
  intros (Hsub & _ & Hclean)%wrangle_Ok_inv Hout Hsel.
  rewrite Hclean in Hout. injection Hout as <-.
  set (out := filtered exclusion_rules (post_collapse raw)) in *.
  assert (width (length (columns out)) (rows out)) as Hw.
  { unfold width. apply Forall_forall. intros r [Hr _]%filtered_rows.
    by apply post_collapse_row_length with raw. }
  split.
  - destruct (coalition_collapse_ok s0 out 16 Hsel eq_refl Hw)
      as (s1 & Hrun1 & _ & _ & Hsel1).
    unfold out in Hsel1 at 1. rewrite collapsed_clean in Hsel1. fold out in Hsel1.
    destruct (missing_and_filter_ok s1 out Hsel1 exclusion_rules_columns)
      as (s' & Hrun' & _ & Hf & _).
    exists s'. split.
    + by rewrite (exec_seq _ _ _ _ Hrun1).
    + rewrite Hf. unfold out. by rewrite filtered_idem.
  - rewrite wrangle_raise.
    + do 2 f_equal.
    + rewrite <- missing_nil. by vm_compute.
Qed.

Lemma rerun_on_clean_table_witness :
  ∃ s,
    exec wrangle (init raw_example) = Ok s ∧
    frame_of s "df_filtered" = Some clean_example ∧
    frame_of (mkStore [clean_example] {["df_selected" := 0%nat]} []) "df_selected" =
      Some clean_example ∧
    (∃ s', exec (coalition_collapse;; sentinel_translation;; completeness_filter)
             (mkStore [clean_example] {["df_selected" := 0%nat]} []) = Ok s' ∧
           frame_of s' "df_filtered" = Some clean_example) ∧
    exec wrangle (init clean_example) = Raise (KeyError columns_to_keep).
Proof.
  eexists.
  assert (∀ s, exec wrangle (init raw_example) = Ok s →
               frame_of s "df_filtered" = Some clean_example) as Hf.
  { intros s Hs. vm_compute in Hs. injection Hs as <-. vm_compute. reflexivity. }
  split; [vm_compute; reflexivity|].
  match goal with |- frame_of ?s _ = _ ∧ _ =>
    assert (exec wrangle (init raw_example) = Ok s) as Hrun
      by (vm_compute; reflexivity)
  end.
  split; [exact (Hf _ Hrun)|]. split; [reflexivity|].
  exact (rerun_on_clean_table raw_example _ clean_example
           (mkStore [clean_example] {["df_selected" := 0%nat]} [])
           Hrun (Hf _ Hrun) eq_refl).
Defined.

(** C9 as stated fails: the script, run on the clean table it made of the
    example, raises a KeyError and returns no table. *)
Lemma pipeline_rejects_its_output :
  table_after wrangle (init raw_example) "df_filtered" = Some clean_example ∧
  exec wrangle (init clean_example) = Raise (KeyError columns_to_keep) ∧
  table_after wrangle (init clean_example) "df_filtered" ≠ Some clean_example.
Proof.
  split; [by vm_compute|]. split; [by vm_compute|]. by vm_compute.
Qed.

(** ** The script on the example *)

(** Of the seven respondents, the coalition stage keeps those with party 3,
    1 and 6 and gives them coalitions 2 (M5S), 4 (CDX) and 3 (TerzoPolo); the
    exclusion loop then drops the one whose household income is the missing
    code 77, at its eleventh step. *)
Example example_run :
  (λ d, (λ r, (label r, nth_cell 16 r, nth_cell 17 r)) <$> rows d) <$>
    table_after (project_and_rename;; coalition_collapse) (init raw_example)
      "df_selected" =
    Some [(0%nat, Num 3, Num 2); (2%nat, Num 1, Num 4); (5%nat, Num 6, Num 3)] ∧
  table_after wrangle (init raw_example) "df_filtered" = Some clean_example ∧
  stdout <$> (match exec wrangle (init raw_example) with
              | Ok s => Some s | Raise _ => None end) =
    Some [("VotedParty", 3%nat); ("ZeroPayGapOpinion", 3%nat);
          ("MediaConsumption", 3%nat); ("AttitudeTowardLGBT", 3%nat);
          ("EducationLevel", 3%nat); ("Age", 3%nat); ("Religion", 3%nat);
          ("TrustEP", 3%nat); ("AttitudesTowardImmigration", 3%nat);
          ("Gender", 3%nat); ("HouseholdIncome", 2%nat);
          ("EmploymentStatus", 2%nat); ("TradeUnionMember", 2%nat);
          ("PoliticalInterest", 2%nat); ("LeftRightScale", 2%nat);
          ("SatisfactionDemocracy", 2%nat); ("Region", 2%nat)].
Proof. repeat split; by vm_compute. Qed.

(** * Further properties of the script *)

(** ** The rows the coalition stage keeps *)

Lemma selected_rows raw : rows (selected raw) = selected_row raw <$> rows raw.
Proof. done. Qed.

Lemma classifiable_selected_row raw r :
  classifiable 16 (selected_row raw r) ↔
  cell_in (party_of raw r) [1; 2; 3; 4; 5; 6; 7; 8] = true.
Proof.
  unfold classifiable. rewrite cell_in_party_codes.
  by rewrite <- (selected_party raw r).
Qed.

Lemma post_collapse_rows_raw raw :
  rows (post_collapse raw) =
    (λ r, with_coalition 16 17 (selected_row raw r))
      <$> filter (λ r, cell_in (party_of raw r) [1; 2; 3; 4; 5; 6; 7; 8] = true)
            (rows raw).
Proof.
  unfold post_collapse, collapsed. cbn [rows columns].
  change (coalition_position renamed_columns) with 17%nat.
  rewrite selected_rows, filter_fmap, <- list_fmap_compose.
  f_equal. apply list_filter_iff. intros r. apply classifiable_selected_row.
Qed.

Lemma final_index c :
  c ∈ columns_to_keep →
  index_of (default c (column_mapping !! c)) final_columns =
  index_of c columns_to_keep.
Proof.
  intros Hc. unfold columns_to_keep in Hc.
  repeat (apply elem_of_cons in Hc as [->|Hc]; [by vm_compute|]).
  by apply elem_of_nil in Hc.
Qed.

Lemma with_coalition_selected_cell raw r c :
  c ∈ columns_to_keep →
  cell_at final_columns (with_coalition 16 17 (selected_row raw r))
    (default c (column_mapping !! c)) =
  Some (default NaN (cell_at (columns raw) r c)).
Proof.
  intros Hc. apply index_of_is_Some in Hc as Hk. destruct Hk as [k Hk].
  rewrite (cell_at_index _ _ _ k) by (by rewrite final_index).
  apply index_of_lt in Hk as Hlt. apply index_of_Some in Hk.
  unfold with_coalition. rewrite cells_set_cell_ne.
  - cbn [cells selected_row]. by rewrite list_lookup_fmap, Hk.
  - done.
  - change (length columns_to_keep) with 17%nat in Hlt. lia.
Qed.

Lemma coalition_cell_of z :
  1 ≤ z ≤ 8 → coalition_cell (Num z) = Num (coalition_of z).
Proof.
  intros Hz. unfold coalition_cell, coalition_of.
  rewrite assign_target_policy. repeat case_decide; (done || lia).
Qed.

(** X2.  The coalition stage, row by row.  From a raw table with the selected
    columns it keeps, in their order, exactly the respondents whose party code
    is one of 1 to 8; a kept row has the seventeen selected cells of the
    respondent under the new names, and the coalition 1 for the parties 2, 7,
    8, coalition 4 for 1, 4, 5, coalition 2 for 3 and coalition 3 for 6. *)
Theorem collapse_row_by_row raw :
  columns_to_keep ⊆ columns raw →
  ∃ s1 d,
    exec (project_and_rename;; coalition_collapse) (init raw) = Ok s1 ∧
    frame_of s1 "df_selected" = Some d ∧
    columns d = renamed_columns ++ ["VotedCoalition"] ∧
    label <$> rows d =
      label <$> filter (λ r, cell_in (party_of raw r) [1; 2; 3; 4; 5; 6; 7; 8] = true)
                  (rows raw) ∧
    ∀ i r', rows d !! i = Some r' →
      ∃ r z,
        filter (λ r, cell_in (party_of raw r) [1; 2; 3; 4; 5; 6; 7; 8] = true)
          (rows raw) !! i = Some r ∧
        label r' = label r ∧
        party_of raw r = Num z ∧ 1 ≤ z ≤ 8 ∧
        cell_at (columns d) r' "VotedCoalition" = Some (Num (coalition_of z)) ∧
        ∀ c, c ∈ columns_to_keep →
          cell_at (columns d) r' (default c (column_mapping !! c)) =
          Some (default NaN (cell_at (columns raw) r c)).
Proof.
  intros Hsub.
  destruct (collapse_ok raw Hsub) as (s1 & Hrun1 & Hsel1 & _).
  exists s1, (post_collapse raw). do 3 (split; [done|]). split.
  - rewrite post_collapse_rows_raw, <- list_fmap_compose. done.
  - intros i r' Hr'. rewrite post_collapse_rows_raw, list_lookup_fmap in Hr'.
    destruct (filter _ (rows raw) !! i) as [r|] eqn:Hr; [|done].
    cbn in Hr'. injection Hr' as <-.
    apply list_elem_of_lookup_2, list_elem_of_filter in Hr as Hin.
    destruct Hin as [Hparty Hin].
    destruct (party_of raw r) as [z| |] eqn:Hz; [|done..].
    cbn in Hparty. apply bool_decide_eq_true in Hparty.
    assert (1 ≤ z ≤ 8) as Hrange.
    { rewrite !elem_of_cons, elem_of_nil in Hparty. lia. }
    exists r, z. do 4 (split; [done|]). split.
    + rewrite post_collapse_columns.
      rewrite (cell_at_final _ "VotedCoalition" 17); [|done..].
      rewrite with_coalition_coalition by done.
      change (nth_cell 16 (selected_row raw r)) with (party_of raw r).
      by rewrite Hz, coalition_cell_of.
    + intros c Hc. rewrite post_collapse_columns.
      by apply with_coalition_selected_cell.
Qed.

Lemma collapse_row_by_row_witness :
  columns_to_keep ⊆ columns raw_example ∧
  ∃ s1 d,
    exec (project_and_rename;; coalition_collapse) (init raw_example) = Ok s1 ∧
    frame_of s1 "df_selected" = Some d ∧
    columns d = renamed_columns ++ ["VotedCoalition"] ∧
    label <$> rows d =
      label <$> filter (λ r, cell_in (party_of raw_example r) [1; 2; 3; 4; 5; 6; 7; 8] = true)
                  (rows raw_example) ∧
    ∀ i r', rows d !! i = Some r' →
      ∃ r z,
        filter (λ r, cell_in (party_of raw_example r) [1; 2; 3; 4; 5; 6; 7; 8] = true)
          (rows raw_example) !! i = Some r ∧
        label r' = label r ∧
        party_of raw_example r = Num z ∧ 1 ≤ z ≤ 8 ∧
        cell_at (columns d) r' "VotedCoalition" = Some (Num (coalition_of z)) ∧
        ∀ c, c ∈ columns_to_keep →
          cell_at (columns d) r' (default c (column_mapping !! c)) =
          Some (default NaN (cell_at (columns raw_example) r c)).
Proof.
  assert (columns_to_keep ⊆ columns raw_example) as Hsub.
  { apply missing_nil. vm_compute. reflexivity. }
  split; [exact Hsub|]. exact (collapse_row_by_row raw_example Hsub).
Defined.

(** ** Outcome of a run *)

(** X1.  The three outcomes of a run of lines 64-229 on a raw table.  With
    a selected column missing, line 69 raises a KeyError for the missing
    ones, in the order of [columns_to_keep].  With the columns there and no
    respondent with a classifiable party, the test of line 213 raises a
    ValueError.  Otherwise the run ends normally, with [df_filtered] and
    [df_missing] bound.  No other line stops the script: the columns the
    later stages look up are there by construction. *)
Theorem wrangle_outcome raw :
  match exec wrangle (init raw) with
  | Ok s =>
      columns_to_keep ⊆ columns raw ∧
      rows (post_collapse raw) ≠ [] ∧
      is_Some (frame_of s "df_filtered") ∧ is_Some (frame_of s "df_missing")
  | Raise e =>
      (e = KeyError (filter (λ c, c ∉ columns raw) columns_to_keep) ∧
       ∃ c, c ∈ columns_to_keep ∧ c ∉ columns raw) ∨
      (e = ValueError ∧
       columns_to_keep ⊆ columns raw ∧
       Forall (λ r, cell_in (party_of raw r) [1; 2; 3; 4; 5; 6; 7; 8] = false)
         (rows raw))
  end.
Proof.
  destruct (decide (filter (λ c, c ∉ columns raw) columns_to_keep = [])) as [Hsub|Hsub].
  - apply missing_nil in Hsub.
    destruct (decide (rows (post_collapse raw) = [])) as [Hnil|Hne].
    + rewrite (wrangle_no_voter raw Hsub Hnil). right.
      split; [done|]. split; [done|].
      rewrite post_collapse_rows_raw in Hnil.
      apply fmap_nil_inv in Hnil.
      apply Forall_forall. intros r Hr.
      apply not_true_is_false. intros Hparty.
      assert (r ∈ filter (λ r, cell_in (party_of raw r) [1; 2; 3; 4; 5; 6; 7; 8] = true)
                    (rows raw)) as Hin by (by apply list_elem_of_filter).
      rewrite Hnil in Hin. by apply elem_of_nil in Hin.
    + destruct (wrangle_ok raw Hsub Hne) as (s & -> & _ & Hf & _ & Hm & _).
      rewrite Hf, Hm. by eauto.
  - rewrite missing_nil in Hsub. rewrite (wrangle_raise raw Hsub). left.
    split; [done|]. by apply not_subseteq_missing.
Qed.

(** ** The rows the exclusion loop keeps *)

Lemma sentinel_in_false cols r c values :
  sentinel_in cols r (c, values) = false ↔
  ∀ z, z ∈ values → cell_at cols r c ≠ Some (Num z).
Proof.
  unfold sentinel_in. cbn [fst snd]. destruct (cell_at cols r c) as [v|].
  - rewrite cell_in_false. split.
    + intros H z Hz [= ->]. by apply (H z).
    + intros H z Hz ->. by apply (H z).
  - split; [done|]. done.
Qed.

Lemma complete_spec cols rules r :
  complete cols rules r = true ↔
  ∀ c values z, (c, values) ∈ rules → z ∈ values → cell_at cols r c ≠ Some (Num z).
Proof.
  unfold complete. rewrite forallb_forall. split.
  - intros Hall c values z Hrule.
    apply list_elem_of_In, Hall, negb_true_iff in Hrule.
    by apply sentinel_in_false.
  - intros H [c values] Hin%list_elem_of_In. apply negb_true_iff, sentinel_in_false.
    intros z. by apply H.
Qed.

(** X3.  The exclusion loop, row by row.  When the coalition stage leaves a
    row, so that the script reaches the loop, the clean table has the columns
    of the table the coalition stage left and a subsequence of its rows: a
    row is kept if and only if none of its cells is a missing code declared
    for the cell's column.  Nothing else excludes a row; in particular a cell
    that is NaN, or a text, does not. *)
Theorem exclusion_row_by_row raw :
  columns_to_keep ⊆ columns raw →
  rows (post_collapse raw) ≠ [] →
  ∃ s1 d s out,
    exec (project_and_rename;; coalition_collapse) (init raw) = Ok s1 ∧
    frame_of s1 "df_selected" = Some d ∧
    exec wrangle (init raw) = Ok s ∧
    frame_of s "df_filtered" = Some out ∧
    columns out = columns d ∧
    rows out `sublist_of` rows d ∧
    ∀ r, r ∈ rows out ↔
         r ∈ rows d ∧
         ∀ c values z, (c, values) ∈ exclusion_rules → z ∈ values →
                       cell_at (columns d) r c ≠ Some (Num z).
Proof.
  intros Hsub Hvoter.
  destruct (collapse_ok raw Hsub) as (s1 & Hrun1 & Hsel1 & _).
  destruct (wrangle_ok raw Hsub Hvoter) as (s & Hrun & _ & Hout & _).
  exists s1, (post_collapse raw), s, (filtered exclusion_rules (post_collapse raw)).
  do 5 (split; [done|]). split.
  - apply sublist_filter.
  - intros r. by rewrite filtered_rows, complete_spec.
Qed.

Lemma exclusion_row_by_row_witness :
  columns_to_keep ⊆ columns raw_example ∧
  rows (post_collapse raw_example) ≠ [] ∧
  ∃ s1 d s out,
    exec (project_and_rename;; coalition_collapse) (init raw_example) = Ok s1 ∧
    frame_of s1 "df_selected" = Some d ∧
    exec wrangle (init raw_example) = Ok s ∧
    frame_of s "df_filtered" = Some out ∧
    columns out = columns d ∧
    rows out `sublist_of` rows d ∧
    ∀ r, r ∈ rows out ↔
         r ∈ rows d ∧
         ∀ c values z, (c, values) ∈ exclusion_rules → z ∈ values →
                       cell_at (columns d) r c ≠ Some (Num z).
Proof.
  assert (columns_to_keep ⊆ columns raw_example) as Hsub.
  { apply missing_nil. vm_compute. reflexivity. }
  assert (rows (post_collapse raw_example) ≠ []) as Hvoter.
  { apply (bool_decide_unpack _). vm_compute. exact I. }
  split; [exact Hsub|]. split; [exact Hvoter|].
  exact (exclusion_row_by_row raw_example Hsub Hvoter).
Defined.

(** A respondent whose age is empty in the file, read as NaN, stays in the
    clean table: the loop excludes the declared codes only. *)
Example nan_is_not_excluded :
  (λ d, (λ r, (label r, cell_at (columns d) r "Age")) <$> rows d) <$>
    table_after wrangle
      (init (mkFrame columns_to_keep
               [mkRow 0 [NaN; Num 1; Num 3; Num 5; Str "ITC4"; Num 1; Num 3;
                         Num 2; Num 5; Num 6; Num 4; Num 5; Num 7; Num 60;
                         Num 1; Num 5; Num 2]]))
      "df_filtered" =
  Some [(0%nat, Some NaN)].
Proof. by vm_compute. Qed.

(** ** The printed report *)

Lemma filter_report_names cols rules : ∀ rs,
  (filter_report cols rules rs).*1 = rules.*1.
Proof.
  induction rules as [|rule rules IH]; intros rs; [done|].
  rewrite filter_report_cons, !fmap_cons, IH. done.
Qed.

Lemma filter_report_non_increasing cols rules : ∀ rs,
  non_increasing (length rs :: (filter_report cols rules rs).*2).
Proof.
  induction rules as [|rule rules IH]; intros rs; [done|].
  rewrite filter_report_cons, fmap_cons. cbn [snd].
  split; [apply length_filter|apply IH].
Qed.

Lemma filter_report_last cols rules : ∀ rs,
  last (length rs :: (filter_report cols rules rs).*2) =
    Some (length (filter (λ r, complete cols rules r = true) rs)).
Proof.
  induction rules as [|rule rules IH]; intros rs.
  - cbn. f_equal. symmetry. f_equal. by apply filter_true, Forall_true.
  - rewrite filter_report_cons, fmap_cons, last_cons_cons. cbn [snd].
    by rewrite IH, filter_complete_cons.
Qed.

(** X4.  The report of the exclusion loop.  When the coalition stage leaves
    a row, so that the script reaches the loop, the loop prints one line for
    each rule, in the order of [exclusion_rules]; the counts never increase,
    the first is at most the number of rows the coalition stage left, and the
    last is the number of rows of the clean table. *)
Theorem report_shape raw :
  columns_to_keep ⊆ columns raw →
  rows (post_collapse raw) ≠ [] →
  ∃ s1 d s out,
    exec (project_and_rename;; coalition_collapse) (init raw) = Ok s1 ∧
    frame_of s1 "df_selected" = Some d ∧
    exec wrangle (init raw) = Ok s ∧
    frame_of s "df_filtered" = Some out ∧
    (stdout s).*1 = exclusion_rules.*1 ∧
    non_increasing (length (rows d) :: (stdout s).*2) ∧
    last ((stdout s).*2) = Some (length (rows out)).
Proof.
  intros Hsub Hvoter.
  destruct (collapse_ok raw Hsub) as (s1 & Hrun1 & Hsel1 & _).
  destruct (wrangle_ok raw Hsub Hvoter) as (s & Hrun & _ & Hout & _ & _ & Hprint).
  exists s1, (post_collapse raw), s, (filtered exclusion_rules (post_collapse raw)).
  do 4 (split; [done|]). rewrite Hprint. split; [|split].
  - apply filter_report_names.
  - apply filter_report_non_increasing.
  - pose proof (filter_report_last final_columns exclusion_rules
                  (rows (post_collapse raw))) as Hlast.
    unfold exclusion_rules at 1 in Hlast.
    rewrite filter_report_cons, fmap_cons, last_cons_cons in Hlast.
    unfold exclusion_rules at 1. rewrite filter_report_cons, fmap_cons.
    by rewrite Hlast.
Qed.

Lemma report_shape_witness :
  columns_to_keep ⊆ columns raw_example ∧
  rows (post_collapse raw_example) ≠ [] ∧
  ∃ s1 d s out,
    exec (project_and_rename;; coalition_collapse) (init raw_example) = Ok s1 ∧
    frame_of s1 "df_selected" = Some d ∧
    exec wrangle (init raw_example) = Ok s ∧
    frame_of s "df_filtered" = Some out ∧
    (stdout s).*1 = exclusion_rules.*1 ∧
    non_increasing (length (rows d) :: (stdout s).*2) ∧
    last ((stdout s).*2) = Some (length (rows out)).
Proof.
  assert (columns_to_keep ⊆ columns raw_example) as Hsub.
  { apply missing_nil. vm_compute. reflexivity. }
  assert (rows (post_collapse raw_example) ≠ []) as Hvoter.
  { apply (bool_decide_unpack _). vm_compute. exact I. }
  split; [exact Hsub|]. split; [exact Hvoter|].
  exact (report_shape raw_example Hsub Hvoter).
Defined.

(** ** What the result depends on *)

Lemma selected_row_ext raw raw' r r' :
  same_selected raw raw' r r' → selected_row raw r = selected_row raw' r'.
Proof.
  intros [Hl Hc]. unfold selected_row. rewrite Hl. f_equal.
  apply list_fmap_ext. intros i c Hi. rewrite Forall_lookup in Hc.
  by rewrite (Hc i c Hi).
Qed.

Lemma selected_ext raw raw' :
  Forall2 (same_selected raw raw') (rows raw) (rows raw') →
  selected raw = selected raw'.
Proof.
  intros Hrows. unfold selected. f_equal. change (rows (pd.take columns_to_keep ?d))
    with (selected_row d <$> rows d).
  induction Hrows as [|r r' rs rs' Hr _ IH]; [done|].
  rewrite !fmap_cons, IH. f_equal. by apply selected_row_ext.
Qed.

(** X5.  The tables the script makes depend on the raw table only through
    the row labels and the cells of the seventeen selected columns: two raw
    tables that agree on these, whatever their other columns and the order of
    their columns, give the same [df_selected], [df_missing] and
    [df_filtered] and the same report, when the coalition stage leaves a row
    of them. *)
Theorem result_depends_on_selected_columns raw raw' :
  columns_to_keep ⊆ columns raw →
  columns_to_keep ⊆ columns raw' →
  Forall2 (same_selected raw raw') (rows raw) (rows raw') →
  rows (post_collapse raw) ≠ [] →
  ∃ s s',
    exec wrangle (init raw) = Ok s ∧
    exec wrangle (init raw') = Ok s' ∧
    frame_of s "df_selected" = frame_of s' "df_selected" ∧
    frame_of s "df_missing" = frame_of s' "df_missing" ∧
    frame_of s "df_filtered" = frame_of s' "df_filtered" ∧
    is_Some (frame_of s "df_filtered") ∧
    stdout s = stdout s'.
Proof.
  intros Hsub Hsub' Hrows Hvoter.
  assert (post_collapse raw = post_collapse raw') as Heq.
  { unfold post_collapse. by rewrite (selected_ext raw raw' Hrows). }
  assert (rows (post_collapse raw') ≠ []) as Hvoter' by (by rewrite <- Heq).
  destruct (wrangle_ok raw Hsub Hvoter) as (s & Hrun & _ & Hf & Hsel & Hm & Hout).
  destruct (wrangle_ok raw' Hsub' Hvoter')
    as (s' & Hrun' & _ & Hf' & Hsel' & Hm' & Hout').
  exists s, s'. do 2 (split; [done|]).
  rewrite Hf, Hf', Hsel, Hsel', Hm, Hm', Hout, Hout', Heq. by eauto.
Qed.

Lemma result_depends_on_selected_columns_witness :
  columns_to_keep ⊆ columns raw_example ∧
  columns_to_keep ⊆ columns raw_example_reordered ∧
  Forall2 (same_selected raw_example raw_example_reordered)
    (rows raw_example) (rows raw_example_reordered) ∧
  rows (post_collapse raw_example) ≠ [] ∧
  columns raw_example ≠ columns raw_example_reordered ∧
  ∃ s s',
    exec wrangle (init raw_example) = Ok s ∧
    exec wrangle (init raw_example_reordered) = Ok s' ∧
    frame_of s "df_selected" = frame_of s' "df_selected" ∧
    frame_of s "df_missing" = frame_of s' "df_missing" ∧
    frame_of s "df_filtered" = frame_of s' "df_filtered" ∧
    is_Some (frame_of s "df_filtered") ∧
    stdout s = stdout s'.
Proof.
  assert (columns_to_keep ⊆ columns raw_example) as Hsub.
  { apply missing_nil. vm_compute. reflexivity. }
  assert (columns_to_keep ⊆ columns raw_example_reordered) as Hsub'.
  { apply missing_nil. vm_compute. reflexivity. }
  assert (Forall2 (same_selected raw_example raw_example_reordered)
            (rows raw_example) (rows raw_example_reordered)) as Hrows.
  { apply (bool_decide_unpack _). vm_compute. exact I. }
  assert (rows (post_collapse raw_example) ≠ []) as Hvoter.
  { apply (bool_decide_unpack _). vm_compute. exact I. }
  split; [exact Hsub|]. split; [exact Hsub'|]. split; [exact Hrows|].
  split; [exact Hvoter|]. split; [by vm_compute|].
  exact (result_depends_on_selected_columns raw_example raw_example_reordered
           Hsub Hsub' Hrows Hvoter).
Defined.

Example raw_example_reordered_wf : wf_frame raw_example_reordered.
Proof. split; apply (bool_decide_unpack _); vm_compute; exact I. Qed.

(** ** Translation and exclusion together *)

Lemma translate_row_complete cols rules : ∀ r,
  length (cells r) = length cols →
  Forall (λ rule, rule.1 ∈ cols) rules →
  complete cols rules r = true →
  translate_row cols rules r = r.
Proof.
  induction rules as [|[c values] rules IH]; intros r Hlen Hcols Hcomplete; [done|].
  apply Forall_cons in Hcols as [Hc Hcols]. cbn in Hc.
  apply index_of_is_Some in Hc as [i Hi].
  cbn in Hcomplete. apply andb_true_iff in Hcomplete as [Hrule Hcomplete].
  apply negb_true_iff in Hrule. rewrite (sentinel_in_index _ _ _ _ _ Hi) in Hrule.
  rewrite translate_row_cons.
  assert (translate_row cols [(c, values)] r = r) as ->.
  { cbn. rewrite Hi, Hrule. apply set_cell_same. unfold nth_cell.
    destruct (lookup_lt_is_Some_2 (cells r) i) as [v ->]; [|done].
    rewrite Hlen. by eapply index_of_lt. }
  by apply IH.
Qed.

Lemma translate_row_unchanged cols rules r :
  length (cells r) = length cols →
  Forall (λ rule, rule.1 ∈ cols) rules →
  translate_row cols rules r = r →
  complete cols rules r = true.
Proof.
  intros Hlen Hcols Hfix. unfold complete. apply forallb_forall.
  intros [c values] Hin%list_elem_of_In. apply negb_true_iff.
  rewrite Forall_forall in Hcols. apply Hcols in Hin as Hc. cbn in Hc.
  apply index_of_is_Some in Hc as [i Hi].
  rewrite (sentinel_in_index _ _ _ _ _ Hi).
  pose proof (translate_row_cell cols rules r c i Hlen Hi) as Hcell.
  rewrite Hfix in Hcell.
  destruct (existsb _ rules) eqn:E.
  - by rewrite Hcell.
  - destruct (cell_in (nth_cell i r) values) eqn:Hv; [|done].
    assert (existsb (λ rule, bool_decide (rule.1 = c) && cell_in (nth_cell i r) rule.2)
              rules = true) as Ht.
    { apply listed_sentinel. by exists values. }
    congruence.
Qed.



Lemma missing_and_filter_with_ok rules s d :
  frame_of s "df_selected" = Some d →
  Forall (λ rule, rule.1 ∈ columns d) rules →
  ∃ s',
    exec (sentinel_translation_with rules;; completeness_filter_with rules) s = Ok s' ∧
    frame_of s' "df_filtered" = Some (filtered rules d) ∧
    frame_of s' "df_missing" = Some (translated rules d).
Proof.
  intros Hd Hcols.
  pose proof (sentinel_translation_with_ok rules s d Hd Hcols) as Hrun1.
  set (s1 := rebind "df_missing" (translated rules d) s) in *.
  assert (extends ["df_missing"] s s1) as Hext1 by (apply extends_rebind; by left).
  assert (frame_of s1 "df_selected" = Some d) as Hd1.
  { apply (extends_frame _ _ _ _ _ Hext1); [|done].
    by intros [=]%list_elem_of_singleton. }
  destruct (completeness_filter_with_ok rules s1 d Hd1 Hcols)
    as (s' & Hrun2 & Hext2 & Hf & _).
  exists s'. split; [|split].
  - rewrite (exec_seq _ _ _ _ Hrun1). by apply exec_ok.
  - done.
  - apply (extends_frame _ _ _ _ _ Hext2).
    + rewrite !elem_of_cons, elem_of_nil. by intros [[=]|[[=]|[]]].
    + apply frame_of_rebind_eq.
Qed.

(** X6.  Translation and exclusion agree.  On a rectangular table with the
    columns of the rules, whose numbers a float64 holds exactly, the rows the
    exclusion loop keeps are the rows the translation leaves as they are: the
    row at a position of [df_selected] is in [df_filtered] if and only if the
    row at that position of [df_missing] is equal to it. *)
Theorem excluded_iff_translated rules s d :
  frame_of s "df_selected" = Some d →
  width (length (columns d)) (rows d) →
  exact_table d →
  Forall (λ rule, rule.1 ∈ columns d) rules →
  ∃ s' m out,
    exec (sentinel_translation_with rules;; completeness_filter_with rules) s = Ok s' ∧
    frame_of s' "df_missing" = Some m ∧
    frame_of s' "df_filtered" = Some out ∧
    length (rows m) = length (rows d) ∧
    ∀ i r r', rows d !! i = Some r → rows m !! i = Some r' →
              (r' = r ↔ r ∈ rows out).
Proof.
  intros Hd Hw _ Hcols.
  destruct (missing_and_filter_with_ok rules s d Hd Hcols) as (s' & Hrun & Hf & Hm).
  exists s', (translated rules d), (filtered rules d).
  do 3 (split; [done|]). split.
  { unfold translated. cbn [rows]. by rewrite length_fmap. }
  intros i r r' Hr Hr'.
  unfold translated in Hr'. cbn [rows] in Hr'.
  rewrite list_lookup_fmap, Hr in Hr'. injection Hr' as <-.
  assert (length (cells r) = length (columns d)) as Hlen.
  { unfold width in Hw. rewrite Forall_lookup in Hw. by apply (Hw i). }
  rewrite filtered_rows. split.
  - intros Hfix. split; [by eapply list_elem_of_lookup_2|].
    by apply translate_row_unchanged.
  - intros [_ Hcomplete]. by apply translate_row_complete.
Qed.

Lemma excluded_iff_translated_witness :
  frame_of small_store "df_selected" = Some small_table ∧
  width (length (columns small_table)) (rows small_table) ∧
  exact_table small_table ∧
  Forall (λ rule, rule.1 ∈ columns small_table) two_rules ∧
  ∃ s' m out,
    exec (sentinel_translation_with two_rules;; completeness_filter_with two_rules)
      small_store = Ok s' ∧
    frame_of s' "df_missing" = Some m ∧
    frame_of s' "df_filtered" = Some out ∧
    length (rows m) = length (rows small_table) ∧
    ∀ i r r', rows small_table !! i = Some r → rows m !! i = Some r' →
              (r' = r ↔ r ∈ rows out).
Proof.
  assert (frame_of small_store "df_selected" = Some small_table) as Hd
    by reflexivity.
  assert (width (length (columns small_table)) (rows small_table)) as Hw.
  { apply (bool_decide_unpack _). vm_compute. exact I. }
  assert (Forall (λ rule, rule.1 ∈ columns small_table) two_rules) as Hcols.
  { apply (bool_decide_unpack _). vm_compute. exact I. }
  assert (exact_table small_table) as Hexact.
  { apply (bool_decide_unpack _). vm_compute. exact I. }
  split; [exact Hd|]. split; [exact Hw|]. split; [exact Hexact|].
  split; [exact Hcols|].
  exact (excluded_iff_translated two_rules small_store small_table Hd Hw Hexact Hcols).
Defined.




(** ** The grid of the plots *)

Lemma grid_rows_bounds num_vars cols :
  0 < cols →
  num_vars ≤ grid_rows num_vars cols * cols < num_vars + cols.
Proof.
  intros Hcols. unfold grid_rows.
  pose proof (Z.div_mod (- num_vars) cols) as Hdm.
  pose proof (Z.mod_pos_bound (- num_vars) cols Hcols) as Hmod.
  nia.
Qed.

Lemma axis_at_range n i :
  0 ≤ i < n → axis_at (range 0 n) i = Ok i.
Proof.
  intros Hi. unfold axis_at, range. rewrite length_seqZ, Z.sub_0_r.
  rewrite Z2Nat.id by lia. destruct (decide (i < 0)); [lia|].
  rewrite decide_True by lia.
  rewrite (proj2 (lookup_seqZ 0 n (Z.to_nat i) i)); [done|].
  rewrite Z2Nat.id by lia. lia.
Qed.

Lemma take_axes_range n (positions : list Z) :
  Forall (λ i, 0 ≤ i < n) positions →
  take_axes (range 0 n) positions = Ok positions.
Proof.
  induction 1 as [|i positions Hi _ IH]; [done|].
  cbn [take_axes]. by rewrite (axis_at_range n i Hi), IH.
Qed.

(** X8.  The axes of the grid.  For any two lists of variables and any
    positive number of columns, the grid of [-(-num_vars // cols)] rows has
    room for every variable and fewer than [cols] axes to spare.  Without a
    variable [plt.subplots] refuses the grid of no row (ValueError); with one
    variable and one column it returns a single Axes, which has no [flatten]
    (AttributeError).  In every other case the three loops of lines 421, 435
    and 448 take the axes 0, 1, ... of the grid in order, each once: an axis
    is plotted on or deleted, never both, and no position is outside
    [axes]. *)
Theorem axes_visited_once (bars hists : list string) (cols : Z) :
  0 < cols →
  let num_vars := Z.of_nat (length bars) + Z.of_nat (length hists) in
  let rows := grid_rows num_vars cols in
  num_vars ≤ rows * cols < num_vars + cols ∧
  visited_axes bars hists cols =
    if decide (num_vars = 0) then Raise ValueError
    else if decide (num_vars = 1 ∧ cols = 1) then Raise AttributeError
    else Ok (range 0 (rows * cols)).
Proof.
  intros Hcols num_vars rows.
  pose proof (grid_rows_bounds num_vars cols Hcols) as Hb. fold rows in Hb.
  split; [done|].
  unfold visited_axes, subplots_flatten. fold num_vars. fold rows.
  assert (0 ≤ num_vars) as Hnonneg by (unfold num_vars; lia).
  destruct (decide (num_vars = 0)) as [Hzero|Hpos].
  - rewrite decide_True; [done|]. left. nia.
  - rewrite decide_False by nia.
    destruct (decide (num_vars = 1 ∧ cols = 1)) as [[Hone Hcol]|Hmany].
    + rewrite decide_True; [done|]. nia.
    + rewrite decide_False; last first.
      { intros Heq. apply Hmany. rewrite Z.mul_comm in Heq.
        apply Z.eq_mul_1_nonneg in Heq as [Hc Hr]; [|lia].
        rewrite Hc, Hr in Hb. lia. }
      assert (Z.of_nat (length (range 0 (rows * cols))) = rows * cols) as ->.
      { unfold range. rewrite length_seqZ, Z.sub_0_r. apply Z2Nat.id. nia. }
      assert (enumerate_indices 0 bars
                ++ enumerate_indices (Z.of_nat (length bars)) hists
                ++ range num_vars (rows * cols) = range 0 (rows * cols)) as ->.
      { unfold enumerate_indices, range.
        replace (rows * cols - 0) with
          (Z.of_nat (length bars) +
           (Z.of_nat (length hists) + (rows * cols - num_vars)))
          by (unfold num_vars; lia).
        rewrite seqZ_app by lia. rewrite seqZ_app by lia.
        by rewrite Z.add_0_l. }
      apply take_axes_range. apply Forall_forall. intros i Hi.
      unfold range in Hi. apply elem_of_seqZ in Hi. lia.
Qed.

Lemma axes_visited_once_witness :
  0 < 5 ∧
  grid_rows 15 5 = 3 ∧
  visited_axes barplot_vars histplot_vars 5 = Ok (range 0 15) ∧
  visited_axes [] [] 5 = Raise ValueError ∧
  visited_axes ["Age"] [] 1 = Raise AttributeError.
Proof.
  assert (0 < 5) as Hcols by lia.
  assert (0 < 1) as Hone by lia.
  split; [exact Hcols|]. split; [reflexivity|]. split; [|split].
  - exact (proj2 (axes_visited_once barplot_vars histplot_vars 5 Hcols)).
  - exact (proj2 (axes_visited_once [] [] 5 Hcols)).
  - exact (proj2 (axes_visited_once ["Age"] [] 1 Hone)).
Defined.

(** ** The indicators of a table *)

(** X9.  The missingness indicators.  From any store in which [df_missing]
    is a rectangular table with a column [VotedCoalition], lines 188-192 end
    normally, print nothing, change no object and bind no name but
    [missing_indicators].  The new table has one column [<c>_missing] for each
    column [c] of [df_missing], in the same order, and [VotedCoalition] as a
    new last column: no suffixed name is equal to it, so no indicator is
    overwritten.  Row by row, with the labels kept, the indicator of a cell is
    1 when the cell is NaN and 0 otherwise, and the last column is the
    coalition of [df_missing]. *)
Theorem indicators_flag_nan s m :
  frame_of s "df_missing" = Some m →
  "VotedCoalition" ∈ columns m →
  width (length (columns m)) (rows m) →
  ∃ s' ind,
    exec missing_indicators s = Ok s' ∧
    extends ["missing_indicators"] s s' ∧
    stdout s' = stdout s ∧
    frame_of s' "missing_indicators" = Some ind ∧
    columns ind = ((λ col, col +:+ "_missing") <$> columns m) ++ ["VotedCoalition"] ∧
    label <$> rows ind = label <$> rows m ∧
    ∀ i r, rows m !! i = Some r →
      ∃ r', rows ind !! i = Some r' ∧
        cell_at (columns ind) r' "VotedCoalition" = cell_at (columns m) r "VotedCoalition" ∧
        ∀ c v, cell_at (columns m) r c = Some v →
          cell_at (columns ind) r' (c +:+ "_missing") =
            Some (Num (if pd.isna v then 1 else 0)).
Proof.
  intros Hm [j Hj]%index_of_is_Some Hw.
  pose proof (missing_indicators_ok s m j Hm Hj) as Hrun.
  set (ind := pd.set_column _ _ _) in Hrun.
  destruct (indicator_rows m j Hj Hw ind eq_refl) as (Hcols & Hlab & Hrows).
  exists (rebind "missing_indicators" ind s), ind.
  split; [by apply exec_ok|].
  split; [apply extends_rebind; by left|].
  split; [done|].
  split; [apply frame_of_rebind_eq|].
  done.
Qed.

Lemma indicators_flag_nan_witness :
  let m := translated exclusion_rules (post_collapse raw_example) in
  let s := mkStore [m] {["df_missing" := 0%nat]} [] in
  ∃ s' ind,
    exec missing_indicators s = Ok s' ∧
    extends ["missing_indicators"] s s' ∧
    stdout s' = stdout s ∧
    frame_of s' "missing_indicators" = Some ind ∧
    columns ind = ((λ col, col +:+ "_missing") <$> columns m) ++ ["VotedCoalition"] ∧
    label <$> rows ind = label <$> rows m ∧
    ∀ i r, rows m !! i = Some r →
      ∃ r', rows ind !! i = Some r' ∧
        cell_at (columns ind) r' "VotedCoalition" = cell_at (columns m) r "VotedCoalition" ∧
        ∀ c v, cell_at (columns m) r c = Some v →
          cell_at (columns ind) r' (c +:+ "_missing") =
            Some (Num (if pd.isna v then 1 else 0)).
Proof.
  intros m s.
  assert (frame_of s "df_missing" = Some m) as Hm by reflexivity.
  assert ("VotedCoalition" ∈ columns m) as Hc.
  { apply (bool_decide_unpack _). vm_compute. exact I. }
  assert (width (length (columns m)) (rows m)) as Hw.
  { apply (bool_decide_unpack _). vm_compute. exact I. }
  exact (indicators_flag_nan s m Hm Hc Hw).
Defined.

(** The store after line 192, and the indicators row by row. *)
Lemma survey_flags raw :
  columns_to_keep ⊆ columns raw →
  ∃ s3 ind,
    exec (project_and_rename;; coalition_collapse;; sentinel_translation;;
          missing_indicators) (init raw) = Ok s3 ∧
    (∀ k : M unit,
       exec (project_and_rename;; coalition_collapse;; sentinel_translation;;
             missing_indicators;; k) (init raw) = exec k s3) ∧
    frame_of s3 "df_selected" = Some (post_collapse raw) ∧
    frame_of s3 "df_missing" = Some (translated exclusion_rules (post_collapse raw)) ∧
    frame_of s3 "missing_indicators" = Some ind ∧
    "VotedCoalition" ∈ columns ind ∧
    stdout s3 = [] ∧
    length (rows ind) = length (rows (post_collapse raw)) ∧
    ∀ i r, rows (post_collapse raw) !! i = Some r →
      ∃ r', rows ind !! i = Some r' ∧
        (∀ c v, cell_at final_columns r c = Some v →
           cell_at (columns ind) r' (c +:+ "_missing") =
             Some (Num (if pd.isna v ||
                           existsb (λ rule, bool_decide (rule.1 = c) && cell_in v rule.2)
                             exclusion_rules
                        then 1 else 0))) ∧
        cell_at (columns ind) r' "VotedCoalition" =
          cell_at final_columns r "VotedCoalition".
Proof.
  intros Hsub.
  destruct (indicators_ok raw Hsub)
    as (s3 & ind & Hexec & Hrun & _ & Hsel & Hm & Hind & Heq & Hout).
  set (d := post_collapse raw) in *.
  set (m := translated exclusion_rules d) in *.
  assert (width (length (columns m)) (rows m)) as Hw.
  { unfold width. apply Forall_forall.
    intros r' (r & -> & Hr)%list_elem_of_fmap.
    apply translate_row_length.
    by apply (post_collapse_row_length raw). }
  assert (index_of "VotedCoalition" (columns m) = Some 17%nat) as Hj by reflexivity.
  destruct (indicator_rows m 17 Hj Hw ind Heq) as (_ & Hlab & Hrows).
  exists s3, ind. do 5 (split; [done|]).
  split; [rewrite Heq; apply indicator_has_coalition|].
  split; [done|]. split.
  - apply (f_equal length) in Hlab. rewrite !length_fmap in Hlab.
    rewrite Hlab. unfold m, translated. cbn [rows]. by rewrite length_fmap.
  - intros i r Hr.
    assert (r ∈ rows d) as Hrin by (by eapply list_elem_of_lookup_2).
    assert (length (cells r) = length final_columns) as Hlen
      by (by apply (post_collapse_row_length raw)).
    destruct (Hrows i (translate_row (columns d) exclusion_rules r))
      as (r' & Hr' & Hcoal & Hcells).
    { unfold m, translated. cbn [rows]. by rewrite list_lookup_fmap, Hr. }
    change (columns m) with final_columns in Hcoal, Hcells.
    change (columns d) with final_columns in Hcoal, Hcells.
    exists r'. split; [done|]. split.
    + intros c v Hv.
      rewrite (Hcells c _ (translated_cell _ exclusion_rules _ _ _ Hlen Hv)).
      do 2 f_equal.
      destruct (existsb _ exclusion_rules); [by rewrite orb_true_r|].
      by rewrite orb_false_r.
    + rewrite Hcoal.
      destruct (post_collapse_coalition raw r Hrin) as (k & Hk & Hrange).
      rewrite Hk, (translated_cell _ exclusion_rules _ _ _ Hlen Hk).
      by rewrite coalition_has_no_rule.
Qed.

(** X10.  The indicators of the survey.  For any raw table with the selected
    columns, lines 69-192 end normally and the indicator table has one row for
    each row of [df_selected] after the coalition stage.  The indicator of a
    cell is 1 exactly when the cell is NaN in the raw data or holds a missing
    code declared for its column, and 0 otherwise; the indicators of
    [VotedParty] and of [VotedCoalition] are 0 in every row, and the last
    column is the coalition of the row. *)
Theorem indicators_of_the_survey raw :
  columns_to_keep ⊆ columns raw →
  ∃ s' ind,
    exec (project_and_rename;; coalition_collapse;; sentinel_translation;;
          missing_indicators) (init raw) = Ok s' ∧
    frame_of s' "df_selected" = Some (post_collapse raw) ∧
    frame_of s' "missing_indicators" = Some ind ∧
    length (rows ind) = length (rows (post_collapse raw)) ∧
    ∀ i r, rows (post_collapse raw) !! i = Some r →
      ∃ r', rows ind !! i = Some r' ∧
        (∀ c v, cell_at final_columns r c = Some v →
           ∃ flag : bool,
             cell_at (columns ind) r' (c +:+ "_missing") =
               Some (Num (if flag then 1 else 0)) ∧
             (flag = true ↔
              v = NaN ∨ ∃ values, (c, values) ∈ exclusion_rules ∧
                                  cell_in v values = true)) ∧
        cell_at (columns ind) r' "VotedParty_missing" = Some (Num 0) ∧
        cell_at (columns ind) r' "VotedCoalition_missing" = Some (Num 0) ∧
        cell_at (columns ind) r' "VotedCoalition" =
          cell_at final_columns r "VotedCoalition".
Proof.
  intros Hsub.
  destruct (survey_flags raw Hsub)
    as (s3 & ind & Hrun & _ & Hsel & _ & Hind & _ & _ & Hlen & Hrows).
  exists s3, ind. do 4 (split; [done|]). intros i r Hr.
  assert (r ∈ rows (post_collapse raw)) as Hrin by (by eapply list_elem_of_lookup_2).
  destruct (Hrows i r Hr) as (r' & Hr' & Hflag & Hcoal).
  exists r'. split; [done|]. split; [|split; [|split]].
  - intros c v Hv. eexists. split; [by apply Hflag|].
    rewrite orb_true_iff, listed_sentinel.
    destruct v; unfold pd.isna; split; intros [H|H];
      (discriminate H || (by left) || (by right)).
  - destruct (post_collapse_party raw r Hrin) as (z & Hz & Hrange).
    change ("VotedParty_missing") with ("VotedParty" +:+ "_missing").
    rewrite (Hflag _ _ Hz). by rewrite party_is_no_sentinel.
  - destruct (post_collapse_coalition raw r Hrin) as (k & Hk & Hrange).
    change ("VotedCoalition_missing") with ("VotedCoalition" +:+ "_missing").
    rewrite (Hflag _ _ Hk). by rewrite coalition_has_no_rule.
  - done.
Qed.

Lemma indicators_of_the_survey_witness :
  columns_to_keep ⊆ columns raw_example ∧
  ∃ s' ind,
    exec (project_and_rename;; coalition_collapse;; sentinel_translation;;
          missing_indicators) (init raw_example) = Ok s' ∧
    frame_of s' "df_selected" = Some (post_collapse raw_example) ∧
    frame_of s' "missing_indicators" = Some ind ∧
    length (rows ind) = length (rows (post_collapse raw_example)) ∧
    ∀ i r, rows (post_collapse raw_example) !! i = Some r →
      ∃ r', rows ind !! i = Some r' ∧
        (∀ c v, cell_at final_columns r c = Some v →
           ∃ flag : bool,
             cell_at (columns ind) r' (c +:+ "_missing") =
               Some (Num (if flag then 1 else 0)) ∧
             (flag = true ↔
              v = NaN ∨ ∃ values, (c, values) ∈ exclusion_rules ∧
                                  cell_in v values = true)) ∧
        cell_at (columns ind) r' "VotedParty_missing" = Some (Num 0) ∧
        cell_at (columns ind) r' "VotedCoalition_missing" = Some (Num 0) ∧
        cell_at (columns ind) r' "VotedCoalition" =
          cell_at final_columns r "VotedCoalition".
Proof.
  assert (columns_to_keep ⊆ columns raw_example) as Hsub.
  { apply missing_nil. vm_compute. reflexivity. }
  split; [exact Hsub|].
  exact (indicators_of_the_survey raw_example Hsub).
Defined.

Example indicators_example :
  table_after (project_and_rename;; coalition_collapse;; sentinel_translation;;
               missing_indicators) (init raw_example) "missing_indicators" =
  Some (mkFrame
          (((λ col, col +:+ "_missing") <$> final_columns) ++ ["VotedCoalition"])
          [mkRow 0 (replicate 18 (Num 0) ++ [Num 2]);
           mkRow 2 (replicate 3 (Num 0) ++ [Num 1] ++ replicate 14 (Num 0) ++ [Num 4]);
           mkRow 5 (replicate 18 (Num 0) ++ [Num 3])]).
Proof. by vm_compute. Qed.

(** ** The table of the models *)

Lemma pd_drop_ok c d i :
  index_of c (columns d) = Some i →
  pd_drop c d =
    Ok (mkFrame (delete i (columns d))
          ((λ r, mkRow (label r) (delete i (cells r))) <$> rows d)).
Proof. unfold pd_drop. by intros ->. Qed.


Lemma encode_columns ft d c : columns (encode ft d c) = columns d.
Proof.
  unfold encode, pd.getitem, pd.set_column.
  by destruct (index_of c (columns d)).
Qed.

Lemma encode_rows ft d c i :
  index_of c (columns d) = Some i →
  rows (encode ft d c) =
    zip_with (pd.set_cell i) (ft (nth_cell i <$> rows d)) (rows d).
Proof.
  intros Hi. unfold encode, pd.getitem, pd.set_column. by rewrite Hi.
Qed.

Lemma encode_column_ok ft d c s :
  c ∈ columns d →
  encode_column ft c (rebind "df_final" d s) =
    Ok ((), rebind "df_final" (encode ft d c) s).
Proof.
  intros [i Hi]%index_of_is_Some. unfold encode_column.
  rewrite (bind_ok _ _ _ _ _ (read_ok _ _ _ (frame_of_rebind_eq _ _ _))).
  unfold encode. rewrite (getitem_Some _ _ _ Hi).
  unfold mbind at 1, M_bind at 1. cbn [lift].
  apply setitem_rebind.
Qed.

Lemma for_each_encode_ok ft cols : ∀ d s,
  Forall (λ c, c ∈ columns d) cols →
  for_each cols (encode_column ft) (rebind "df_final" d s) =
    Ok ((), rebind "df_final" (foldl (encode ft) d cols) s).
Proof.
  induction cols as [|c cols IH]; intros d s Hall; [done|].
  apply Forall_cons in Hall as [Hc Hall].
  cbn [for_each foldl].
  rewrite (bind_ok _ _ _ _ _ (encode_column_ok ft d c s Hc)).
  apply IH. by rewrite encode_columns.
Qed.

(** One pass of the loop keeps the shape of the table and touches one
    column. *)
Lemma encode_row ft d c i n p r :
  (∀ s, length (ft s) = length s) →
  index_of c (columns d) = Some i →
  width n (rows d) → (i < n)%nat →
  rows d !! p = Some r →
  ∃ v, ft (nth_cell i <$> rows d) !! p = Some v ∧
       rows (encode ft d c) !! p = Some (pd.set_cell i v r).
Proof.
  intros Hft Hi Hw Hlt Hr.
  destruct (lookup_lt_is_Some_2 (ft (nth_cell i <$> rows d)) p) as [v Hv].
  { rewrite Hft, length_fmap. by eapply lookup_lt_Some. }
  exists v. split; [done|].
  rewrite (encode_rows _ _ _ _ Hi), lookup_zip_with, Hv. cbn. by rewrite Hr.
Qed.

Lemma encode_length ft d c :
  (∀ s, length (ft s) = length s) →
  length (rows (encode ft d c)) = length (rows d).
Proof.
  intros Hft. unfold encode, pd.getitem, pd.set_column.
  destruct (index_of c (columns d)) as [i|]; [|done].
  cbn [rows]. rewrite length_zip_with, Hft, length_fmap. lia.
Qed.

Lemma encode_width ft d c n :
  (∀ s, length (ft s) = length s) →
  c ∈ columns d → length (columns d) = n →
  width n (rows d) → width n (rows (encode ft d c)).
Proof.
  intros Hft [i Hi]%index_of_is_Some Hn Hw.
  assert (i < n)%nat as Hlt by (rewrite <- Hn; by eapply index_of_lt).
  unfold width. apply Forall_lookup. intros p r' Hr'.
  assert (is_Some (rows d !! p)) as [r Hr].
  { apply lookup_lt_is_Some. rewrite <- (encode_length ft d c Hft).
    by eapply lookup_lt_Some. }
  destruct (encode_row ft d c i n p r Hft Hi Hw Hlt Hr) as (v & _ & Hrow).
  rewrite Hrow in Hr'. injection Hr' as <-.
  assert (length (cells r) = n) as Hlen.
  { unfold width in Hw. rewrite Forall_lookup in Hw. by apply (Hw p). }
  rewrite length_set_cell_lt; [done|lia].
Qed.

(** The loop keeps the columns, the number of rows, their labels and every
    cell outside the encoded columns. *)
Lemma encoded_outside ft cols : ∀ d n,
  (∀ s, length (ft s) = length s) →
  Forall (λ c, c ∈ columns d) cols →
  length (columns d) = n → width n (rows d) →
  columns (foldl (encode ft) d cols) = columns d ∧
  width n (rows (foldl (encode ft) d cols)) ∧
  length (rows (foldl (encode ft) d cols)) = length (rows d) ∧
  ∀ p r, rows d !! p = Some r →
    ∃ r', rows (foldl (encode ft) d cols) !! p = Some r' ∧
          label r' = label r ∧
          ∀ k, (∀ c, c ∈ cols → index_of c (columns d) ≠ Some k) →
               cells r' !! k = cells r !! k.
Proof.
  induction cols as [|c cols IH]; intros d n Hft Hall Hn Hw.
  { cbn [foldl]. do 3 (split; [done|]). intros p r Hr. by exists r. }
  apply Forall_cons in Hall as [Hc Hall]. cbn [foldl].
  destruct (IH (encode ft d c) n Hft) as (Hcols & Hw' & Hlen & Hrows).
  { by rewrite encode_columns. }
  { by rewrite encode_columns. }
  { by apply encode_width. }
  rewrite encode_columns in Hcols. rewrite encode_length in Hlen by done.
  do 3 (split; [done|]). intros p r Hr.
  apply index_of_is_Some in Hc as [i Hi].
  assert (i < n)%nat as Hlt by (rewrite <- Hn; by eapply index_of_lt).
  destruct (encode_row ft d c i n p r Hft Hi Hw Hlt Hr) as (v & _ & Hrow).
  destruct (Hrows p _ Hrow) as (r' & Hr' & Hlab & Hcells).
  exists r'. split; [done|]. split; [by rewrite Hlab|].
  intros k Hk. rewrite Hcells.
  - apply cells_set_cell_ne.
    + assert (length (cells r) = n) as <-; [|lia].
      unfold width in Hw. rewrite Forall_lookup in Hw. by apply (Hw p).
    + intros ->. apply (Hk c); [by left|done].
  - intros c' Hc'. rewrite encode_columns. apply Hk. by right.
Qed.

Lemma column_ext k (d d' : DataFrame) :
  length (rows d') = length (rows d) →
  (∀ p r, rows d !! p = Some r →
     ∃ r', rows d' !! p = Some r' ∧ cells r' !! k = cells r !! k) →
  nth_cell k <$> rows d' = nth_cell k <$> rows d.
Proof.
  intros Hlen Hrows. apply list_eq. intros p. rewrite !list_lookup_fmap.
  destruct (rows d !! p) as [r|] eqn:Hr.
  - destruct (Hrows p r Hr) as (r' & -> & Hk). cbn. unfold nth_cell. by rewrite Hk.
  - apply lookup_ge_None in Hr. rewrite <- Hlen in Hr.
    apply lookup_ge_None in Hr. by rewrite Hr.
Qed.

Lemma encode_column_values ft d c i n :
  (∀ s, length (ft s) = length s) →
  index_of c (columns d) = Some i →
  width n (rows d) → (i < n)%nat →
  nth_cell i <$> rows (encode ft d c) = ft (nth_cell i <$> rows d).
Proof.
  intros Hft Hi Hw Hlt. apply list_eq. intros p. rewrite list_lookup_fmap.
  destruct (rows d !! p) as [r|] eqn:Hr.
  - destruct (encode_row ft d c i n p r Hft Hi Hw Hlt Hr) as (v & -> & ->).
    cbn. f_equal. apply nth_cell_set_cell_eq.
    assert (length (cells r) = n) as ->; [|lia].
    unfold width in Hw. rewrite Forall_lookup in Hw. by apply (Hw p).
  - apply lookup_ge_None in Hr.
    rewrite (lookup_ge_None_2 (ft _)) by (by rewrite Hft, length_fmap).
    rewrite lookup_ge_None_2; [done|]. by rewrite encode_length.
Qed.

(** A column listed once holds what the encoder returns for the column it
    held. *)
Lemma encoded_column ft cols : ∀ d n x k,
  (∀ s, length (ft s) = length s) →
  Forall (λ c, c ∈ columns d) cols → NoDup cols →
  length (columns d) = n → width n (rows d) →
  x ∈ cols → index_of x (columns d) = Some k →
  nth_cell k <$> rows (foldl (encode ft) d cols) = ft (nth_cell k <$> rows d).
Proof.
  induction cols as [|c cols IH]; intros d n x k Hft Hall Hnd Hn Hw Hx Hk.
  { by apply elem_of_nil in Hx. }
  apply Forall_cons in Hall as [Hc Hall].
  apply NoDup_cons in Hnd as [Hnotin Hnd].
  assert (k < n)%nat as Hlt by (rewrite <- Hn; by eapply index_of_lt).
  assert (Forall (λ c0, c0 ∈ columns (encode ft d c)) cols) as Hall'
    by (by rewrite encode_columns).
  assert (width n (rows (encode ft d c))) as Hw' by (by apply encode_width).
  cbn [foldl].
  destruct (decide (x = c)) as [->|Hne].
  - destruct (encoded_outside ft cols (encode ft d c) n Hft Hall')
      as (_ & _ & Hlen & Hrows); [by rewrite encode_columns|done|].
    rewrite (column_ext k (encode ft d c)); [by eapply encode_column_values| |]; [done|].
    intros p r Hr. destruct (Hrows p r Hr) as (r' & Hr' & _ & Hcells).
    exists r'. split; [done|]. apply Hcells.
    intros c' Hc' Hk'. rewrite encode_columns in Hk'.
    apply Hnotin. by rewrite (index_of_inj _ _ _ _ Hk Hk').
  - apply elem_of_cons in Hx as [->|Hx]; [done|].
    rewrite (IH (encode ft d c) n x k); try done.
    + f_equal.
      destruct (encoded_outside ft [c] d n Hft) as (_ & _ & Hlen & Hrows);
        [by apply Forall_singleton|done|done|].
      apply (column_ext k d); [done|].
      intros p r Hr. destruct (Hrows p r Hr) as (r' & Hr' & _ & Hcells).
      exists r'. split; [done|]. apply Hcells.
      intros c' ->%list_elem_of_singleton Hk'.
      apply Hne. by rewrite (index_of_inj _ _ _ _ Hk Hk').
    + by rewrite encode_columns.
    + by rewrite encode_columns.
Qed.

Lemma delete_index_of c : ∀ (cols : list string) i,
  NoDup cols → index_of c cols = Some i →
  delete i cols = filter (λ x, x ≠ c) cols.
Proof.
  induction cols as [|x cols IH]; intros i Hnd Hi; [done|].
  apply NoDup_cons in Hnd as [Hx Hnd]. cbn in Hi. rewrite filter_cons.
  case_decide as Hxc.
  - injection Hi as <-. subst x. rewrite decide_False by (intros H; by apply H).
    cbn. symmetry. apply filter_true. apply Forall_forall. by intros y Hy ->.
  - destruct (index_of c cols) as [i'|] eqn:Hi'; [|done]. cbn in Hi.
    injection Hi as <-. rewrite decide_True by done. cbn. f_equal. by apply IH.
Qed.

Lemma prepare_final_ok sel ft s d i :
  frame_of s "df_filtered" = Some d →
  index_of "VotedParty" (columns d) = Some i →
  let d1 := mkFrame (delete i (columns d))
              ((λ r, mkRow (label r) (delete i (cells r))) <$> rows d) in
  sel d1 ⊆ columns d1 →
  prepare_final sel ft s =
    Ok ((), rebind "df_final" (foldl (encode ft) d1 (sel d1))
              (rebind "df_final" d s)).
Proof.
  intros Hd Hi d1 Hsel. unfold prepare_final.
  rewrite (bind_ok _ _ _ _ _ (read_ok _ _ _ Hd)).
  rewrite (bind_ok _ _ _ _ _ (bind_new_ok _ _ _)).
  rewrite (bind_ok _ _ _ _ _ (read_ok _ _ _ (frame_of_rebind_eq _ _ _))).
  unfold pd.copy. rewrite (pd_drop_ok _ _ _ Hi). fold d1.
  unfold mbind at 1, M_bind at 1. cbn [lift].
  rewrite (bind_ok _ _ _ _ _ (bind_new_ok _ _ _)).
  rewrite (bind_ok _ _ _ _ _ (read_ok _ _ _ (frame_of_rebind_eq _ _ _))).
  apply for_each_encode_ok. apply Forall_forall. intros c Hc. by apply Hsel.
Qed.

Lemma dropped_width c d i :
  index_of c (columns d) = Some i →
  width (length (columns d)) (rows d) →
  width (length (delete i (columns d)))
    ((λ r, mkRow (label r) (delete i (cells r))) <$> rows d).
Proof.
  intros Hi Hw. unfold width in *. rewrite Forall_fmap.
  eapply Forall_impl; [exact Hw|]. intros r Hlen. cbn beta in Hlen.
  unfold compose. cbn [cells]. apply index_of_lt in Hi.
  rewrite !length_delete by (apply lookup_lt_is_Some; lia). lia.
Qed.

Lemma index_of_delete c c' : ∀ (cols : list string) i,
  index_of c cols = Some i → c' ≠ c →
  index_of c' (delete i cols) =
    (λ k, if decide (k < i)%nat then k else pred k) <$> index_of c' cols.
Proof.
  induction cols as [|x cols IH]; intros i Hi Hne; [done|].
  cbn in Hi. case_decide as Hx.
  - injection Hi as <-. subst x. cbn [delete list_delete index_of].
    rewrite decide_False by done.
    destruct (index_of c' cols) as [k|]; [|done]. done.
  - destruct (index_of c cols) as [i'|] eqn:Hi'; [|done]. cbn in Hi.
    injection Hi as <-. cbn [delete list_delete index_of].
    case_decide; [done|].
    etrans; [apply (f_equal (fmap S)), (IH i' eq_refl Hne)|].
    destruct (index_of c' cols) as [k|] eqn:Hk; [|done]. cbn.
    destruct (decide (k < i')%nat); [by rewrite decide_True by lia|].
    rewrite decide_False by lia. f_equal.
    assert (k ≠ i') as Hki.
    { intros ->. apply Hne. by apply (index_of_inj _ _ cols i'). }
    lia.
Qed.

(** Dropping a column leaves the other columns as they are. *)
Lemma getitem_drop c c' d d1 :
  pd_drop c d = Ok d1 → c' ≠ c → pd.getitem c' d1 = pd.getitem c' d.
Proof.
  unfold pd_drop. destruct (index_of c (columns d)) as [i|] eqn:Hi; [|done].
  intros [= <-] Hne. unfold pd.getitem. cbn [columns rows].
  rewrite (index_of_delete c c' _ i Hi Hne).
  destruct (index_of c' (columns d)) as [k|] eqn:Hk; [|done]. cbn [fmap option_fmap option_map].
  f_equal. rewrite <- list_fmap_compose. apply list_fmap_ext. intros _ r _.
  unfold compose, nth_cell. cbn [cells].
  assert (k ≠ i) as Hki.
  { intros ->. apply Hne. by apply (index_of_inj _ _ (columns d) i). }
  destruct (decide (k < i)%nat).
  - by rewrite list_lookup_delete_lt.
  - rewrite list_lookup_delete_ge by lia. do 2 f_equal. lia.
Qed.

Lemma labels_drop c d d1 :
  pd_drop c d = Ok d1 → label <$> rows d1 = label <$> rows d.
Proof.
  unfold pd_drop. destruct (index_of c (columns d)) as [i|]; [|done].
  intros [= <-]. cbn [rows]. rewrite <- list_fmap_compose. by apply list_fmap_ext.
Qed.

Lemma columns_drop c d d1 :
  NoDup (columns d) → pd_drop c d = Ok d1 →
  columns d1 = filter (λ x, x ≠ c) (columns d).
Proof.
  intros Hnd. unfold pd_drop.
  destruct (index_of c (columns d)) as [i|] eqn:Hi; [|done].
  intros [= <-]. cbn [columns]. by apply delete_index_of.
Qed.

(** The table the loop leaves, from the table [drop] made. *)
Lemma encoded_table sel ft d d1 :
  NoDup (columns d) →
  width (length (columns d)) (rows d) →
  pd_drop "VotedParty" d = Ok d1 →
  sel d1 ⊆ columns d1 →
  (∀ ser, length (ft ser) = length ser) →
  ∀ out, out = foldl (encode ft) d1 (sel d1) →
    columns out = filter (λ c, c ≠ "VotedParty") (columns d) ∧
    label <$> rows out = label <$> rows d ∧
    (∀ c, c ≠ "VotedParty" → c ∉ sel d1 → pd.getitem c out = pd.getitem c d) ∧
    (NoDup (sel d1) →
     ∀ c ser, c ∈ sel d1 → pd.getitem c d = Ok ser → pd.getitem c out = Ok (ft ser)).
Proof.
  intros Hnd Hw Hdrop Hsel Hft out ->.
  assert (Forall (λ c, c ∈ columns d1) (sel d1)) as Hall.
  { apply Forall_forall. intros c Hc. by apply Hsel. }
  assert (width (length (columns d1)) (rows d1)) as Hw1.
  { unfold pd_drop in Hdrop.
    destruct (index_of "VotedParty" (columns d)) as [i|] eqn:Hi; [|done].
    injection Hdrop as <-. by apply dropped_width with "VotedParty". }
  assert ("VotedParty" ∉ columns d1) as Hgone.
  { rewrite (columns_drop _ _ _ Hnd Hdrop), list_elem_of_filter. by intros [? _]. }
  destruct (encoded_outside ft (sel d1) d1 _ Hft Hall eq_refl Hw1)
    as (Hcols1 & _ & Hlen & Hrows).
  split; [by rewrite Hcols1, (columns_drop _ _ _ Hnd Hdrop)|].
  split.
  { rewrite <- (labels_drop _ _ _ Hdrop). apply list_eq. intros p.
    rewrite !list_lookup_fmap.
    destruct (rows d1 !! p) as [r|] eqn:Hr.
    - destruct (Hrows p r Hr) as (r' & -> & Hlab & _). cbn. by rewrite Hlab.
    - apply lookup_ge_None in Hr. rewrite lookup_ge_None_2; [done|]. by rewrite Hlen. }
  split.
  - intros c Hne Hc. rewrite <- (getitem_drop _ _ _ _ Hdrop Hne).
    unfold pd.getitem. rewrite Hcols1.
    destruct (index_of c (columns d1)) as [k|] eqn:Hk; [|done]. f_equal.
    apply column_ext; [done|]. intros p r Hr.
    destruct (Hrows p r Hr) as (r' & Hr' & _ & Hcells).
    exists r'. split; [done|]. apply Hcells. intros c' Hc' Hk'.
    apply Hc. by rewrite (index_of_inj _ _ _ _ Hk Hk').
  - intros Hnds c ser Hc Hser.
    assert (c ≠ "VotedParty") as Hne.
    { intros ->. apply Hgone. by apply Hsel. }
    rewrite <- (getitem_drop _ _ _ _ Hdrop Hne) in Hser.
    unfold pd.getitem in *. rewrite Hcols1.
    destruct (index_of c (columns d1)) as [k|] eqn:Hk; [|done].
    injection Hser as <-. f_equal.
    by apply (encoded_column ft (sel d1) d1 (length (columns d1)) c k).
Qed.

(** X11.  The table of the models is a new object.  From any store in which
    [df_filtered] is a rectangular table with unique column labels, one of
    them [VotedParty], for any selection of columns of the table and any
    encoder that returns as many values as it is given, lines 290-298 end
    normally, print nothing, change no object and bind no name but
    [df_final]: the loop writes in place, but into the object [drop] made.
    [df_final] has the columns of [df_filtered] without [VotedParty], in
    their order, and the same row labels; a column that is not selected is
    the column of [df_filtered], and a column selected once is what the
    encoder returns for the column of [df_filtered]. *)
Theorem final_table_is_a_new_object sel ft s d :
  frame_of s "df_filtered" = Some d →
  NoDup (columns d) →
  "VotedParty" ∈ columns d →
  width (length (columns d)) (rows d) →
  (∀ d', sel d' ⊆ columns d') →
  (∀ ser, length (ft ser) = length ser) →
  ∃ s' d1 out,
    exec (prepare_final sel ft) s = Ok s' ∧
    extends ["df_final"] s s' ∧
    stdout s' = stdout s ∧
    frame_of s' "df_filtered" = Some d ∧
    frame_of s' "df_final" = Some out ∧
    pd_drop "VotedParty" d = Ok d1 ∧
    columns out = filter (λ c, c ≠ "VotedParty") (columns d) ∧
    label <$> rows out = label <$> rows d ∧
    (∀ c, c ≠ "VotedParty" → c ∉ sel d1 → pd.getitem c out = pd.getitem c d) ∧
    (NoDup (sel d1) →
     ∀ c ser, c ∈ sel d1 → pd.getitem c d = Ok ser → pd.getitem c out = Ok (ft ser)).
Proof.
  intros Hd Hnd [i Hi]%index_of_is_Some Hw Hsel Hft.
  pose proof (pd_drop_ok _ _ _ Hi) as Hdrop.
  set (d1 := mkFrame _ _) in Hdrop.
  pose proof (prepare_final_ok sel ft s d i Hd Hi (Hsel d1)) as Hrun.
  fold d1 in Hrun.
  set (out := foldl (encode ft) d1 (sel d1)) in Hrun.
  set (s' := rebind "df_final" out (rebind "df_final" d s)) in Hrun.
  assert (extends ["df_final"] s s') as Hext.
  { eapply extends_trans; apply extends_rebind; by left. }
  exists s', d1, out.
  split; [by apply exec_ok|].
  split; [done|].
  split; [done|].
  split.
  { apply (extends_frame _ _ _ _ _ Hext); [|done].
    by intros [=]%list_elem_of_singleton. }
  split; [apply frame_of_rebind_eq|].
  split; [done|].
  by apply (encoded_table sel ft d d1).
Qed.

Lemma select_text_columns d : select_text d ⊆ columns d.
Proof. intros c [_ Hc]%list_elem_of_filter. exact Hc. Qed.

Lemma rank_texts_length ser : length (rank_texts ser) = length ser.
Proof. unfold rank_texts. apply length_fmap. Qed.

Lemma final_table_is_a_new_object_witness :
  let s := mkStore [clean_example] {["df_filtered" := 0%nat]} [] in
  ∃ s' d1 out,
    exec (prepare_final select_text rank_texts) s = Ok s' ∧
    extends ["df_final"] s s' ∧
    stdout s' = stdout s ∧
    frame_of s' "df_filtered" = Some clean_example ∧
    frame_of s' "df_final" = Some out ∧
    pd_drop "VotedParty" clean_example = Ok d1 ∧
    columns out = filter (λ c, c ≠ "VotedParty") (columns clean_example) ∧
    label <$> rows out = label <$> rows clean_example ∧
    (∀ c, c ≠ "VotedParty" → c ∉ select_text d1 →
          pd.getitem c out = pd.getitem c clean_example) ∧
    (NoDup (select_text d1) →
     ∀ c ser, c ∈ select_text d1 → pd.getitem c clean_example = Ok ser →
              pd.getitem c out = Ok (rank_texts ser)).
Proof.
  intros s.
  assert (frame_of s "df_filtered" = Some clean_example) as Hd by reflexivity.
  assert (NoDup (columns clean_example)) as Hnd.
  { apply (bool_decide_unpack _). vm_compute. exact I. }
  assert ("VotedParty" ∈ columns clean_example) as Hparty.
  { apply (bool_decide_unpack _). vm_compute. exact I. }
  assert (width (length (columns clean_example)) (rows clean_example)) as Hw.
  { apply (bool_decide_unpack _). vm_compute. exact I. }
  exact (final_table_is_a_new_object select_text rank_texts s clean_example
           Hd Hnd Hparty Hw select_text_columns rank_texts_length).
Defined.

Example final_table_example :
  table_after (prepare_final select_text rank_texts)
    (mkStore [clean_example] {["df_filtered" := 0%nat]} []) "df_final" =
  Some (mkFrame (feature_columns ++ ["VotedCoalition"])
          [mkRow 0 [Num 40; Num 1; Num 3; Num 5; Num 0; Num 1; Num 3; Num 2;
                    Num 5; Num 6; Num 4; Num 5; Num 7; Num 60; Num 1; Num 5;
                    Num 2];
           mkRow 5 [Num 40; Num 1; Num 3; Num 8; Num 0; Num 1; Num 3; Num 2;
                    Num 5; Num 6; Num 4; Num 5; Num 7; Num 60; Num 1; Num 5;
                    Num 3]]).
Proof. by vm_compute. Qed.

(** ** The input of the models *)

Lemma features_target_ok d j :
  index_of "VotedCoalition" (columns d) = Some j →
  ∃ X, features_target d = Ok (X, nth_cell j <$> rows d) ∧
       pd_drop "VotedCoalition" d = Ok X.
Proof.
  intros Hj. unfold features_target.
  rewrite (pd_drop_ok _ _ _ Hj), (getitem_Some _ _ _ Hj). by eexists.
Qed.


Lemma filtered_coalition raw :
  Forall (λ v, ∃ k, v = Num k ∧ 1 ≤ k ≤ 4)
    (nth_cell 17 <$> rows (filtered exclusion_rules (post_collapse raw))).
Proof.
  rewrite Forall_fmap. apply Forall_forall. intros r [Hr _]%filtered_rows.
  destruct (post_collapse_coalition raw r Hr) as (k & Hk & Hrange).
  exists k. split; [|done].
  rewrite (cell_at_final r "VotedCoalition" 17) in Hk;
    [congruence|by apply (post_collapse_row_length raw)|done].
Qed.

Lemma exec_Ok_inv m s s' : exec m s = Ok s' → m s = Ok ((), s').
Proof. unfold exec. destruct (m s) as [[[] s1]|e]; [|done]. by intros [= ->]. Qed.

Lemma summary_statistics_ok sel s d :
  frame_of s "df_filtered" = Some d →
  columns d ≠ [] → sel d ≠ [] →
  summary_statistics sel s = Ok ((), s).
Proof.
  intros Hd Hcols Hsel. unfold summary_statistics.
  rewrite (bind_ok _ _ _ _ _ (read_ok _ _ _ Hd)).
  destruct (columns d); [done|]. by destruct (sel d).
Qed.

Lemma summary_statistics_numeric sel s d :
  frame_of s "df_filtered" = Some d →
  columns d ≠ [] → sel d = [] →
  summary_statistics sel s = Raise (KeyError ["unique"; "top"; "freq"]).
Proof.
  intros Hd Hcols Hsel. unfold summary_statistics.
  rewrite (bind_ok _ _ _ _ _ (read_ok _ _ _ Hd)).
  destruct (columns d); [done|]. by rewrite Hsel.
Qed.

Lemma notebook_ok sel ft raw :
  columns_to_keep ⊆ columns raw →
  rows (post_collapse raw) ≠ [] →
  ∃ s4,
    frame_of s4 "df_filtered" = Some (filtered exclusion_rules (post_collapse raw)) ∧
    (sel (filtered exclusion_rules (post_collapse raw)) = [] →
     exec (notebook sel ft) (init raw) = Raise (KeyError ["unique"; "top"; "freq"])) ∧
    (sel (filtered exclusion_rules (post_collapse raw)) ≠ [] →
     exec (notebook sel ft) (init raw) = exec (prepare_final sel ft) s4).
Proof.
  intros Hsub Hvoter.
  destruct (wrangle_ok raw Hsub Hvoter) as (s4 & Hrun%exec_Ok_inv & _ & Hf & _).
  exists s4. split; [done|]. unfold notebook. rewrite (exec_seq _ _ _ _ Hrun).
  split; intros Hsel.
  - apply exec_seq_raise. by apply (summary_statistics_numeric sel s4 _ Hf).
  - by rewrite (exec_seq _ _ _ _ (summary_statistics_ok sel s4 _ Hf ltac:(done) Hsel)).
Qed.

Lemma final_columns_NoDup : NoDup final_columns.
Proof. apply (bool_decide_unpack _). by vm_compute. Qed.

(** X12.  The input of the models.  For any raw table with the selected
    columns and a respondent with a classifiable party, any selection of
    columns that finds a column of texts in [df_filtered], and any encoder
    that returns as many values as it is given, lines 64-298 end normally.
    [df_final] has the sixteen features and [VotedCoalition], in this order,
    and one row for each row of [df_filtered].  The split of lines 593-594
    succeeds: [X] has the sixteen features and no column of the vote, [y] has
    one value for each row of [X], and, unless the target is among the
    encoded columns, every value of [y] is a coalition from 1 to 4.  The
    second split, of lines 705-709, has the fifteen features other than
    [LeftRightScale] and the same [y].  When no column of [df_filtered] holds
    texts the script stops at line 265 instead: [describe] gives no row
    [unique], [top] or [freq] for [drop] to find. *)
Theorem models_input sel ft raw :
  columns_to_keep ⊆ columns raw →
  rows (post_collapse raw) ≠ [] →
  (∀ d', sel d' ⊆ columns d') →
  (∀ ser, length (ft ser) = length ser) →
  (sel (filtered exclusion_rules (post_collapse raw)) = [] →
   exec (notebook sel ft) (init raw) = Raise (KeyError ["unique"; "top"; "freq"])) ∧
  (sel (filtered exclusion_rules (post_collapse raw)) ≠ [] →
  ∃ s' d1 out X y,
    exec (notebook sel ft) (init raw) = Ok s' ∧
    frame_of s' "df_filtered" = Some (filtered exclusion_rules (post_collapse raw)) ∧
    pd_drop "VotedParty" (filtered exclusion_rules (post_collapse raw)) = Ok d1 ∧
    frame_of s' "df_final" = Some out ∧
    columns out = feature_columns ++ ["VotedCoalition"] ∧
    features_target out = Ok (X, y) ∧
    columns X = feature_columns ∧
    length (rows X) = length (rows (filtered exclusion_rules (post_collapse raw))) ∧
    length y = length (rows X) ∧
    ("VotedCoalition" ∉ sel d1 → Forall (λ v, ∃ k, v = Num k ∧ 1 ≤ k ≤ 4) y) ∧
    ∃ out2 X2 y2,
      without_left_right out = Ok out2 ∧
      features_target out2 = Ok (X2, y2) ∧
      columns X2 = filter (λ c, c ≠ "LeftRightScale") feature_columns ∧
      y2 = y).
Proof.
  intros Hsub Hvoter Hsel Hft.
  destruct (notebook_ok sel ft raw Hsub Hvoter) as (s4 & Hf4 & Hnum & Hrun).
  split; [done|]. intros Htext. specialize (Hrun Htext).
  set (d := filtered exclusion_rules (post_collapse raw)) in *.
  assert (width (length (columns d)) (rows d)) as Hw.
  { unfold width. apply Forall_forall. intros r [Hr _]%filtered_rows.
    by apply (post_collapse_row_length raw). }
  pose proof (pd_drop_ok "VotedParty" d 16 eq_refl) as Hdrop.
  set (d1 := mkFrame _ _) in Hdrop.
  pose proof (prepare_final_ok sel ft s4 d 16 Hf4 eq_refl (Hsel d1)) as Hrun4.
  fold d1 in Hrun4.
  set (out := foldl (encode ft) d1 (sel d1)) in Hrun4.
  set (s' := rebind "df_final" out (rebind "df_final" d s4)) in Hrun4.
  assert (exec (prepare_final sel ft) s4 = Ok s') as Hrun' by (by apply exec_ok).
  assert (frame_of s' "df_filtered" = Some d) as Hf.
  { apply (extends_frame ["df_final"] s4); [|by intros [=]%list_elem_of_singleton|done].
    eapply extends_trans; apply extends_rebind; by left. }
  assert (frame_of s' "df_final" = Some out) as Hfinal by apply frame_of_rebind_eq.
  destruct (encoded_table sel ft d d1 final_columns_NoDup Hw Hdrop (Hsel d1) Hft out eq_refl)
    as (Hcols & Hlab & Hkeep & _).
  change (filter (λ c, c ≠ "VotedParty") (columns d))
    with (feature_columns ++ ["VotedCoalition"]) in Hcols.
  assert (index_of "VotedCoalition" (columns out) = Some 16%nat) as Hj
    by (by rewrite Hcols).
  assert (NoDup (columns out)) as Hnd.
  { rewrite Hcols. apply (bool_decide_unpack _). by vm_compute. }
  destruct (features_target_ok out 16 Hj) as (X & Hxy & HX).
  assert (length (rows out) = length (rows d)) as Hlen.
  { apply (f_equal length) in Hlab. by rewrite !length_fmap in Hlab. }
  assert (index_of "LeftRightScale" (columns out) = Some 8%nat) as Hlr
    by (by rewrite Hcols).
  pose proof (pd_drop_ok _ _ _ Hlr) as Hout2.
  set (out2 := mkFrame _ _) in Hout2.
  assert (columns out2 =
            filter (λ c, c ≠ "LeftRightScale") feature_columns ++ ["VotedCoalition"])
    as Hcols2.
  { unfold out2. cbn [columns]. by rewrite Hcols. }
  assert (index_of "VotedCoalition" (columns out2) = Some 15%nat) as Hj2
    by (by rewrite Hcols2).
  destruct (features_target_ok out2 15 Hj2) as (X2 & Hxy2 & HX2).
  exists s', d1, out, X, (nth_cell 16 <$> rows out).
  split; [by rewrite Hrun|]. do 5 (split; [done|]).
  split; [|split; [|split; [|split]]].
  - rewrite (columns_drop _ _ _ Hnd HX), Hcols. by vm_compute.
  - apply labels_drop in HX. apply (f_equal length) in HX.
    rewrite !length_fmap in HX. by rewrite HX.
  - apply labels_drop in HX. apply (f_equal length) in HX.
    rewrite !length_fmap in HX. by rewrite length_fmap, HX.
  - intros Hnot.
    assert (pd.getitem "VotedCoalition" out = pd.getitem "VotedCoalition" d) as Hy
      by (by apply Hkeep).
    rewrite (getitem_Some _ _ _ Hj), (getitem_Some "VotedCoalition" d 17 eq_refl) in Hy.
    injection Hy as ->. apply filtered_coalition.
  - exists out2, X2, (nth_cell 15 <$> rows out2). split; [done|].
    split; [done|]. split.
    + assert (NoDup (columns out2)) as Hnd2.
      { rewrite Hcols2. apply (bool_decide_unpack _). by vm_compute. }
      rewrite (columns_drop _ _ _ Hnd2 HX2), Hcols2. by vm_compute.
    + assert (pd.getitem "VotedCoalition" out2 = pd.getitem "VotedCoalition" out) as Hy
        by (by apply (getitem_drop "LeftRightScale")).
      rewrite (getitem_Some _ _ _ Hj), (getitem_Some _ _ _ Hj2) in Hy.
      by injection Hy.
Qed.

Lemma models_input_witness :
  columns_to_keep ⊆ columns raw_example ∧
  rows (post_collapse raw_example) ≠ [] ∧
  select_text (filtered exclusion_rules (post_collapse raw_example)) ≠ [] ∧
  ∃ s' d1 out X y,
    exec (notebook select_text rank_texts) (init raw_example) = Ok s' ∧
    frame_of s' "df_filtered" =
      Some (filtered exclusion_rules (post_collapse raw_example)) ∧
    pd_drop "VotedParty" (filtered exclusion_rules (post_collapse raw_example)) = Ok d1 ∧
    frame_of s' "df_final" = Some out ∧
    columns out = feature_columns ++ ["VotedCoalition"] ∧
    features_target out = Ok (X, y) ∧
    columns X = feature_columns ∧
    length (rows X) =
      length (rows (filtered exclusion_rules (post_collapse raw_example))) ∧
    length y = length (rows X) ∧
    ("VotedCoalition" ∉ select_text d1 →
     Forall (λ v, ∃ k, v = Num k ∧ 1 ≤ k ≤ 4) y) ∧
    ∃ out2 X2 y2,
      without_left_right out = Ok out2 ∧
      features_target out2 = Ok (X2, y2) ∧
      columns X2 = filter (λ c, c ≠ "LeftRightScale") feature_columns ∧
      y2 = y.
Proof.
  assert (columns_to_keep ⊆ columns raw_example) as Hsub.
  { apply missing_nil. vm_compute. reflexivity. }
  assert (rows (post_collapse raw_example) ≠ []) as Hvoter.
  { apply (bool_decide_unpack _). vm_compute. exact I. }
  assert (select_text (filtered exclusion_rules (post_collapse raw_example)) ≠ [])
    as Htext.
  { apply (bool_decide_unpack _). vm_compute. exact I. }
  split; [exact Hsub|]. split; [exact Hvoter|]. split; [exact Htext|].
  exact (proj2 (models_input select_text rank_texts raw_example Hsub Hvoter
                  select_text_columns rank_texts_length) Htext).
Defined.

(** A table of numbers only stops the script at line 265. *)
Example numeric_table_stops_at_describe :
  exec (notebook (λ _, []) rank_texts) (init raw_example) =
    Raise (KeyError ["unique"; "top"; "freq"]).
Proof. by vm_compute. Qed.

Example models_input_example :
  (match exec (notebook select_text rank_texts) (init raw_example) with
   | Ok s' => d ← frame_of s' "df_final";
              match features_target d with
              | Ok (X, y) => Some (columns X, label <$> rows X, y)
              | Raise _ => None
              end
   | Raise _ => None
   end) = Some (feature_columns, [0%nat; 5%nat], [Num 2; Num 3]).
Proof. by vm_compute. Qed.

(** ** The indicators and the exclusion loop *)

(** X13.  The rows the exclusion loop keeps, read off the indicators.  For
    any raw table with the selected columns and a respondent with a
    classifiable party, lines 64-229 end normally, and a row of the table the
    coalition stage left is in [df_filtered] if and only if each of its
    indicators that is 1, for a column with a rule, stands for a cell that is
    NaN in the raw data: every excluded row is flagged, but a flagged row is
    excluded only when the flag comes from a missing code. *)
Theorem kept_rows_and_indicators raw :
  columns_to_keep ⊆ columns raw →
  rows (post_collapse raw) ≠ [] →
  ∃ s' ind out,
    exec wrangle (init raw) = Ok s' ∧
    frame_of s' "missing_indicators" = Some ind ∧
    frame_of s' "df_filtered" = Some out ∧
    ∀ i r, rows (post_collapse raw) !! i = Some r →
      ∃ r', rows ind !! i = Some r' ∧
        (r ∈ rows out ↔
         ∀ c values, (c, values) ∈ exclusion_rules →
           cell_at (columns ind) r' (c +:+ "_missing") = Some (Num 1) →
           cell_at final_columns r c = Some NaN).
Proof.
  intros Hsub Hvoter.
  destruct (survey_flags raw Hsub)
    as (s3 & ind & _ & Hrun & Hsel & Hm & Hind & Hcol & _ & _ & Hrows).
  destruct (proj2 (test_and_filter raw s3 ind Hsel Hm Hind Hcol) Hvoter)
    as (s4 & Hrun4 & Hext4 & Hf4 & _ & _).
  exists s4, ind, (filtered exclusion_rules (post_collapse raw)).
  split; [|split; [|split]].
  - unfold wrangle. by rewrite Hrun.
  - apply (extends_frame _ _ _ _ _ Hext4); [|done].
    rewrite !elem_of_cons, elem_of_nil. by intros [[=]|[[=]|[]]].
  - done.
  - intros i r Hr.
    assert (r ∈ rows (post_collapse raw)) as Hrin by (by eapply list_elem_of_lookup_2).
    destruct (Hrows i r Hr) as (r' & Hr' & Hflag & _).
    exists r'. split; [done|].
    rewrite filtered_rows, complete_spec.
    change (columns (post_collapse raw)) with final_columns. split.
    + intros [_ Hcomplete] c values Hrule Hone.
      assert (is_Some (cell_at final_columns r c)) as [v Hv].
      { destruct (cell_at final_columns r c) as [v|] eqn:Hv; [by eexists|].
        pose proof exclusion_rules_columns as Hcols.
        rewrite Forall_forall in Hcols. specialize (Hcols _ Hrule). cbn [fst] in Hcols.
        apply index_of_is_Some in Hcols as [k Hk].
        rewrite (cell_at_nth_cell _ _ _ k Hk) in Hv; [done|].
        rewrite (post_collapse_row_length raw r Hrin). by apply index_of_lt in Hk. }
      rewrite (Hflag c v Hv) in Hone. rewrite Hv. f_equal.
      destruct (existsb _ exclusion_rules) eqn:Hex.
      * apply listed_sentinel in Hex as (values' & Hrule' & Hin').
        destruct v as [z| |]; try done. cbn in Hin'.
        apply bool_decide_eq_true in Hin'.
        by destruct (Hcomplete c values' z Hrule' Hin').
      * rewrite orb_false_r in Hone. by destruct v.
    + intros Hnan. split; [done|]. intros c values z Hrule Hz Hv.
      specialize (Hnan c values Hrule). rewrite (Hflag c _ Hv) in Hnan.
      assert (existsb (λ rule, bool_decide (rule.1 = c) && cell_in (Num z) rule.2)
                exclusion_rules = true) as Hex.
      { apply listed_sentinel. exists values. split; [done|].
        cbn. by apply bool_decide_eq_true. }
      rewrite Hex, orb_true_r, Hv in Hnan. by specialize (Hnan eq_refl).
Qed.

Lemma kept_rows_and_indicators_witness :
  columns_to_keep ⊆ columns raw_example ∧
  rows (post_collapse raw_example) ≠ [] ∧
  ∃ s' ind out,
    exec wrangle (init raw_example) = Ok s' ∧
    frame_of s' "missing_indicators" = Some ind ∧
    frame_of s' "df_filtered" = Some out ∧
    ∀ i r, rows (post_collapse raw_example) !! i = Some r →
      ∃ r', rows ind !! i = Some r' ∧
        (r ∈ rows out ↔
         ∀ c values, (c, values) ∈ exclusion_rules →
           cell_at (columns ind) r' (c +:+ "_missing") = Some (Num 1) →
           cell_at final_columns r c = Some NaN).
Proof.
  assert (columns_to_keep ⊆ columns raw_example) as Hsub.
  { apply missing_nil. vm_compute. reflexivity. }
  assert (rows (post_collapse raw_example) ≠ []) as Hvoter.
  { apply (bool_decide_unpack _). vm_compute. exact I. }
  split; [exact Hsub|]. split; [exact Hvoter|].
  exact (kept_rows_and_indicators raw_example Hsub Hvoter).
Defined.

(** ** The coalition stage never drops a classified row *)

(** X14.  Line 145 removes nothing.  On any rectangular table with a column
    [VotedParty], once line 126 has kept the rows with a party from 1 to 8
    and line 143 has written their coalition, no [VotedCoalition] is NaN:
    [dropna] returns the table it is given, and the [else] branch of
    [assign_target] is never taken. *)
Theorem dropna_removes_nothing d i :
  index_of "VotedParty" (columns d) = Some i →
  width (length (columns d)) (rows d) →
  ∃ party kept party' with_target,
    pd.getitem "VotedParty" d = Ok party ∧
    kept = pd.getitem_mask (pd.isin (elements party_codes) party) d ∧
    pd.getitem "VotedParty" kept = Ok party' ∧
    with_target = pd.set_column "VotedCoalition" (pd.apply assign_target party') kept ∧
    pd.dropna "VotedCoalition" with_target = Ok with_target ∧
    Forall (λ v, assign_target v ≠ None) party'.
Proof.
  intros Hi Hw.
  set (d1 := mkFrame (columns d) (filter (classifiable i) (rows d))).
  assert (pd.getitem_mask (pd.isin (elements party_codes) (nth_cell i <$> rows d)) d = d1)
    as Hmask.
  { unfold pd.getitem_mask, pd.isin, d1. f_equal.
    by rewrite <- list_fmap_compose, select_fmap. }
  exists (nth_cell i <$> rows d), d1, (nth_cell i <$> rows d1), (collapsed i d).
  split; [by apply getitem_Some|]. split; [done|].
  split; [by apply (getitem_Some "VotedParty" d1 i)|].
  split; [unfold d1; cbn [rows]; by rewrite set_coalition_column|]. split.
  - unfold pd.dropna.
    rewrite (getitem_Some "VotedCoalition" (collapsed i d) _
               (index_of_coalition_columns (columns d))).
    unfold pd.getitem_mask, collapsed. cbn [columns rows]. do 2 f_equal.
    rewrite <- list_fmap_compose, select_invert_fmap.
    apply filter_true, Forall_fmap, Forall_forall. intros r Hr. cbn.
    apply list_elem_of_filter in Hr as [Hr Hin].
    destruct (coalition_cell_classifiable i r Hr) as (k & Hk & _).
    unfold with_coalition. rewrite nth_cell_set_cell_eq, Hk; [done|].
    unfold width in Hw. rewrite Forall_forall in Hw.
    rewrite (Hw r Hin). apply coalition_position_le.
  - unfold d1. cbn [rows]. rewrite Forall_fmap. apply Forall_forall.
    intros r [Hr _]%list_elem_of_filter. cbn.
    destruct (coalition_cell_classifiable i r Hr) as (k & Hk & _).
    unfold coalition_cell in Hk. by destruct (assign_target (nth_cell i r)).
Qed.

Lemma dropna_removes_nothing_witness :
  let d := selected raw_example in
  ∃ party kept party' with_target,
    pd.getitem "VotedParty" d = Ok party ∧
    kept = pd.getitem_mask (pd.isin (elements party_codes) party) d ∧
    pd.getitem "VotedParty" kept = Ok party' ∧
    with_target = pd.set_column "VotedCoalition" (pd.apply assign_target party') kept ∧
    pd.dropna "VotedCoalition" with_target = Ok with_target ∧
    Forall (λ v, assign_target v ≠ None) party'.
Proof.
  intros d.
  assert (index_of "VotedParty" (columns d) = Some 16%nat) as Hi by reflexivity.
  assert (width (length (columns d)) (rows d)) as Hw.
  { apply (bool_decide_unpack _). vm_compute. exact I. }
  exact (dropna_removes_nothing d 16 Hi Hw).
Defined.

(** Without the selection of line 126 the same two lines do drop rows: the
    row with the missing code 66 has no coalition. *)
Example dropna_without_selection :
  let d := selected raw_example in
  (party ← (match pd.getitem "VotedParty" d with Ok s => Some s | Raise _ => None end);
   match pd.dropna "VotedCoalition"
           (pd.set_column "VotedCoalition" (pd.apply assign_target party) d) with
   | Ok d' => Some (label <$> rows d')
   | Raise _ => None
   end) = Some [0%nat; 2%nat; 3%nat; 5%nat].
Proof. by vm_compute. Qed.
